(** * ROI calculator: validation, scenario adjuster and calculation engines

    A shallow embedding of the JavaScript sources

    - [validate.js]    (the schema, [coerceValue], [validateField],
                        [validateInputs], [validateCrossFields]),
    - [formulas.js]    (the full engine and [applyScenario]),
    - [simple-state.js], [simple-formulas.js] and the two [simple-calc.js]
      files (the straight-line engines, and the functions that read the form
      and write the results into the page),
    - [ui.js] as kept in the earlier [simple-calc.js] (the controller of the
      full calculator: [updateInputsFromDOM], [performCalculation]),
    - [simple-app.js] ([handleInputChange], [setScenario], [calculate]),

    over a model of the parts of the JavaScript runtime they use, followed by
    the properties proved of them.

    - Numbers are IEEE 754 binary64 values: Rocq's primitive floats, so that
      every operation rounds as it does in the program.
    - Objects are finite maps from property names to primitive values.  The
      sources never declare the type of a property, and the forms do store
      strings where numbers are expected, so an operator converts its
      operands as JavaScript does ([ToNumber], and concatenation for [+]).
    - Strings are sequences of code units below 256.  Text outside ASCII
      occurs in the [error] texts of the schema and in the currency symbols
      of the displays only; it is kept as its UTF-8 bytes, and nothing reads
      it.
    - A page is a finite map from element ids to elements; the methods that
      draw are recorded as the calls made.
    - A function that may throw or loop returns a [res]; a loop takes the
      number of turns it may use, and the theorems say how many suffice.
    - [applyScenario] is written over a heap of objects, its argument being a
      reference, so that leaving the argument alone is a statement about the
      function and not about the notation. *)

From Stdlib Require Import ZArith Floats Ascii DecimalString Lia.
From stdpp Require Import base option strings gmap list.

(** ** The JavaScript runtime *)

Module JS.

(** *** Values and objects *)

(** The primitive values that reach the calculator.  Raw inputs come from
    form fields and URL parameters (strings), from the defaults (numbers) and
    from stored JSON (the program stores no nested object or array). *)
Inductive value :=
| VUndefined
| VNull
| VBool (b : bool)
| VNum (x : float)
| VStr (s : string).

(** A plain object: own properties by name.  Reading a missing property
    gives [undefined]. *)
Abbreviation obj := (gmap string value).

Definition get (o : obj) (k : string) : value := default VUndefined (o !! k).

(** What a call can do besides returning: throw, or (for the model of a
    loop) not finish within the given number of steps. *)
Inductive res (A : Type) :=
| Ok (a : A)
| Throw (e : string)
| OutOfFuel.
Arguments Ok {A} a.
Arguments Throw {A} e.
Arguments OutOfFuel {A}.

#[export] Instance res_ret : MRet res := @Ok.
#[export] Instance res_bind : MBind res := fun A B k m =>
  match m with
  | Ok a => k a
  | Throw e => Throw e
  | OutOfFuel => OutOfFuel
  end.

(** *** Numbers *)

(** The Number value for a mathematical integer (round to nearest, ties to
    even). *)
Definition Z2F (z : Z) : float := SF2Prim (binary_normalize prec emax z 0 false).

(** The Number value for [m * 10^e10], [m >= 0], with the sign given apart
    (so that "-0" reads as [-0]). *)
Definition decimalToNumber (neg : bool) (m : Z) (e10 : Z) : float :=
  match m with
  | Zpos _ =>
      match e10 with
      | Zneg p =>
          let '(q, e', l) := SFdiv_core_binary prec emax m 0 (10 ^ Zpos p) 0 in
          SF2Prim (binary_round_aux prec emax neg q e' l)
      | _ => Z2F (if neg then - (m * 10 ^ e10) else m * 10 ^ e10)
      end
  | _ => if neg then PrimFloat.neg_zero else PrimFloat.zero
  end.

(** [Number.isInteger] on a Number. *)
Definition isIntegerF (x : float) : bool :=
  match Prim2SF x with
  | S754_zero _ => true
  | S754_finite _ m e =>
      match e with
      | Zneg p => (Zpos m mod 2 ^ Zpos p =? 0)%Z
      | _ => true
      end
  | _ => false
  end.

(** Truncation toward zero of a finite Number ([None] for NaN and the
    infinities). *)
Definition truncF (x : float) : option Z :=
  match Prim2SF x with
  | S754_zero _ => Some 0%Z
  | S754_finite s m e =>
      let a := match e with
               | Zneg p => (Zpos m / 2 ^ Zpos p)%Z
               | _ => (Zpos m * 2 ^ e)%Z
               end in
      Some (if s then (- a)%Z else a)
  | _ => None
  end.

(** [Math.ceil]: NaN, the infinities and the zeros are returned as they are;
    a value in (-1, 0) gives [-0]. *)
Definition Math_ceil (x : float) : float :=
  match Prim2SF x with
  | S754_finite s m e =>
      match e with
      | Zneg p =>
          if s then
            let q := (Zpos m / 2 ^ Zpos p)%Z in
            if (q =? 0)%Z then PrimFloat.neg_zero else Z2F (- q)
          else Z2F (- ((- Zpos m) / 2 ^ Zpos p))
      | _ => x
      end
  | _ => x
  end.

(** *** Strings: scanning numeric literals *)

Definition isDigit (c : ascii) : bool :=
  let n := nat_of_ascii c in (48 <=? n)%nat && (n <=? 57)%nat.

Definition digitVal (c : ascii) : Z := (Z.of_nat (nat_of_ascii c) - 48)%Z.

(** WhiteSpace and LineTerminator code units below 256. *)
Definition isWhiteSpace (c : ascii) : bool :=
  let n := nat_of_ascii c in
  ((9 <=? n)%nat && (n <=? 13)%nat) || (n =? 32)%nat || (n =? 160)%nat.

Fixpoint trimStart (s : string) : string :=
  match s with
  | String c r => if isWhiteSpace c then trimStart r else s
  | EmptyString => s
  end.

Definition trimEnd (s : string) : string :=
  String.rev (trimStart (String.rev s)).

Definition trim (s : string) : string := trimEnd (trimStart s).

Fixpoint startsWith (p s : string) : bool :=
  match p, s with
  | EmptyString, _ => true
  | String a p', String b s' => if Ascii.eqb a b then startsWith p' s' else false
  | String _ _, EmptyString => false
  end.

Fixpoint dropChars (n : nat) (s : string) : string :=
  match n, s with
  | S n', String _ r => dropChars n' r
  | _, _ => s
  end.

(** Longest run of decimal digits at the head of [s]: the integer read
    (continuing from [acc]), the number of digits, and the rest. *)
Fixpoint scanDigits (acc : Z) (n : Z) (s : string) : Z * Z * string :=
  match s with
  | String c r =>
      if isDigit c then scanDigits (acc * 10 + digitVal c)%Z (n + 1)%Z r
      else (acc, n, s)
  | EmptyString => (acc, n, s)
  end.

Definition scanSign (s : string) : bool * string :=
  match s with
  | String "-" r => (true, r)
  | String "+" r => (false, r)
  | _ => (false, s)
  end.

(** ExponentPart, when one is there: [e] or [E], an optional sign and at
    least one digit.  Otherwise nothing is consumed. *)
Definition scanExponent (s : string) : Z * string :=
  match s with
  | String c r =>
      if Ascii.eqb c "e" || Ascii.eqb c "E" then
        let '(neg, r1) := scanSign r in
        let '(v, n, r2) := scanDigits 0 0 r1 in
        if (n =? 0)%Z then (0%Z, s) else ((if neg then - v else v)%Z, r2)
      else (0%Z, s)
  | EmptyString => (0%Z, s)
  end.

(** Longest prefix of [s] that is a StrDecimalLiteral: its Number value and
    what follows it. *)
Definition scanDecimal (s : string) : option (float * string) :=
  let '(neg, s1) := scanSign s in
  if startsWith "Infinity" s1 then
    Some (if neg then PrimFloat.neg_infinity else PrimFloat.infinity, dropChars 8 s1)
  else
    let '(ip, ni, s2) := scanDigits 0 0 s1 in
    let '(m, nf, s3) :=
      match s2 with
      | String "." r => scanDigits ip 0 r
      | _ => (ip, 0%Z, s2)
      end in
    if (ni =? 0)%Z && (nf =? 0)%Z then None
    else
      let '(ex, s4) := scanExponent s3 in
      Some (decimalToNumber neg m (ex - nf), s4).

(** Digits in radix 2, 8 or 16 (NonDecimalIntegerLiteral, after its prefix):
    the whole string must be digits. *)
Definition radixDigit (radix : Z) (c : ascii) : option Z :=
  let n := Z.of_nat (nat_of_ascii c) in
  let d := if (48 <=? n)%Z && (n <=? 57)%Z then (n - 48)%Z
           else if (97 <=? n)%Z && (n <=? 102)%Z then (n - 87)%Z
           else if (65 <=? n)%Z && (n <=? 70)%Z then (n - 55)%Z
           else 16%Z in
  if (d <? radix)%Z then Some d else None.

Fixpoint scanRadix (radix : Z) (acc : Z) (s : string) : option Z :=
  match s with
  | EmptyString => Some acc
  | String c r =>
      match radixDigit radix c with
      | Some d => scanRadix radix (acc * radix + d)%Z r
      | None => None
      end
  end.

Definition nonDecimalLiteral (s : string) : option Z :=
  match s with
  | String "0" (String c (String d r)) =>
      let body := String d r in
      if Ascii.eqb c "x" || Ascii.eqb c "X" then scanRadix 16 0 body
      else if Ascii.eqb c "o" || Ascii.eqb c "O" then scanRadix 8 0 body
      else if Ascii.eqb c "b" || Ascii.eqb c "B" then scanRadix 2 0 body
      else None
  | _ => None
  end.

(** StringToNumber: the whole trimmed string must be a numeric literal; the
    empty string is 0. *)
Definition StringToNumber (s : string) : float :=
  let t := trim s in
  match t with
  | EmptyString => PrimFloat.zero
  | _ =>
      match nonDecimalLiteral t with
      | Some z => Z2F z
      | None =>
          match scanDecimal t with
          | Some (x, EmptyString) => x
          | _ => PrimFloat.nan
          end
      end
  end.

(** *** Number::toString *)

Definition stringOfZ (z : Z) : string :=
  NilZero.string_of_uint (N.to_uint (Z.to_N z)).

Fixpoint zeros (n : nat) : string :=
  match n with
  | O => EmptyString
  | S n' => String "0" (zeros n')
  end.

(** A positive finite Number as an exact fraction [num / den]. *)
Definition fractionOf (m : positive) (e : Z) : Z * Z :=
  match e with
  | Zneg p => (Zpos m, 2 ^ Zpos p)%Z
  | _ => (Zpos m * 2 ^ e, 1)%Z
  end.

(** The least [j >= j0] with [den <= numj * 10^(j - j0)]. *)
Fixpoint leadingShift (fuel : nat) (den numj j : Z) : Z :=
  match fuel with
  | O => j
  | S fuel' =>
      if (den <=? numj)%Z then j
      else leadingShift fuel' den (numj * 10)%Z (j + 1)%Z
  end.

(** The [n] with [10^(n-1) <= num/den < 10^n]. *)
Definition decimalExponent (num den : Z) : Z :=
  if (den <=? num)%Z then Z.of_nat (String.length (stringOfZ (num / den)))
  else (1 - leadingShift 400 den (num * 10) 1)%Z.

(** [floor (num/den / 10^p)]. *)
Definition scaledFloor (num den p : Z) : Z :=
  match p with
  | Zneg q => (num * 10 ^ Zpos q / den)%Z
  | _ => (num / (den * 10 ^ p))%Z
  end.

(** Whether [num/den] lies below ([Lt]), at ([Eq]) or above ([Gt]) the
    midpoint of [lo * 10^p] and [(lo+1) * 10^p]. *)
Definition compareMid (num den lo p : Z) : comparison :=
  match p with
  | Zneg q => (2 * num * 10 ^ Zpos q ?= (2 * lo + 1) * den)%Z
  | _ => (2 * num ?= (2 * lo + 1) * 10 ^ p * den)%Z
  end.

(** The digits [s] with exactly [k] of them, if some [s * 10^(n0-k)] reads
    back as [x]: of the two neighbours of [x] the closer one that does. *)
Definition digitsAt (x : float) (num den n0 k : Z) : option Z :=
  let p := (n0 - k)%Z in
  let lo := scaledFloor num den p in
  let hi := (lo + 1)%Z in
  let okLo := PrimFloat.eqb (decimalToNumber false lo p) x in
  let okHi := PrimFloat.eqb (decimalToNumber false hi p) x in
  match okLo, okHi with
  | true, true =>
      match compareMid num den lo p with
      | Lt => Some lo
      | Gt => Some hi
      | Eq => Some (if Z.even lo then lo else hi)
      end
  | true, false => Some lo
  | false, true => Some hi
  | false, false => None
  end.

(** The shortest digits: try [k = 1, 2, ...]; seventeen always suffice. *)
Fixpoint shortestDigits (fuel : nat) (x : float) (num den n0 k : Z) : Z * Z :=
  match fuel with
  | O => (scaledFloor num den (n0 - k), k)
  | S fuel' =>
      match digitsAt x num den n0 k with
      | Some s => (s, k)
      | None => shortestDigits fuel' x num den n0 (k + 1)
      end
  end.

(** The text for digits [s] (as a string of [k] characters) and decimal
    exponent [n], as Number::toString lays it out. *)
Definition layoutNumber (ds : string) (k n : Z) : string :=
  if (k <=? n)%Z && (n <=? 21)%Z then
    ds +:+ zeros (Z.to_nat (n - k))
  else if (0 <? n)%Z && (n <=? 21)%Z then
    String.substring 0 (Z.to_nat n) ds +:+ "." +:+
    String.substring (Z.to_nat n) (Z.to_nat (k - n)) ds
  else if (-6 <? n)%Z && (n <=? 0)%Z then
    "0." +:+ zeros (Z.to_nat (- n)) +:+ ds
  else
    let e := (n - 1)%Z in
    let etxt := (if (e <? 0)%Z then "-" else "+") +:+ stringOfZ (Z.abs e) in
    if (k =? 1)%Z then ds +:+ "e" +:+ etxt
    else String.substring 0 1 ds +:+ "." +:+
         String.substring 1 (Z.to_nat (k - 1)) ds +:+ "e" +:+ etxt.

Definition numberToString (x : float) : string :=
  match Prim2SF x with
  | S754_nan => "NaN"
  | S754_zero _ => "0"
  | S754_infinity s => if s then "-Infinity" else "Infinity"
  | S754_finite sg m e =>
      let '(num, den) := fractionOf m e in
      let n0 := decimalExponent num den in
      let '(s, k) := shortestDigits 17 (PrimFloat.abs x) num den n0 1 in
      (* rounding up to a power of ten moves to the next decade *)
      let '(s, n) := if (s =? 10 ^ k)%Z then (10 ^ (k - 1), n0 + 1)%Z else (s, n0) in
      (if sg then "-" else "") +:+ layoutNumber (stringOfZ s) k n
  end.

(** *** Conversions and operators on values *)

Definition ToString (v : value) : string :=
  match v with
  | VUndefined => "undefined"
  | VNull => "null"
  | VBool b => if b then "true" else "false"
  | VNum x => numberToString x
  | VStr s => s
  end.

Definition ToNumber (v : value) : float :=
  match v with
  | VUndefined => PrimFloat.nan
  | VNull => PrimFloat.zero
  | VBool b => if b then PrimFloat.one else PrimFloat.zero
  | VNum x => x
  | VStr s => StringToNumber s
  end.

Definition ToBoolean (v : value) : bool :=
  match v with
  | VUndefined | VNull => false
  | VBool b => b
  | VNum x => negb (PrimFloat.eqb x PrimFloat.zero || PrimFloat.is_nan x)
  | VStr s => negb (String.eqb s "")
  end.

(** [typeof v === 'number'] and [typeof v === 'string'] *)
Definition isNumber (v : value) : bool :=
  match v with VNum _ => true | _ => false end.

Definition isString (v : value) : bool :=
  match v with VStr _ => true | _ => false end.

(** [v === w]. *)
Definition strictEq (v w : value) : bool :=
  match v, w with
  | VUndefined, VUndefined => true
  | VNull, VNull => true
  | VBool a, VBool b => Bool.eqb a b
  | VNum x, VNum y => PrimFloat.eqb x y
  | VStr s, VStr t => String.eqb s t
  | _, _ => false
  end.

(** [v + w]: concatenation as soon as one side is a string. *)
Definition add (v w : value) : value :=
  match v, w with
  | VStr _, _ | _, VStr _ => VStr (ToString v +:+ ToString w)
  | _, _ => VNum (ToNumber v + ToNumber w)
  end.

Definition Number_isInteger (v : value) : bool :=
  match v with
  | VNum x => isIntegerF x
  | _ => false
  end.

(** [parseFloat(v)]: the longest StrDecimalLiteral prefix of the trimmed
    text of [v]; NaN when there is none. *)
Definition parseFloat (v : value) : float :=
  match scanDecimal (trimStart (ToString v)) with
  | Some (x, _) => x
  | None => PrimFloat.nan
  end.

(** [parseInt(v, 10)]: sign and longest run of digits of the trimmed text. *)
Definition parseInt10 (v : value) : float :=
  let '(neg, s) := scanSign (trimStart (ToString v)) in
  let '(z, n, _) := scanDigits 0 0 s in
  if (n =? 0)%Z then PrimFloat.nan
  else decimalToNumber neg z 0.

(** *** Strings, dates and the console *)

(** [s.split('-')]. *)
Fixpoint splitDash (s : string) : list string :=
  match s with
  | EmptyString => [EmptyString]
  | String c r =>
      if Ascii.eqb c "-" then EmptyString :: splitDash r
      else match splitDash r with
           | h :: t => String c h :: t
           | [] => [String c EmptyString]
           end
  end.

(** [Number(parts[i])] after an array destructuring: a missing element is
    [undefined], which counts as NaN in arithmetic and equals no Number. *)
Definition numberAt (parts : list string) (i : nat) : float :=
  match parts !! i with
  | Some t => StringToNumber t
  | None => PrimFloat.nan
  end.

(** [/^\d{4}-\d{2}$/.test(s)]. *)
Definition isYearMonth (s : string) : bool :=
  match s with
  | String a (String b (String c (String d (String h (String e (String f EmptyString)))))) =>
      isDigit a && isDigit b && isDigit c && isDigit d && Ascii.eqb h "-"
      && isDigit e && isDigit f
  | _ => false
  end.

(** A Date built by [new Date(year, monthIndex)], as far as the program
    looks at one: the local calendar month it starts, counted in months from
    January of year 0.  [None] is the Invalid Date.  Time values reach from
    April -271821 to September 275760. *)
Abbreviation Date := (option Z).

Definition Date_new (year monthIndex : float) : Date :=
  match truncF year, truncF monthIndex with
  | Some y, Some m =>
      let y := if (0 <=? y)%Z && (y <=? 99)%Z then (1900 + y)%Z else y in
      let t := (y * 12 + m)%Z in
      if (-271821 * 12 + 4 <=? t)%Z && (t <=? 275760 * 12 + 8)%Z then Some t
      else None
  | _, _ => None
  end.

Definition Date_getFullYear (d : Date) : float :=
  match d with
  | Some t => Z2F (t / 12)
  | None => PrimFloat.nan
  end.

Definition Date_getMonth (d : Date) : float :=
  match d with
  | Some t => Z2F (t mod 12)
  | None => PrimFloat.nan
  end.

(** [a < b] on Dates compares their time values. *)
Definition Date_lt (a b : Date) : bool :=
  match a, b with
  | Some x, Some y => (x <? y)%Z
  | _, _ => false
  end.

(** What [console.warn] has printed. *)
Abbreviation console := (list string).

(** [Math.round]: the nearest integer, a tie going up; NaN, the infinities
    and the zeros are returned as they are, and a value in [-0.5, 0) gives
    [-0]. *)
Definition Math_round (x : float) : float :=
  match Prim2SF x with
  | S754_finite s m e =>
      match e with
      | Zneg p =>
          let q := (Zpos m / 2 ^ Zpos p)%Z in
          let twice := (2 * (Zpos m mod 2 ^ Zpos p))%Z in
          if s then
            let n := if (twice <=? 2 ^ Zpos p)%Z then q else (q + 1)%Z in
            if (n =? 0)%Z then PrimFloat.neg_zero else Z2F (- n)
          else
            Z2F (if (2 ^ Zpos p <=? twice)%Z then q + 1 else q)
      | _ => x
      end
  | _ => x
  end.

(** [s.endsWith(t)] *)
Definition endsWith (t s : string) : bool :=
  startsWith (String.rev t) (String.rev s).

(** The Number a numeric literal of the source denotes. *)
Definition lit (s : string) : float := StringToNumber s.

End JS.

(** ** validate.js *)

Module Validation.
Import JS.

(** An entry of the schema.  A bound or list that the entry does not have is
    [None] ([undefined] in the source). *)
Record Schema := {
  min : option float;
  max : option float;
  type : string;
  allowedValues : option (list string);
  error : string
}.

Definition ranged (lo hi : float) (ty err : string) : Schema :=
  {| min := Some lo; max := Some hi; type := ty; allowedValues := None; error := err |}.

(** [validationSchema], in the order of its keys. *)
Definition validationSchema : list (string * Schema) := [
  ("vehicleCount", ranged 1 10000 "integer"
     "Number of vehicles must be between 1 and 10,000");
  ("annualKmPerVehicle", ranged 1000 200000 "number"
     "Annual kilometers per vehicle must be between 1,000 and 200,000");
  ("fuelConsumptionLPer100km", ranged 5 50 "number"
     "Fuel consumption must be between 5 and 50 L/100km");
  ("fuelPricePerLitre", ranged 0.5 5 "number"
     "Fuel price must be between €0.50 and €5.00 per litre");
  ("baselineAccidentsPerYear", ranged 0 1000 "number"
     "Baseline accidents must be between 0 and 1,000 per year");
  ("avgAccidentCost", ranged 100 100000 "number"
     "Average accident cost must be between €100 and €100,000");
  ("annualInsurancePremium", ranged 1000 10000000 "number"
     "Annual insurance premium must be between €1,000 and €10,000,000");
  ("fuelSavingsPct", ranged 0 50 "number"
     "Fuel savings percentage must be between 0% and 50%");
  ("accidentReductionPct", ranged 0 100 "number"
     "Accident reduction percentage must be between 0% and 100%");
  ("insuranceReductionPct", ranged 0 50 "number"
     "Insurance reduction percentage must be between 0% and 50%");
  ("adoptionPct", ranged 0 100 "number"
     "Adoption percentage must be between 0% and 100%");
  ("hardwareCostPerVehicle", ranged 0 5000 "number"
     "Hardware cost per vehicle must be between €0 and €5,000");
  ("subscriptionPerVehiclePerMonth", ranged 0 200 "number"
     "Subscription cost must be between €0 and €200 per vehicle per month");
  ("implementationOneOff", ranged 0 50000 "number"
     "Implementation cost must be between €0 and €50,000");
  ("trainingOneOff", ranged 0 50000 "number"
     "Training cost must be between €0 and €50,000");
  ("timeHorizonYears", ranged 1 10 "integer"
     "Time horizon must be between 1 and 10 years");
  ("discountRatePct", ranged 0 20 "number"
     "Discount rate must be between 0% and 20%");
  ("currency",
     {| min := None; max := None; type := "string";
        allowedValues := Some ["EUR"; "USD"; "GBP"];
        error := "Currency must be EUR, USD, or GBP" |});
  ("startMonth",
     {| min := None; max := None; type := "date"; allowedValues := None;
        error := "Start month must be a valid date in YYYY-MM format" |});
  ("utilisationRampMonths", ranged 0 24 "integer"
     "Utilisation ramp must be between 0 and 24 months");
  ("resaleRecoveryPctHardware", ranged 0 100 "number"
     "Hardware resale recovery must be between 0% and 100%");
  ("maintenancePerVehiclePerYear", ranged 0 1000 "number"
     "Maintenance cost must be between €0 and €1,000 per vehicle per year")
].

(** [value === null || value === undefined || value === ''] *)
Definition isAbsent (v : value) : bool :=
  strictEq v VNull || strictEq v VUndefined || strictEq v (VStr "").

Definition coerceValue (v : value) (ty : string) : value :=
  if isAbsent v then VNull
  else if String.eqb ty "integer" then
    let intValue := parseInt10 v in
    if PrimFloat.is_nan intValue then VNull else VNum intValue
  else if String.eqb ty "number" then
    let numValue := parseFloat v in
    if PrimFloat.is_nan numValue then VNull else VNum numValue
  else if String.eqb ty "string" then VStr (ToString v)
  else if String.eqb ty "date" then
    match v with
    | VStr s =>
        if isYearMonth s then
          let parts := splitDash s in
          let year := numberAt parts 0 in
          let month := numberAt parts 1 in
          let date := Date_new year (month - 1) in
          if PrimFloat.eqb (Date_getFullYear date) year
             && PrimFloat.eqb (Date_getMonth date) (month - 1)
          then v else VNull
        else VNull
    | _ => VNull
    end
  else v.

(** [a.join(', ')] *)
Fixpoint join (l : list string) : string :=
  match l with
  | [] => EmptyString
  | [x] => x
  | x :: r => x +:+ ", " +:+ join r
  end.

(** [a.includes(v)]: only a string is the same value as a string. *)
Definition includes (l : list string) (v : value) : bool :=
  match v with
  | VStr s => existsb (String.eqb s) l
  | _ => false
  end.

(** [validateField]: the error message, or [None] for [null]. *)
Definition validateField (fieldName : string) (v : value) (schema : Schema)
  : option string :=
  if isAbsent v then Some (fieldName +:+ " is required")
  else if String.eqb (type schema) "integer" && negb (Number_isInteger v) then
    Some (fieldName +:+ " must be a whole number")
  else if String.eqb (type schema) "number" && negb (isNumber v) then
    Some (fieldName +:+ " must be a number")
  else if String.eqb (type schema) "string" && negb (isString v) then
    Some (fieldName +:+ " must be text")
  else
    let rangeError :=
      match v with
      | VNum x =>
          if match min schema with Some lo => (x <? lo)%float | None => false end
          then Some (fieldName +:+ " must be at least "
                       +:+ from_option numberToString "undefined" (min schema))
          else if match max schema with Some hi => (hi <? x)%float | None => false end
          then Some (fieldName +:+ " must be at most "
                       +:+ from_option numberToString "undefined" (max schema))
          else None
      | _ => None
      end in
    match rangeError with
    | Some e => Some e
    | None =>
        match allowedValues schema with
        | Some allowed =>
            if negb (includes allowed v) then
              Some (fieldName +:+ " must be one of: " +:+ join allowed)
            else None
        | None => None
        end
    end.

Record ValidationResult := {
  isValid : bool;
  errors : gmap string string;
  coercedInputs : obj
}.

(** [validateCrossFields]: the cross-field errors and what it printed.
    [now] is the month [new Date()] falls in. *)
Definition validateCrossFields (now : Date) (inputs : obj)
  : res (gmap string string * console) :=
  let errors : gmap string string :=
    if (ToNumber (get inputs "timeHorizonYears") * 12
          <? ToNumber (get inputs "utilisationRampMonths"))%float
    then {["utilisationRampMonths" := "Utilisation ramp cannot exceed the time horizon"]}
    else ∅ in
  if ToBoolean (get inputs "startMonth") then
    match get inputs "startMonth" with
    | VStr s =>
        let parts := splitDash s in
        let year := numberAt parts 0 in
        let month := numberAt parts 1 in
        let startDate := Date_new year (month - 1) in
        let currentMonth := Date_new (Date_getFullYear now) (Date_getMonth now) in
        if Date_lt startDate currentMonth then
          Ok (errors, ["Start month is in the past. Savings will be calculated from the specified month."])
        else Ok (errors, [])
    | _ => Throw "TypeError: inputs.startMonth.split is not a function"
    end
  else Ok (errors, []).

(** One turn of the loop of [validateInputs], on the three variables it
    updates. *)
Definition fieldStep (rawInputs : obj) (st : ValidationResult)
    (entry : string * Schema) : ValidationResult :=
  let '(fieldName, schema) := entry in
  let rawValue := get rawInputs fieldName in
  let coercedValue := coerceValue rawValue (type schema) in
  let coerced := <[fieldName := coercedValue]> (coercedInputs st) in
  match validateField fieldName coercedValue schema with
  | Some e =>
      if negb (String.eqb e "") then
        {| isValid := false; errors := <[fieldName := e]> (errors st);
           coercedInputs := coerced |}
      else
        {| isValid := isValid st; errors := errors st; coercedInputs := coerced |}
  | None =>
      {| isValid := isValid st; errors := errors st; coercedInputs := coerced |}
  end.

(** The [for] loop of [validateInputs] over the entries of the schema. *)
Definition fieldLoop (rawInputs : obj) : ValidationResult :=
  fold_left (fieldStep rawInputs) validationSchema
    {| isValid := true; errors := ∅; coercedInputs := ∅ |}.

(** What [validateInputs] does after the loop, [st] being the three
    variables as the loop leaves them. *)
Definition crossCheck (now : Date) (st : ValidationResult)
  : res (ValidationResult * console) :=
  '(crossFieldErrors, out) ← validateCrossFields now (coercedInputs st);
  mret ({| isValid := if (0 <? size crossFieldErrors)%nat then false else isValid st;
           errors := crossFieldErrors ∪ errors st;
           coercedInputs := coercedInputs st |}, out).

Definition validateInputs (now : Date) (rawInputs : obj)
  : res (ValidationResult * console) :=
  crossCheck now (fieldLoop rawInputs).

(** [canCalculate] *)
Definition canCalculate (now : Date) (inputs : obj) : res bool :=
  '(validation, _) ← validateInputs now inputs;
  mret (isValid validation).

(** What [getValidationSummary] returns. *)
Module Summary.
Record t := {
  isValid : bool;
  errorCount : nat;
  errors : gmap string string;
  hasWarnings : bool;
  summary : string
}.
End Summary.

(** [getValidationSummary]; [Object.keys(errors).length] is the number of
    entries of [errors]. *)
Definition getValidationSummary (now : Date) (inputs : obj)
  : res (Summary.t * console) :=
  '(validation, out) ← validateInputs now inputs;
  mret ({| Summary.isValid := isValid validation;
           Summary.errorCount := size (errors validation);
           Summary.errors := errors validation;
           Summary.hasWarnings := false;
           Summary.summary :=
             if isValid validation then "All inputs are valid"
             else numberToString (Z2F (Z.of_nat (size (errors validation))))
                  +:+ " input(s) need attention" |}, out).

End Validation.

(** ** formulas.js: the full engine *)

Module Formulas.
Import JS.
#[local] Open Scope float_scope.

(** An arithmetic operator other than [+] converts its operands with
    ToNumber; [# v] writes that conversion. *)
Notation "# v" := (ToNumber v) (at level 9, v at level 9, format "# v").

Definition calculateBaselineFuelCost (inputs : obj) : float :=
  let vehicleCount := get inputs "vehicleCount" in
  let annualKmPerVehicle := get inputs "annualKmPerVehicle" in
  let fuelConsumptionLPer100km := get inputs "fuelConsumptionLPer100km" in
  let fuelPricePerLitre := get inputs "fuelPricePerLitre" in
  let baselineLitres :=
    #vehicleCount * #annualKmPerVehicle * (#fuelConsumptionLPer100km / 100) in
  baselineLitres * #fuelPricePerLitre.

Definition calculateFuelSavings (inputs : obj) (baselineFuelCost : float) : float :=
  let fuelSavingsPct := get inputs "fuelSavingsPct" in
  let adoptionPct := get inputs "adoptionPct" in
  baselineFuelCost * (#fuelSavingsPct / 100) * (#adoptionPct / 100).

Definition calculateAccidentSavings (inputs : obj) : float :=
  let baselineAccidentsPerYear := get inputs "baselineAccidentsPerYear" in
  let accidentReductionPct := get inputs "accidentReductionPct" in
  let adoptionPct := get inputs "adoptionPct" in
  let avgAccidentCost := get inputs "avgAccidentCost" in
  let accidentsAvoided :=
    #baselineAccidentsPerYear * (#accidentReductionPct / 100) * (#adoptionPct / 100) in
  accidentsAvoided * #avgAccidentCost.

Definition calculateInsuranceSavings (inputs : obj) : float :=
  let annualInsurancePremium := get inputs "annualInsurancePremium" in
  let insuranceReductionPct := get inputs "insuranceReductionPct" in
  let adoptionPct := get inputs "adoptionPct" in
  #annualInsurancePremium * (#insuranceReductionPct / 100) * (#adoptionPct / 100).

Definition calculateTotalSavings (fuelSavings accidentSavings insuranceSavings : float)
  : float :=
  fuelSavings + accidentSavings + insuranceSavings.

(** The object [calculateProgramCosts] returns.  [oneOff] is the [+] of two
    input fields, a string as soon as one of them is. *)
Record ProgramCosts := {
  capexHardware : float;
  opexSubscriptionAnnual : float;
  oneOff : value;
  maintenanceAnnual : float
}.

Definition calculateProgramCosts (inputs : obj) : ProgramCosts :=
  let vehicleCount := get inputs "vehicleCount" in
  let hardwareCostPerVehicle := get inputs "hardwareCostPerVehicle" in
  let subscriptionPerVehiclePerMonth := get inputs "subscriptionPerVehiclePerMonth" in
  let implementationOneOff := get inputs "implementationOneOff" in
  let trainingOneOff := get inputs "trainingOneOff" in
  let maintenancePerVehiclePerYear := get inputs "maintenancePerVehiclePerYear" in
  {| capexHardware := #vehicleCount * #hardwareCostPerVehicle;
     opexSubscriptionAnnual := #vehicleCount * #subscriptionPerVehiclePerMonth * 12;
     oneOff := add implementationOneOff trainingOneOff;
     maintenanceAnnual := #vehicleCount * #maintenancePerVehiclePerYear |}.

Record Timeline := {
  months : list float;
  savingsMonthly : list float;
  costsMonthly : list value;
  netMonthly : list float;
  cumNetMonthly : list float
}.

(** The variables the loop of [calculateTimeline] updates. *)
Record LoopState := {
  arrays : Timeline;
  cumulativeNet : float
}.

(** The timeline is written over the division it uses, [divide], which the
    program takes to be the division of Numbers (see [calculateTimeline]
    below): what the timeline owes to a division by zero can then be
    stated. *)
Section TimelineWith.
Variable divide : float -> float -> float.
#[local] Set Warnings "-notation-overridden".
#[local] Notation "x / y" := (divide x y) : float_scope.

Definition rampFactorWith (utilisationRampMonths : value) (i : float) : float :=
  if i <? #utilisationRampMonths then (i + 1) / #utilisationRampMonths else 1.

(** The body of the loop at index [i]. *)
Definition timelineIterationWith (inputs : obj) (totalSavingsAnnual : float)
    (costs : ProgramCosts) (totalMonths : float) (i : float) (st : LoopState)
  : LoopState :=
  let utilisationRampMonths := get inputs "utilisationRampMonths" in
  let resaleRecoveryPctHardware := get inputs "resaleRecoveryPctHardware" in
  let rampFactor := rampFactorWith utilisationRampMonths i in
  let monthlySavings := (totalSavingsAnnual / 12) * rampFactor in
  let monthlyCosts :=
    VNum (opexSubscriptionAnnual costs / 12 + maintenanceAnnual costs / 12) in
  let monthlyCosts :=
    if i =? 0 then add monthlyCosts (add (VNum (capexHardware costs)) (oneOff costs))
    else monthlyCosts in
  let monthlyCosts :=
    if (i =? totalMonths - 1) && (0 <? #resaleRecoveryPctHardware) then
      VNum (#monthlyCosts - capexHardware costs * (#resaleRecoveryPctHardware / 100))
    else monthlyCosts in
  let netFlow := monthlySavings - #monthlyCosts in
  let cumulativeNet := cumulativeNet st + netFlow in
  let t := arrays st in
  {| arrays :=
       {| months := months t ++ [i + 1];
          savingsMonthly := savingsMonthly t ++ [monthlySavings];
          costsMonthly := costsMonthly t ++ [monthlyCosts];
          netMonthly := netMonthly t ++ [netFlow];
          cumNetMonthly := cumNetMonthly t ++ [cumulativeNet] |};
     cumulativeNet := cumulativeNet |}.

(** [for (let i = ...; i < totalMonths; i++)], from the given [i] on. *)
Fixpoint timelineLoopWith (fuel : nat) (inputs : obj) (totalSavingsAnnual : float)
    (costs : ProgramCosts) (totalMonths : float) (i : float) (st : LoopState)
  : res LoopState :=
  if i <? totalMonths then
    match fuel with
    | O => OutOfFuel
    | S fuel' =>
        timelineLoopWith fuel' inputs totalSavingsAnnual costs totalMonths (i + 1)
          (timelineIterationWith inputs totalSavingsAnnual costs totalMonths i st)
    end
  else Ok st.

Definition emptyTimeline : Timeline :=
  {| months := []; savingsMonthly := []; costsMonthly := [];
     netMonthly := []; cumNetMonthly := [] |}.

(** [startMonth.split('-')] throws unless [startMonth] is a string; the two
    Dates made from it are never read afterwards. *)
Definition calculateTimelineWith (fuel : nat) (inputs : obj)
    (totalSavingsAnnual : float) (costs : ProgramCosts) : res Timeline :=
  let timeHorizonYears := get inputs "timeHorizonYears" in
  let startMonth := get inputs "startMonth" in
  let totalMonths := #timeHorizonYears * 12 in
  match startMonth with
  | VStr _ =>
      st ← timelineLoopWith fuel inputs totalSavingsAnnual costs totalMonths 0
             {| arrays := emptyTimeline; cumulativeNet := 0 |};
      mret (arrays st)
  | VUndefined | VNull =>
      Throw "TypeError: Cannot read properties of undefined (reading 'split')"
  | _ => Throw "TypeError: startMonth.split is not a function"
  end.

End TimelineWith.

(** [calculateTimeline], with the division of Numbers. *)
Definition rampFactorAt := rampFactorWith PrimFloat.div.
Definition timelineIteration := timelineIterationWith PrimFloat.div.
Definition timelineLoop := timelineLoopWith PrimFloat.div.
Definition calculateTimeline := calculateTimelineWith PrimFloat.div.

(** The loop of [calculatePayback] from index [i] on, [rest] being the
    elements from [i] on: at the end of the array [i] is its length.  The
    result is an array index plus one or an array length, a natural number. *)
Fixpoint paybackFrom (i : nat) (rest : list float) : nat :=
  match rest with
  | [] => i
  | x :: rest' => if 0 <=? x then (i + 1)%nat else paybackFrom (i + 1)%nat rest'
  end.

Definition calculatePayback (cumNetMonthly : list float) : nat :=
  paybackFrom 0 cumNetMonthly.

Definition calculateSimpleROI (totalSavings : float) (totalCosts : value) : float :=
  if strictEq totalCosts (VNum 0) then 0
  else ((totalSavings - #totalCosts) / #totalCosts) * 100.

(** The object [calculateROI] returns; [costs] stands for the four
    properties spread from the program costs. *)
Record CalculationOutputs := {
  baselineFuelCost : float;
  fuelSavingsAnnual : float;
  accidentSavingsAnnual : float;
  insuranceSavingsAnnual : float;
  totalSavingsAnnual : float;
  costs : ProgramCosts;
  timeline : Timeline;
  paybackMonths : nat;
  roiSimplePct : float
}.

(** The total costs over the horizon, as [calculateROI] sums them. *)
Definition totalCostsOf (inputs : obj) (costs : ProgramCosts) : value :=
  add (add (VNum (capexHardware costs)) (oneOff costs))
      (VNum ((opexSubscriptionAnnual costs + maintenanceAnnual costs)
             * #(get inputs "timeHorizonYears"))).

Definition calculateROI (fuel : nat) (inputs : obj) : res CalculationOutputs :=
  let baselineFuelCost := calculateBaselineFuelCost inputs in
  let fuelSavingsAnnual := calculateFuelSavings inputs baselineFuelCost in
  let accidentSavingsAnnual := calculateAccidentSavings inputs in
  let insuranceSavingsAnnual := calculateInsuranceSavings inputs in
  let totalSavingsAnnual :=
    calculateTotalSavings fuelSavingsAnnual accidentSavingsAnnual insuranceSavingsAnnual in
  let costs := calculateProgramCosts inputs in
  timeline ← calculateTimeline fuel inputs totalSavingsAnnual costs;
  let paybackMonths := calculatePayback (cumNetMonthly timeline) in
  let totalCosts := totalCostsOf inputs costs in
  let totalSavings := totalSavingsAnnual * #(get inputs "timeHorizonYears") in
  let roiSimplePct := calculateSimpleROI totalSavings totalCosts in
  mret {| baselineFuelCost := baselineFuelCost;
          fuelSavingsAnnual := fuelSavingsAnnual;
          accidentSavingsAnnual := accidentSavingsAnnual;
          insuranceSavingsAnnual := insuranceSavingsAnnual;
          totalSavingsAnnual := totalSavingsAnnual;
          costs := costs;
          timeline := timeline;
          paybackMonths := paybackMonths;
          roiSimplePct := roiSimplePct |}.

(** *** applyScenario, on a heap of objects *)

(** Objects live in a heap and are passed by reference, so that a write to
    the argument would be seen by the caller. *)
Abbreviation loc := positive.
Abbreviation heap := (gmap loc obj).

(** [{ ...inputs }]: a new object with the own properties of [src]. *)
Definition spread (src : loc) (h : heap) : option (loc * heap) :=
  o ← h !! src;
  let l := fresh (dom h) in
  Some (l, <[l := o]> h).

(** [target.field *= k] *)
Definition mulAssign (target : loc) (field : string) (k : float) (h : heap) : heap :=
  alter (fun o => <[field := VNum (#(get o field) * k)]> o) target h.

Definition applyScenario (inputs : loc) (scenario : value) (h : heap)
  : option (loc * heap) :=
  '(modifiedInputs, h) ← spread inputs h;
  let h :=
    if strictEq scenario (VStr "conservative") then
      mulAssign modifiedInputs "insuranceReductionPct" 0.75
        (mulAssign modifiedInputs "accidentReductionPct" 0.75
           (mulAssign modifiedInputs "fuelSavingsPct" 0.75 h))
    else if strictEq scenario (VStr "aggressive") then
      mulAssign modifiedInputs "insuranceReductionPct" 1.25
        (mulAssign modifiedInputs "accidentReductionPct" 1.25
           (mulAssign modifiedInputs "fuelSavingsPct" 1.25 h))
    else h in
  Some (modifiedInputs, h).

End Formulas.

(** ** simple-state.js: the defaults of the straight-line engine *)

Module SimpleState.
Import JS.

Definition defaultInputs : obj :=
  list_to_map [
    ("vehicleCount", VNum 50);
    ("annualKmPerVehicle", VNum 45000);
    ("fuelConsumptionLPer100km", VNum 10.5);
    ("fuelPricePerLitre", VNum (lit "1.90"));
    ("baselineAccidentsPerYear", VNum 12);
    ("avgAccidentCost", VNum 6500);
    ("annualInsurancePremium", VNum 120000);
    ("fuelSavingsPct", VNum 6);
    ("accidentReductionPct", VNum 30);
    ("insuranceReductionPct", VNum 8);
    ("adoptionPct", VNum 90);
    ("hardwareCostPerVehicle", VNum 350);
    ("subscriptionPerVehiclePerMonth", VNum 35);
    ("implementationOneOff", VNum 2500);
    ("trainingOneOff", VNum 1500);
    ("timeHorizonYears", VNum 3);
    ("discountRatePct", VNum 8);
    ("currency", VStr "EUR")
  ].

End SimpleState.

(** ** simple-formulas.js: the straight-line engine *)

Module SimpleFormulas.
Import JS.
#[local] Open Scope float_scope.
Import Formulas (mulAssign, spread, loc, heap).
Notation "# v" := (ToNumber v) (at level 9, v at level 9, format "# v").

Record Results := {
  paybackMonths : float;
  roiSimplePct : float;
  totalSavingsAnnual : float
}.

Definition calculateROI (inputs : obj) : Results :=
  let baselineFuelCost :=
    #(get inputs "vehicleCount") * #(get inputs "annualKmPerVehicle")
    * (#(get inputs "fuelConsumptionLPer100km") / 100)
    * #(get inputs "fuelPricePerLitre") in
  let fuelSavings :=
    baselineFuelCost * (#(get inputs "fuelSavingsPct") / 100)
    * (#(get inputs "adoptionPct") / 100) in
  let accidentSavings :=
    #(get inputs "baselineAccidentsPerYear") * (#(get inputs "accidentReductionPct") / 100)
    * (#(get inputs "adoptionPct") / 100) * #(get inputs "avgAccidentCost") in
  let insuranceSavings :=
    #(get inputs "annualInsurancePremium") * (#(get inputs "insuranceReductionPct") / 100)
    * (#(get inputs "adoptionPct") / 100) in
  let totalSavingsAnnual := fuelSavings + accidentSavings + insuranceSavings in
  let hardwareCosts := #(get inputs "vehicleCount") * #(get inputs "hardwareCostPerVehicle") in
  let subscriptionAnnual :=
    #(get inputs "vehicleCount") * #(get inputs "subscriptionPerVehiclePerMonth") * 12 in
  let oneOffCosts := add (get inputs "implementationOneOff") (get inputs "trainingOneOff") in
  let monthlySavings := totalSavingsAnnual / 12 in
  let monthlyCosts := subscriptionAnnual / 12 in
  let netMonthlySavings := monthlySavings - monthlyCosts in
  let initialCosts := add (VNum hardwareCosts) oneOffCosts in
  let paybackMonths := Math_ceil (#initialCosts / netMonthlySavings) in
  let totalCosts :=
    add (add (VNum hardwareCosts) oneOffCosts)
        (VNum (subscriptionAnnual * #(get inputs "timeHorizonYears"))) in
  let totalSavings := totalSavingsAnnual * #(get inputs "timeHorizonYears") in
  let roiSimplePct := ((totalSavings - #totalCosts) / #totalCosts) * 100 in
  {| paybackMonths := paybackMonths;
     roiSimplePct := roiSimplePct;
     totalSavingsAnnual := totalSavingsAnnual |}.

(** The same adjuster as in formulas.js, its [switch] without a ['base']
    label. *)
Definition applyScenario (inputs : loc) (scenario : value) (h : heap)
  : option (loc * heap) :=
  '(adjusted, h) ← spread inputs h;
  let h :=
    if strictEq scenario (VStr "conservative") then
      mulAssign adjusted "insuranceReductionPct" 0.75
        (mulAssign adjusted "accidentReductionPct" 0.75
           (mulAssign adjusted "fuelSavingsPct" 0.75 h))
    else if strictEq scenario (VStr "aggressive") then
      mulAssign adjusted "insuranceReductionPct" 1.25
        (mulAssign adjusted "accidentReductionPct" 1.25
           (mulAssign adjusted "fuelSavingsPct" 1.25 h))
    else h in
  Some (adjusted, h).

End SimpleFormulas.

(** ** src/simple-calc.js: the current, leanest engine (no hardware) *)

Module SimpleCalc.
Import JS.
#[local] Open Scope float_scope.
Notation "# v" := (ToNumber v) (at level 9, v at level 9, format "# v").

Definition defaults : obj :=
  list_to_map [
    ("vehicleCount", VNum 50);
    ("annualKmPerVehicle", VNum 45000);
    ("fuelConsumptionLPer100km", VNum 10.5);
    ("fuelPricePerLitre", VNum (lit "1.90"));
    ("baselineAccidentsPerYear", VNum 12);
    ("avgAccidentCost", VNum 6500);
    ("annualInsurancePremium", VNum 120000);
    ("fuelSavingsPct", VNum 6);
    ("accidentReductionPct", VNum 30);
    ("insuranceReductionPct", VNum 8);
    ("adoptionPct", VNum 90);
    ("subscriptionPerVehiclePerMonth", VNum 35);
    ("implementationOneOff", VNum 2500);
    ("trainingOneOff", VNum 1500);
    ("timeHorizonYears", VNum 3);
    ("currency", VStr "EUR")
  ].

(** [paybackMonths] is a Number or [null]. *)
Record Results := {
  totalSavingsAnnual : float;
  subscriptionAnnual : float;
  roiSimplePct : float;
  paybackMonths : value
}.

Definition calculate (inputs : obj) : Results :=
  (* { ...defaults, ...inputs } *)
  let data : obj := inputs ∪ defaults in
  let baselineLitres :=
    #(get data "vehicleCount") * #(get data "annualKmPerVehicle")
    * (#(get data "fuelConsumptionLPer100km") / 100) in
  let baselineFuelCost := baselineLitres * #(get data "fuelPricePerLitre") in
  let fuelSavings :=
    baselineFuelCost * (#(get data "fuelSavingsPct") / 100)
    * (#(get data "adoptionPct") / 100) in
  let accidentSavings :=
    #(get data "baselineAccidentsPerYear") * (#(get data "accidentReductionPct") / 100)
    * (#(get data "adoptionPct") / 100) * #(get data "avgAccidentCost") in
  let insuranceSavings :=
    #(get data "annualInsurancePremium") * (#(get data "insuranceReductionPct") / 100)
    * (#(get data "adoptionPct") / 100) in
  let totalSavingsAnnual := fuelSavings + accidentSavings + insuranceSavings in
  let subscriptionAnnual :=
    #(get data "vehicleCount") * #(get data "subscriptionPerVehiclePerMonth") * 12 in
  let oneOffCosts := add (get data "implementationOneOff") (get data "trainingOneOff") in
  let totalCosts :=
    add oneOffCosts (VNum (subscriptionAnnual * #(get data "timeHorizonYears"))) in
  let totalSavings := totalSavingsAnnual * #(get data "timeHorizonYears") in
  let roi := ((totalSavings - #totalCosts) / #totalCosts) * 100 in
  let monthlySavings := totalSavingsAnnual / 12 in
  let monthlyCosts := subscriptionAnnual / 12 in
  let netMonthly := monthlySavings - monthlyCosts in
  let paybackMonths :=
    if 0 <? netMonthly then VNum (Math_ceil (#oneOffCosts / netMonthly)) else VNull in
  {| totalSavingsAnnual := totalSavingsAnnual;
     subscriptionAnnual := subscriptionAnnual;
     roiSimplePct := roi;
     paybackMonths := paybackMonths |}.

(** *** The page: reading the form and displaying the results *)

(** An element of the page, as far as the script reads and writes it: its
    [value] ([undefined] where the element has none), its text and the
    [display] property of its style. *)
Module Element.
Record t := { value : JS.value; textContent : string; display : string }.
End Element.

(** The page: its elements by id. *)
Abbreviation Page := (gmap string Element.t).

(** The fields [getInputs] looks up. *)
Definition fields : list string :=
  ["vehicleCount"; "annualKmPerVehicle"; "fuelConsumptionLPer100km"; "fuelPricePerLitre";
   "baselineAccidentsPerYear"; "avgAccidentCost"; "annualInsurancePremium";
   "fuelSavingsPct"; "accidentReductionPct"; "insuranceReductionPct"; "adoptionPct";
   "subscriptionPerVehiclePerMonth"; "implementationOneOff"; "trainingOneOff";
   "timeHorizonYears"].

(** What the body of [fields.forEach] does for one field. *)
Definition readField (document : Page) (inputs : obj) (field : string) : obj :=
  match document !! field with
  | Some element =>
      let value := parseFloat (Element.value element) in
      <[field := if PrimFloat.is_nan value then get defaults field else VNum value]> inputs
  | None => inputs
  end.

Definition getInputs (document : Page) : obj :=
  let inputs : obj := foldl (readField document) ∅ fields in
  match document !! "currency" with
  | Some currencyElement =>
      <["currency" := if ToBoolean (Element.value currencyElement)
                      then Element.value currencyElement else VStr "EUR"]> inputs
  | None => inputs
  end.

(** [element.textContent = text] and [element.style.display = d], when the
    element with that id exists. *)
Definition setText (id : string) (text : string) (document : Page) : Page :=
  alter (fun element =>
           {| Element.value := Element.value element;
              Element.textContent := text;
              Element.display := Element.display element |}) id document.

Definition setDisplay (id : string) (d : string) (document : Page) : Page :=
  alter (fun element =>
           {| Element.value := Element.value element;
              Element.textContent := Element.textContent element;
              Element.display := d |}) id document.

Section Display.
(** [Number.prototype.toLocaleString] depends on the locale of the host. *)
Variable toLocaleString : float -> string.

(** [formatCurrency(value, currency = 'EUR')] *)
Definition formatCurrency (value : float) (currency : JS.value) : string :=
  let currency := if strictEq currency VUndefined then VStr "EUR" else currency in
  let symbol :=
    if strictEq currency (VStr "USD") then "$"
    else if strictEq currency (VStr "GBP") then "£" else "€" in
  symbol +:+ toLocaleString (Math_round value).

Definition updateResults (document : Page) : Page :=
  let inputs := getInputs document in
  let results := calculate inputs in
  let document :=
    setDisplay "accidentReductionWarning"
      (if 80 <? #(get inputs "accidentReductionPct") then "block" else "none") document in
  let document :=
    setText "paybackValue"
      (if strictEq (paybackMonths results) VNull then "Never"
       else ToString (if ToBoolean (paybackMonths results)
                      then paybackMonths results else VStr "-")) document in
  let document :=
    setText "roiValue"
      (if ToBoolean (VNum (roiSimplePct results)) && (0 <=? roiSimplePct results)
       then numberToString (Math_round (roiSimplePct results)) +:+ "%"
       else if roiSimplePct results <? 0 then "No ROI" else "-") document in
  let document :=
    setText "annualSavingsValue"
      (formatCurrency (totalSavingsAnnual results) (get inputs "currency")) document in
  let document :=
    setText "annualCostValue"
      (formatCurrency (subscriptionAnnual results) (get inputs "currency")) document in
  let symbol :=
    if strictEq (get inputs "currency") (VStr "USD") then "$"
    else if strictEq (get inputs "currency") (VStr "GBP") then "£" else "€" in
  map_imap (fun id element =>
              Some (if endsWith "Unit" id then
                      {| Element.value := Element.value element;
                         Element.textContent := symbol;
                         Element.display := Element.display element |}
                    else element)) document.

End Display.

End SimpleCalc.

(** ** backup/src-complex/simple-calc.js: the earlier simple engine *)

Module SimpleCalcBackup.
Import JS.
#[local] Open Scope float_scope.
Notation "# v" := (ToNumber v) (at level 9, v at level 9, format "# v").

Definition defaults : obj :=
  list_to_map [
    ("vehicleCount", VNum 50);
    ("annualKmPerVehicle", VNum 45000);
    ("fuelConsumptionLPer100km", VNum 10.5);
    ("fuelPricePerLitre", VNum (lit "1.90"));
    ("baselineAccidentsPerYear", VNum 12);
    ("avgAccidentCost", VNum 6500);
    ("annualInsurancePremium", VNum 120000);
    ("fuelSavingsPct", VNum 6);
    ("accidentReductionPct", VNum 30);
    ("insuranceReductionPct", VNum 8);
    ("adoptionPct", VNum 90);
    ("hardwareCostPerVehicle", VNum 350);
    ("subscriptionPerVehiclePerMonth", VNum 35);
    ("implementationOneOff", VNum 2500);
    ("trainingOneOff", VNum 1500);
    ("timeHorizonYears", VNum 3);
    ("currency", VStr "EUR")
  ].

Record Results := {
  totalSavingsAnnual : float;
  roiSimplePct : float;
  paybackMonths : float
}.

Definition calculate (inputs : obj) : Results :=
  let data : obj := inputs ∪ defaults in
  let baselineLitres :=
    #(get data "vehicleCount") * #(get data "annualKmPerVehicle")
    * (#(get data "fuelConsumptionLPer100km") / 100) in
  let baselineFuelCost := baselineLitres * #(get data "fuelPricePerLitre") in
  let fuelSavings :=
    baselineFuelCost * (#(get data "fuelSavingsPct") / 100)
    * (#(get data "adoptionPct") / 100) in
  let accidentSavings :=
    #(get data "baselineAccidentsPerYear") * (#(get data "accidentReductionPct") / 100)
    * (#(get data "adoptionPct") / 100) * #(get data "avgAccidentCost") in
  let insuranceSavings :=
    #(get data "annualInsurancePremium") * (#(get data "insuranceReductionPct") / 100)
    * (#(get data "adoptionPct") / 100) in
  let totalSavingsAnnual := fuelSavings + accidentSavings + insuranceSavings in
  let hardwareCost := #(get data "vehicleCount") * #(get data "hardwareCostPerVehicle") in
  let subscriptionAnnual :=
    #(get data "vehicleCount") * #(get data "subscriptionPerVehiclePerMonth") * 12 in
  let oneOffCosts := add (get data "implementationOneOff") (get data "trainingOneOff") in
  let totalCosts :=
    add (add (VNum hardwareCost) oneOffCosts)
        (VNum (subscriptionAnnual * #(get data "timeHorizonYears"))) in
  let totalSavings := totalSavingsAnnual * #(get data "timeHorizonYears") in
  let roi := ((totalSavings - #totalCosts) / #totalCosts) * 100 in
  let monthlySavings := totalSavingsAnnual / 12 in
  let monthlyCosts := subscriptionAnnual / 12 in
  let netMonthly := monthlySavings - monthlyCosts in
  let paybackMonths := Math_ceil (#(add (VNum hardwareCost) oneOffCosts) / netMonthly) in
  {| totalSavingsAnnual := totalSavingsAnnual;
     roiSimplePct := roi;
     paybackMonths := paybackMonths |}.

(** *** Reading the form *)

(** The fields [getInputs] looks up. *)
Definition fields : list string :=
  ["vehicleCount"; "annualKmPerVehicle"; "fuelConsumptionLPer100km"; "fuelPricePerLitre";
   "baselineAccidentsPerYear"; "avgAccidentCost"; "annualInsurancePremium";
   "fuelSavingsPct"; "accidentReductionPct"; "insuranceReductionPct"; "adoptionPct";
   "hardwareCostPerVehicle"; "subscriptionPerVehiclePerMonth"; "implementationOneOff";
   "trainingOneOff"; "timeHorizonYears"].

(** What the body of [fields.forEach] does for one field:
    [parseFloat(element.value) || defaults[field]]. *)
Definition readField (document : SimpleCalc.Page) (inputs : obj) (field : string) : obj :=
  match document !! field with
  | Some element =>
      let value := VNum (parseFloat (SimpleCalc.Element.value element)) in
      <[field := if ToBoolean value then value else get defaults field]> inputs
  | None => inputs
  end.

Definition getInputs (document : SimpleCalc.Page) : obj :=
  let inputs : obj := foldl (readField document) ∅ fields in
  match document !! "currency" with
  | Some currencyElement =>
      <["currency" := if ToBoolean (SimpleCalc.Element.value currencyElement)
                      then SimpleCalc.Element.value currencyElement
                      else VStr "EUR"]> inputs
  | None => inputs
  end.

End SimpleCalcBackup.

(** ** ui.js: the controller of the full calculator

    (kept in backup/src-complex/simple-calc.js).  The controller reads the
    form, validates, adjusts for the scenario, calculates and displays.  Its
    display methods are recorded as the calls made, in order; they are taken
    to return. *)

Module Ui.
Import JS Validation Formulas.

(** A form control: its [type] attribute and its current [value]. *)
Module Element.
Record t := { type : string; value : string }.
End Element.

(** The fields of the controller that the calculation reads or writes;
    [inputElements] holds the controls that exist, by field name. *)
Record UIController := {
  inputElements : gmap string Element.t;
  currentInputs : obj;
  currentResults : option CalculationOutputs;
  currentScenario : value;
  isCalculating : bool
}.

(** The calls of display methods. *)
Inductive Call :=
| showValidationErrors (errors : gmap string string)
| clearValidationErrors
| updateKPI (results : CalculationOutputs)
| updateCharts (results : CalculationOutputs)
| updateCurrencyDisplay (currency : value)
| showCalculationError (error : string).

(** [updateInputsFromDOM]: a control of type [number] gives
    [parseFloat(element.value) || 0], any other its text. *)
Definition updateInputsFromDOM (this : UIController) : UIController :=
  let inputs : obj :=
    (fun element =>
       if String.eqb (Element.type element) "number" then
         let x := VNum (parseFloat (VStr (Element.value element))) in
         if ToBoolean x then x else VNum 0
       else VStr (Element.value element)) <$> inputElements this in
  {| inputElements := inputElements this;
     currentInputs := inputs;
     currentResults := currentResults this;
     currentScenario := currentScenario this;
     isCalculating := isCalculating this |}.

(** [applyScenario(validation.coercedInputs, scenario)]: the coerced record
    is an object of the heap, and the object returned is read back. *)
Definition scenarioInputsOf (coercedInputs : obj) (scenario : value) : option obj :=
  '(l, h) ← applyScenario 1%positive scenario {[1%positive := coercedInputs]};
  h !! l.

(** How [performCalculation] leaves the controller: [finally] clears the
    flag. *)
Definition finish (this : UIController) (results : option CalculationOutputs)
  : UIController :=
  {| inputElements := inputElements this;
     currentInputs := currentInputs this;
     currentResults := results;
     currentScenario := currentScenario this;
     isCalculating := false |}.

(** [performCalculation]: the controller afterwards, the display calls made
    and what was printed.  An exception in the [try] block is caught, printed
    and shown. *)
Definition performCalculation (now : Date) (fuel : nat) (this : UIController)
  : res (UIController * list Call * console) :=
  if isCalculating this then mret (this, [], [])
  else
    let failed (calls : list Call) (out : console) (e : string) :=
      mret (finish this (currentResults this),
            calls ++ [showCalculationError e],
            out ++ ["Calculation error: " +:+ e; "Calculation failed: " +:+ e]) in
    match validateInputs now (currentInputs this) with
    | Ok (validation, out) =>
        if negb (isValid validation) then
          mret (finish this (currentResults this),
                [showValidationErrors (errors validation)], out)
        else
          match scenarioInputsOf (coercedInputs validation) (currentScenario this) with
          | Some scenarioInputs =>
              match calculateROI fuel scenarioInputs with
              | Ok results =>
                  mret (finish this (Some results),
                        [clearValidationErrors; updateKPI results; updateCharts results;
                         updateCurrencyDisplay (get scenarioInputs "currency")], out)
              | Throw e => failed [clearValidationErrors] out e
              | OutOfFuel => OutOfFuel
              end
          | None => failed [clearValidationErrors] out "TypeError"
          end
    | Throw e => failed [] [] e
    | OutOfFuel => OutOfFuel
    end.

End Ui.

(** ** simple-app.js: the page of the straight-line engine of
    simple-formulas.js

    The calculator object keeps a reference to its record of inputs, which
    the handlers update in place. *)

Module SimpleApp.
Import JS SimpleFormulas.
Import Formulas (loc, heap).

Record SimpleROICalculator := {
  currentInputs : loc;
  currentScenario : value
}.

(** [handleInputChange(key, value)], up to the timer it sets: the Number
    the text starts with, or else the text. *)
Definition handleInputChange (key : string) (value : string)
    (this : SimpleROICalculator) (h : heap) : heap :=
  let numValue := parseFloat (VStr value) in
  alter (insert key (if PrimFloat.is_nan numValue then VStr value else VNum numValue))
    (currentInputs this) h.

(** [calculate()]: the results it hands to [updateDisplay], which is taken
    to return, and the heap afterwards. *)
Definition calculate (this : SimpleROICalculator) (h : heap)
  : option (Results * heap) :=
  '(adjustedInputs, h) ← applyScenario (currentInputs this) (currentScenario this) h;
  inputs ← h !! adjustedInputs;
  Some (calculateROI inputs, h).

(** [setScenario(scenario)], up to the buttons it highlights. *)
Definition setScenario (scenario : value) (this : SimpleROICalculator) (h : heap)
  : option (SimpleROICalculator * Results * heap) :=
  let this := {| currentInputs := currentInputs this; currentScenario := scenario |} in
  '(results, h) ← calculate this h;
  Some (this, results, h).

End SimpleApp.

(** ** Vocabulary of the statements *)

Module Notions.
Import JS Validation Formulas.

(** *** Numbers *)

(** The Number for a natural number (loop indices, month counts). *)
Definition F (k : nat) : float := Z2F (Z.of_nat k).

(** SameValueZero on Numbers: numerically equal, or both NaN. *)
Definition sameValueZero (x y : float) : bool :=
  (x =? y)%float || (PrimFloat.is_nan x && PrimFloat.is_nan y).

Definition notNaN (x : spec_float) : Prop := x <> S754_nan.

(** The magnitude of a finite Number [(-1)^s * m * 2^e] is the number of
    binary digits of [m] plus [e]: the Number is below [2^k] in absolute
    value when its magnitude is at most [k], and at least [2^(k-1)] when it
    is at least [k].  A zero is below every bound. *)
Definition magAtMost (k : Z) (x : spec_float) : Prop :=
  match x with
  | S754_zero _ => True
  | S754_finite _ m e => (Zpos (digits2_pos m) + e <= k)%Z
  | _ => False
  end.

Definition magAtLeast (k : Z) (x : spec_float) : Prop :=
  match x with
  | S754_finite _ m e => (k <= Zpos (digits2_pos m) + e)%Z
  | _ => False
  end.

(** [x] is finite and below [2^k] in absolute value. *)
Definition finiteBelow (k : Z) (x : float) : bool :=
  match Prim2SF x with
  | S754_zero _ => true
  | S754_finite _ m e => (Zpos (digits2_pos m) + e <=? k)%Z
  | _ => false
  end.

(** [Number.isFinite(x)] *)
Definition isFinite (x : float) : bool :=
  match Prim2SF x with
  | S754_zero _ | S754_finite _ _ _ => true
  | _ => false
  end.

Definition orderAgrees (k n : nat) : bool :=
  Bool.eqb (F k <? F n)%float (k <? n)%nat && Bool.eqb (F k =? F n)%float (k =? n)%nat.

Ltac upto_120 k := do 121 (destruct k as [|k]; [vm_compute; reflexivity|]); lia.

(** The sums [acc + x1], [acc + x1 + x2], ... *)
Fixpoint runningSum (acc : float) (l : list float) : list float :=
  match l with
  | [] => []
  | x :: r => (acc + x)%float :: runningSum (acc + x)%float r
  end.

(** A division that is the division of Numbers wherever the divisor is not
    a zero. *)
Definition agreesOffZero (divide : float -> float -> float) : Prop :=
  forall a b, (b =? 0)%float = false -> divide a b = (a / b)%float.

(** *** Validation *)

(** What the loop of [validateInputs] stores and reports for one field. *)
Definition coercedAt (raw : obj) (name : string) (sch : Schema) : value :=
  coerceValue (get raw name) (type sch).

Definition fieldError (raw : obj) (name : string) (sch : Schema) : option string :=
  validateField name (coercedAt raw name sch) sch.

(** The errors of [validateCrossFields]. *)
Definition rampErrors (inputs : obj) : gmap string string :=
  if (ToNumber (get inputs "timeHorizonYears") * 12
        <? ToNumber (get inputs "utilisationRampMonths"))%float
  then {["utilisationRampMonths" := "Utilisation ramp cannot exceed the time horizon"]}
  else ∅.

(** A validated input: the coerced record of a validation that succeeded. *)
Definition Validated (inputs : obj) : Prop :=
  exists now raw r out,
    validateInputs now raw = Ok (r, out) /\ isValid r = true /\ coercedInputs r = inputs.

(** Whether [x] is within the bounds of a schema entry, bounds included. *)
Definition withinBounds (sch : Schema) (x : float) : Prop :=
  (forall lo, min sch = Some lo -> (lo <=? x)%float = true)
  /\ (forall hi, max sch = Some hi -> (x <=? hi)%float = true).

Ltac in_schema :=
  apply list_elem_of_In; cbn [In validationSchema];
  repeat first [ left; reflexivity | right ].

(** *** The timeline *)

Section Run.
Context (divide : float -> float -> float) (inputs : obj) (T : float)
  (costs : ProgramCosts) (n : nat).

(** The loop body at the indices [ks], one after the other. *)
Definition runFrom (ks : list nat) (st : LoopState) : LoopState :=
  fold_left (fun st k => timelineIterationWith divide inputs T costs (F n) (F k) st) ks st.

(** What the iteration at index [k] pushes. *)
Definition savingsAt (k : nat) : float :=
  (divide T 12 * rampFactorWith divide (get inputs "utilisationRampMonths") (F k))%float.

Definition costsAt (k : nat) : value :=
  let resaleRecoveryPctHardware := get inputs "resaleRecoveryPctHardware" in
  let monthlyCosts :=
    VNum (divide (opexSubscriptionAnnual costs) 12
          + divide (maintenanceAnnual costs) 12)%float in
  let monthlyCosts :=
    if (F k =? 0)%float
    then add monthlyCosts (add (VNum (capexHardware costs)) (oneOff costs))
    else monthlyCosts in
  if ((F k =? F n - 1) && (0 <? ToNumber resaleRecoveryPctHardware))%float then
    VNum (ToNumber monthlyCosts
          - capexHardware costs * divide (ToNumber resaleRecoveryPctHardware) 100)%float
  else monthlyCosts.

Definition netAt (k : nat) : float := (savingsAt k - ToNumber (costsAt k))%float.

End Run.

Definition initialState : LoopState :=
  {| arrays := emptyTimeline; cumulativeNet := 0 |}.

(** *** The scenario adjuster *)

Definition sensitivityFields : list string :=
  ["fuelSavingsPct"; "accidentReductionPct"; "insuranceReductionPct"].

(** The three assignments [field *= k], in the order of the source. *)
Definition scaled (k : float) (o : obj) : obj :=
  let o1 := <["fuelSavingsPct" := VNum (ToNumber (get o "fuelSavingsPct") * k)%float]> o in
  let o2 := <["accidentReductionPct" :=
                VNum (ToNumber (get o1 "accidentReductionPct") * k)%float]> o1 in
  <["insuranceReductionPct" :=
      VNum (ToNumber (get o2 "insuranceReductionPct") * k)%float]> o2.

(** [o'] is [o] with the three sensitivity fields multiplied by [k] and
    nothing else changed. *)
Definition scaledBy (k : float) (o o' : obj) : Prop :=
  (forall f, f ∈ sensitivityFields ->
             o' !! f = Some (VNum (ToNumber (get o f) * k)%float))
  /\ (forall f, f ∉ sensitivityFields -> o' !! f = o !! f).

(** *** Sample inputs *)

(** The reference fixture, as the form and the defaults supply it. *)
Definition fixture : obj :=
  list_to_map [
    ("vehicleCount", VNum 50);
    ("annualKmPerVehicle", VStr "45000");
    ("fuelConsumptionLPer100km", VNum 10.5);
    ("fuelPricePerLitre", VNum (lit "1.90"));
    ("baselineAccidentsPerYear", VNum 12);
    ("avgAccidentCost", VNum 6500);
    ("annualInsurancePremium", VNum 120000);
    ("fuelSavingsPct", VNum 6);
    ("accidentReductionPct", VNum 30);
    ("insuranceReductionPct", VNum 8);
    ("adoptionPct", VNum 90);
    ("hardwareCostPerVehicle", VNum 350);
    ("subscriptionPerVehiclePerMonth", VNum 35);
    ("implementationOneOff", VNum 2500);
    ("trainingOneOff", VNum 1500);
    ("timeHorizonYears", VNum 3);
    ("discountRatePct", VNum 8);
    ("currency", VStr "EUR");
    ("startMonth", VStr "2024-05");
    ("utilisationRampMonths", VNum 2);
    ("resaleRecoveryPctHardware", VNum 0);
    ("maintenancePerVehiclePerYear", VNum 0)
  ].

(** November 2026. *)
Definition today : Date := Some (2026 * 12 + 10)%Z.

(** The fixture with the largest fuel savings the schema allows. *)
Definition cappedFixture : obj := <["fuelSavingsPct" := VNum 50]> fixture.

(** The fixture with a fractional vehicle count typed into the form. *)
Definition fractionalFixture : obj := <["vehicleCount" := VStr "3.7"]> fixture.

(** The fixture with trailing characters after the fuel consumption. *)
Definition prefixFixture : obj := <["fuelConsumptionLPer100km" := VStr "12abc"]> fixture.

(** The fixture with a ramp of 24 months over a horizon of one year. *)
Definition steepFixture : obj :=
  <["utilisationRampMonths" := VNum 24]> (<["timeHorizonYears" := VNum 1]> fixture).

(** The defaults of the straight-line engine with every cost set to 0 in
    the form. *)
Definition freeProgram : obj :=
  <["hardwareCostPerVehicle" := VNum 0]>
    (<["subscriptionPerVehiclePerMonth" := VNum 0]>
       (<["implementationOneOff" := VNum 0]>
          (<["trainingOneOff" := VNum 0]> SimpleState.defaultInputs))).

(** What the form of src/simple-calc.js holds when its three cost fields are
    set to 0 (the other fields are merged from its defaults). *)
Definition freeLeanProgram : obj :=
  list_to_map [
    ("subscriptionPerVehiclePerMonth", VNum 0);
    ("implementationOneOff", VNum 0);
    ("trainingOneOff", VNum 0)
  ].

(** The defaults with the dearest subscription the schema allows: it costs
    more than the program saves. *)
Definition costlySubscription : obj :=
  <["subscriptionPerVehiclePerMonth" := VNum 200]> SimpleState.defaultInputs.

(** The defaults with the three savings percentages set to 0: the
    subscription is then paid for nothing. *)
Definition noSavings : obj :=
  <["fuelSavingsPct" := VNum 0]>
    (<["accidentReductionPct" := VNum 0]>
       (<["insuranceReductionPct" := VNum 0]> SimpleState.defaultInputs)).

(** No savings and no subscription: the net monthly savings are 0. *)
Definition noSavingsNoSubscription : obj :=
  <["subscriptionPerVehiclePerMonth" := VNum 0]> noSavings.

(** The coerced record of the fixture, and what validating the fixture
    returns and prints. *)
Definition fixtureInputs : obj := coercedInputs (fieldLoop fixture).

Definition fixtureResult : ValidationResult :=
  {| isValid := true; errors := ∅; coercedInputs := fixtureInputs |}.

Definition fixtureConsole : console :=
  ["Start month is in the past. Savings will be calculated from the specified month."].

(** *** Vocabulary of the further properties *)

(** The year and the month a text [YYYY-MM] names. *)
Definition yearMonthOf (s : string) : option (Z * Z) :=
  match s with
  | String a (String b (String c (String d (String _ (String e (String f EmptyString)))))) =>
      if isYearMonth s then
        Some (1000 * digitVal a + 100 * digitVal b + 10 * digitVal c + digitVal d,
              10 * digitVal e + digitVal f)%Z
      else None
  | _ => None
  end.

(** A text [YYYY-MM] with a month from 01 to 12 and a year from 0100 on. *)
Definition isCalendarMonth (s : string) : bool :=
  match yearMonthOf s with
  | Some (y, m) => (100 <=? y)%Z && (1 <=? m)%Z && (m <=? 12)%Z
  | None => false
  end.

Definition digitChars : list ascii :=
  ["0"; "1"; "2"; "3"; "4"; "5"; "6"; "7"; "8"; "9"]%char.

(** [f] holds of the [n] integers from [z] on. *)
Fixpoint forallFrom (f : Z -> bool) (z : Z) (n : nat) : bool :=
  match n with
  | O => true
  | S n' => f z && forallFrom f (z + 1)%Z n'
  end.

(** The names of the schema. *)
Definition schemaKeys : gset string := list_to_set validationSchema.*1.

(** [v] satisfies the entry [sch] of the schema: a Number within the bounds
    (a whole one for an integer entry), one of the allowed strings, or a
    month [YYYY-MM]. *)
Definition conforms (sch : Schema) (v : value) : Prop :=
  if String.eqb (type sch) "integer" || String.eqb (type sch) "number" then
    exists x, v = VNum x /\ PrimFloat.is_nan x = false /\ withinBounds sch x
      /\ (type sch = "integer" -> isIntegerF x = true)
  else if String.eqb (type sch) "string" then
    exists s, v = VStr s /\ forall allowed, allowedValues sch = Some allowed -> s ∈ allowed
  else
    exists s, v = VStr s /\ isCalendarMonth s = true.

(** The record [applyScenario] returns for [o]. *)
Definition adjusted (scenario : value) (o : obj) : obj :=
  if strictEq scenario (VStr "conservative") then scaled 0.75 o
  else if strictEq scenario (VStr "aggressive") then scaled 1.25 o
  else o.

(** A controller at rest on the reference fixture, the aggressive scenario
    chosen. *)
Definition fixtureController : Ui.UIController :=
  {| Ui.inputElements := ∅;
     Ui.currentInputs := fixture;
     Ui.currentResults := None;
     Ui.currentScenario := VStr "aggressive";
     Ui.isCalculating := false |}.

(** A controller whose hardware cost box has been emptied. *)
Definition emptiedBox : Ui.UIController :=
  {| Ui.inputElements :=
       {["hardwareCostPerVehicle" :=
           {| Ui.Element.type := "number"; Ui.Element.value := "" |}]};
     Ui.currentInputs := ∅;
     Ui.currentResults := None;
     Ui.currentScenario := VStr "base";
     Ui.isCalculating := false |}.

End Notions.

(** * Properties *)

(** ** Numbers *)

Module NumberFacts.
Import JS Notions.

(** *** Comparisons *)

Lemma SFcompare_refl x : notNaN x -> SFcompare x x = Some Eq.
Proof.
  destruct x as [s|s| |s m e]; intros H; try done; cbn.
  - by destruct s.
  - rewrite Z.compare_refl. change (Pos.compare_cont Eq m m) with (Pos.compare m m).
    rewrite Pos.compare_refl. by destruct s.
Qed.

Lemma is_nan_spec x : PrimFloat.is_nan x = false <-> notNaN (Prim2SF x).
Proof.
  unfold PrimFloat.is_nan. rewrite FloatAxioms.eqb_spec. unfold SFeqb. split.
  - intros H E. rewrite E in H. done.
  - intros H. by rewrite SFcompare_refl.
Qed.

Lemma SFcompare_swap x y : SFcompare y x = CompOpp <$> SFcompare x y.
Proof.
  destruct x as [[]|[]| |[] mx ex], y as [[]|[]| |[] my ey]; try done; cbn;
    rewrite (Z.compare_antisym ex ey);
    change (Pos.compare_cont Eq ?a ?b) with (Pos.compare a b);
    rewrite (Pos.compare_antisym mx my);
    destruct (ex ?= ey)%Z; cbn; try done; by destruct (mx ?= my)%positive.
Qed.

Lemma leb_ltb (a b : float) : (a <=? b)%float = true -> (b <? a)%float = false.
Proof.
  rewrite FloatAxioms.leb_spec, FloatAxioms.ltb_spec. unfold SFleb, SFltb.
  rewrite (SFcompare_swap (Prim2SF a)).
  by destruct (SFcompare (Prim2SF a) (Prim2SF b)) as [[]|].
Qed.

(** A divisor that some non-negative Number is below is not a zero. *)
Lemma above_nonneg_nonzero (i r : float) :
  (0 <=? i)%float = true -> (i <? r)%float = true -> (r =? 0)%float = false.
Proof.
  rewrite FloatAxioms.leb_spec, FloatAxioms.ltb_spec, FloatAxioms.eqb_spec.
  change (Prim2SF 0) with (S754_zero false).
  unfold SFleb, SFltb, SFeqb.
  destruct (Prim2SF i) as [[]|[]| |[] mi ei], (Prim2SF r) as [[]|[]| |[] mr er]; done.
Qed.

Lemma zero_not_above (i r : float) :
  (0 <=? i)%float = true -> (r =? 0)%float = true -> (i <? r)%float = false.
Proof.
  intros H0 Hr. destruct (i <? r)%float eqn:E; [|done].
  by rewrite (above_nonneg_nonzero i r) in Hr.
Qed.

(** Adding to the initial 0 gives the same Number, up to the sign of a
    zero. *)
Lemma zero_plus (x : float) : sameValueZero (0 + x)%float x = true.
Proof.
  unfold sameValueZero, PrimFloat.is_nan.
  rewrite !FloatAxioms.eqb_spec, FloatAxioms.add_spec.
  change (Prim2SF 0) with (S754_zero false).
  unfold SFeqb.
  destruct (Prim2SF x) as [[]|[]| |s m e] eqn:E; try done.
  unfold SF64add, SFadd.
  by rewrite SFcompare_refl.
Qed.

(** *** Rounding never makes a NaN *)

Lemma shr_1_nonneg mrs : (0 <= shr_m mrs)%Z -> (0 <= shr_m (shr_1 mrs))%Z.
Proof. destruct mrs as [[|[p|p|]|[p|p|]] r s]; cbn; lia. Qed.

Lemma iter_shr_1_nonneg p mrs :
  (0 <= shr_m mrs)%Z -> (0 <= shr_m (SpecFloat.iter_pos shr_1 p mrs))%Z.
Proof.
  revert mrs. induction p as [p IH|p IH|]; intros mrs H; cbn.
  - by apply IH, IH, shr_1_nonneg.
  - by apply IH, IH.
  - by apply shr_1_nonneg.
Qed.

Lemma shr_fexp_nonneg m e l :
  (0 <= m)%Z -> (0 <= shr_m (fst (shr_fexp prec emax m e l)))%Z.
Proof.
  intros H. unfold shr_fexp, shr.
  assert (0 <= shr_m (shr_record_of_loc m l))%Z by (by destruct l as [|[]]).
  destruct (_ - e)%Z; cbn [fst]; try done. by apply iter_shr_1_nonneg.
Qed.

Lemma binary_round_aux_notNaN s m e l :
  (0 <= m)%Z -> notNaN (binary_round_aux prec emax s m e l).
Proof.
  intros H. unfold binary_round_aux.
  pose proof (shr_fexp_nonneg m e l H) as H1.
  destruct (shr_fexp prec emax m e l) as [mrs' e']. cbn [fst] in H1.
  assert (0 <= round_nearest_even (shr_m mrs') (loc_of_shr_record mrs'))%Z as H2.
  { unfold round_nearest_even. destruct (loc_of_shr_record mrs') as [|[]]; try done.
    - destruct (Z.even _); lia.
    - lia. }
  pose proof (shr_fexp_nonneg _ e' loc_Exact H2) as H3.
  destruct (shr_fexp prec emax _ e' loc_Exact) as [mrs'' e'']. cbn [fst] in H3.
  destruct (shr_m mrs''); [done| |lia].
  by destruct (_ <=? _)%Z.
Qed.

Lemma binary_round_notNaN s m e : notNaN (binary_round prec emax s m e).
Proof.
  unfold binary_round. destruct (shl_align _ _ _) as [mz ez].
  by apply binary_round_aux_notNaN.
Qed.

Lemma binary_normalize_notNaN m e sz : notNaN (binary_normalize prec emax m e sz).
Proof. destruct m; [done|apply binary_round_notNaN..]. Qed.

Lemma SF2Prim_notNaN x : notNaN x -> notNaN (Prim2SF (SF2Prim x)).
Proof.
  destruct x as [[]|[]| |s m e]; intros H; try done.
  unfold SF2Prim.
  assert (notNaN (Prim2SF (Z.ldexp (of_uint63 (Uint63.of_Z (Z.pos m))) e))) as Hl.
  { rewrite Z_ldexp_spec, FloatAxioms.of_uint63_spec. unfold SFldexp.
    pose proof (binary_normalize_notNaN (Uint63.to_Z (Uint63.of_Z (Z.pos m))) 0 false) as Hn.
    destruct (binary_normalize _ _ _ _ _); try done. apply binary_round_notNaN. }
  destruct s; [|done]. rewrite FloatAxioms.opp_spec.
  by destruct (Prim2SF _).
Qed.

Lemma Z2F_notNaN z : PrimFloat.is_nan (Z2F z) = false.
Proof. apply is_nan_spec, SF2Prim_notNaN, binary_normalize_notNaN. Qed.

Lemma decimalToNumber_notNaN neg m e :
  PrimFloat.is_nan (decimalToNumber neg m e) = false.
Proof.
  unfold decimalToNumber. destruct m as [|m|m]; try by destruct neg.
  destruct e as [|p|p]; try apply Z2F_notNaN.
  unfold SFdiv_core_binary.
  destruct (Z.div_eucl _ _) as [q r] eqn:E.
  apply is_nan_spec, SF2Prim_notNaN, binary_round_aux_notNaN.
  match type of E with Z.div_eucl ?a ?b = _ =>
    assert (q = a / b)%Z as -> by (unfold Z.div; by rewrite E);
    assert (0 <= a)%Z; [|apply Z.div_pos; lia] end.
  destruct (_ - _ - _)%Z; try lia. apply Z.shiftl_nonneg. lia.
Qed.

(** A numeric prefix that scans never reads as NaN. *)
Lemma scanDecimal_notNaN s x rest :
  scanDecimal s = Some (x, rest) -> PrimFloat.is_nan x = false.
Proof.
  unfold scanDecimal. destruct (scanSign s) as [neg s1].
  destruct (startsWith _ _).
  - intros [= <- _]. by destruct neg.
  - destruct (scanDigits 0 0 s1) as [[ip ni] s2].
    destruct (match s2 with String c r => _ | _ => _ end) as [[m nf] s3].
    destruct (_ && _); [done|]. destruct (scanExponent s3) as [ex s4].
    intros [= <- _]. apply decimalToNumber_notNaN.
Qed.

(** *** The integers from 1 to 10 *)

Lemma digits2_pos_bounds (m : positive) :
  (2 ^ (Zpos (digits2_pos m) - 1) <= Zpos m < 2 ^ Zpos (digits2_pos m))%Z.
Proof.
  induction m as [m IH|m IH|]; cbn [digits2_pos].
  - rewrite Pos2Z.inj_succ.
    replace (Z.succ (Zpos (digits2_pos m)) - 1)%Z
      with (Z.succ (Zpos (digits2_pos m) - 1))%Z by lia.
    rewrite !Z.pow_succ_r by lia. lia.
  - rewrite Pos2Z.inj_succ.
    replace (Z.succ (Zpos (digits2_pos m)) - 1)%Z
      with (Z.succ (Zpos (digits2_pos m) - 1))%Z by lia.
    rewrite !Z.pow_succ_r by lia. lia.
  - cbn. lia.
Qed.

(** A Number that [Number.isInteger] accepts and that is neither below 1
    nor above 10 is one of the ten integers. *)
Lemma small_integer (x : float) :
  isIntegerF x = true -> (x <? 1)%float = false -> (10 <? x)%float = false ->
  exists j : Z, (1 <= j <= 10)%Z /\ x = Z2F j.
Proof.
  intros Hint Hlo Hhi.
  rewrite FloatAxioms.ltb_spec in Hlo, Hhi.
  unfold isIntegerF in Hint.
  pose proof (Prim2SF_valid x) as Hv.
  rewrite <- (SF2Prim_Prim2SF x).
  change (Prim2SF 1) with (S754_finite false 4503599627370496 (-52)) in Hlo.
  change (Prim2SF 10) with (S754_finite false 5629499534213120 (-49)) in Hhi.
  destruct (Prim2SF x) as [[|]|[|]| |[|] m e]; try discriminate.
  unfold SFltb, SFcompare in Hlo, Hhi.
  change (Pos.compare_cont Eq) with Pos.compare in Hlo, Hhi.
  cbn [valid_binary] in Hv. unfold bounded, canonical_mantissa, fexp in Hv.
  apply andb_prop in Hv as [Hc _]. apply Z.eqb_eq in Hc.
  pose proof (digits2_pos_bounds m) as Hd.
  assert (He : (-52 <= e <= -49)%Z).
  { split.
    - destruct (Z.compare_spec e (-52)); try lia; discriminate.
    - destruct (Z.compare_spec (-49) e); try lia; discriminate. }
  assert (Hdig : Zpos (digits2_pos m) = 53%Z).
  { clear - Hc He. unfold emin, prec, emax in Hc. lia. }
  rewrite Hdig in Hd.
  change (2 ^ (53 - 1))%Z with 4503599627370496%Z in Hd.
  change (2 ^ 53)%Z with 9007199254740992%Z in Hd.
  assert (Hm2 : e = (-49)%Z -> (Zpos m <= 5629499534213120)%Z).
  { intros ->. rewrite Z.compare_refl in Hhi. clear - Hhi.
    destruct (5629499534213120 ?= m)%positive eqn:E.
    - apply Pos.compare_eq in E. subst m. apply Z.le_refl.
    - discriminate.
    - apply Pos.compare_gt_iff, Pos2Z.pos_lt_pos in E. apply Z.lt_le_incl, E. }
  clear Hlo Hhi Hc Hdig.
  assert (Hcases : e = (-52)%Z \/ e = (-51)%Z \/ e = (-50)%Z \/ e = (-49)%Z)
    by (clear - He; lia).
  destruct Hcases as [-> | [-> | [-> | ->]]]; cbv beta iota in Hint;
    apply Z.eqb_eq in Hint;
    [ change (2 ^ Z.pos 52)%Z with 4503599627370496%Z in Hint
    | change (2 ^ Z.pos 51)%Z with 2251799813685248%Z in Hint
    | change (2 ^ Z.pos 50)%Z with 1125899906842624%Z in Hint
    | change (2 ^ Z.pos 49)%Z with 562949953421312%Z in Hint ];
    (apply Z.mod_divide in Hint; [|lia]); destruct Hint as [k Hk].
  - assert (k = 1%Z) as -> by lia.
    assert (m = 4503599627370496%positive) as -> by lia.
    exists 1%Z. split; [lia | reflexivity].
  - assert (k = 2 \/ k = 3)%Z as [-> | ->] by lia;
      [exists 2%Z; assert (m = 4503599627370496%positive) as -> by lia
      |exists 3%Z; assert (m = 6755399441055744%positive) as -> by lia];
      (split; [lia | reflexivity]).
  - assert (k = 4 \/ k = 5 \/ k = 6 \/ k = 7)%Z as [-> | [-> | [-> | ->]]] by lia;
      [exists 4%Z; assert (m = 4503599627370496%positive) as -> by lia
      |exists 5%Z; assert (m = 5629499534213120%positive) as -> by lia
      |exists 6%Z; assert (m = 6755399441055744%positive) as -> by lia
      |exists 7%Z; assert (m = 7881299347898368%positive) as -> by lia];
      (split; [lia | reflexivity]).
  - specialize (Hm2 eq_refl).
    assert (k = 8 \/ k = 9 \/ k = 10)%Z as [-> | [-> | ->]] by lia;
      [exists 8%Z; assert (m = 4503599627370496%positive) as -> by lia
      |exists 9%Z; assert (m = 5066549580791808%positive) as -> by lia
      |exists 10%Z; assert (m = 5629499534213120%positive) as -> by lia];
      (split; [lia | reflexivity]).
Qed.

(** *** The loop indices 0 ... 120 *)

Lemma forallb_below (f : nat -> bool) (n k : nat) :
  forallb f (seq 0 n) = true -> k < n -> f k = true.
Proof.
  intros H Hk. eapply forallb_forall in H; [done|]. apply in_seq. lia.
Qed.

Lemma smallOrder k : k <= 120 -> forallb (orderAgrees k) (seq 0 121) = true.
Proof. intros Hk. upto_120 k. Qed.

Lemma smallSucc k :
  k <= 120 -> PrimFloat.Leibniz.eqb (F k + 1)%float (F (S k)) = true.
Proof. intros Hk. upto_120 k. Qed.

Lemma F_order k n :
  k <= 120 -> n <= 120 ->
  (F k <? F n)%float = (k <? n)%nat /\ (F k =? F n)%float = (k =? n)%nat.
Proof.
  intros Hk Hn.
  pose proof (forallb_below _ 121 n (smallOrder k Hk) ltac:(lia)) as H.
  apply andb_prop in H as [H1 H2].
  apply Bool.eqb_prop in H1, H2. done.
Qed.

Lemma F_succ k : k <= 120 -> (F k + 1)%float = F (S k).
Proof. intros Hk. by apply FloatAxioms.Leibniz.eqb_spec, smallSucc. Qed.

Lemma F_nonneg k : k <= 120 -> (0 <=? F k)%float = true.
Proof. intros Hk. upto_120 k. Qed.

Lemma F_times_12 h :
  h <= 10 -> PrimFloat.Leibniz.eqb (F h * 12)%float (F (12 * h)) = true.
Proof. intros Hh. do 11 (destruct h as [|h]; [vm_compute; reflexivity|]). lia. Qed.

(** *** Magnitudes: the operations on Numbers that are not too large give
    finite Numbers *)

#[local] Open Scope Z_scope.

Lemma Zdigits2_nonneg z : 0 <= Zdigits2 z.
Proof. destruct z; cbn; lia. Qed.

Lemma Zdigits2_bounds z : 0 < z -> 2 ^ (Zdigits2 z - 1) <= z < 2 ^ Zdigits2 z.
Proof. destruct z as [|p|p]; try lia. intros _. apply digits2_pos_bounds. Qed.

Lemma Zdigits2_le z k : 0 <= z -> 0 <= k -> z < 2 ^ k -> Zdigits2 z <= k.
Proof.
  intros Hz Hk Hlt. destruct (Z.eq_dec z 0) as [->|Hne]; [cbn; lia|].
  destruct (Zdigits2_bounds z ltac:(lia)) as [Hlo _].
  destruct (Z_le_gt_dec (Zdigits2 z) k) as [|Hgt]; [done|].
  assert (2 ^ k <= 2 ^ (Zdigits2 z - 1)) by (apply Z.pow_le_mono_r; lia). lia.
Qed.

Lemma Zdigits2_succ z : 0 <= z -> Zdigits2 (z + 1) <= Zdigits2 z + 1.
Proof.
  intros Hz. pose proof (Zdigits2_nonneg z).
  apply Zdigits2_le; [lia..|].
  destruct (Z.eq_dec z 0) as [->|Hne]; [cbn; lia|].
  destruct (Zdigits2_bounds z ltac:(lia)) as [_ Hhi].
  rewrite Z.pow_add_r by lia. lia.
Qed.

Lemma Zdigits2_shr_1 mrs :
  0 <= shr_m mrs ->
  0 <= shr_m (shr_1 mrs)
  /\ Zdigits2 (shr_m (shr_1 mrs)) = Z.max 0 (Zdigits2 (shr_m mrs) - 1).
Proof.
  destruct mrs as [[|[p|p|]|[p|p|]] r s]; cbn; intros H; try lia.
Qed.

Lemma Zdigits2_iter_shr_1 n mrs :
  0 <= shr_m mrs ->
  0 <= shr_m (SpecFloat.iter_pos shr_1 n mrs)
  /\ Zdigits2 (shr_m (SpecFloat.iter_pos shr_1 n mrs))
     = Z.max 0 (Zdigits2 (shr_m mrs) - Zpos n).
Proof.
  revert mrs. induction n as [n IH|n IH|]; intros mrs H; cbn [SpecFloat.iter_pos].
  - destruct (Zdigits2_shr_1 mrs H) as [H1 E1].
    destruct (IH _ H1) as [H2 E2]. destruct (IH _ H2) as [H3 E3].
    split; [done|]. rewrite E3, E2, E1. lia.
  - destruct (IH _ H) as [H2 E2]. destruct (IH _ H2) as [H3 E3].
    split; [done|]. rewrite E3, E2. lia.
  - destruct (Zdigits2_shr_1 mrs H) as [H1 E1]. split; [done|]. rewrite E1. lia.
Qed.

Lemma shr_record_of_loc_m m l : shr_m (shr_record_of_loc m l) = m.
Proof. by destruct l as [|[]]. Qed.

(** Shifting to the canonical exponent: the exponent reached and the digits left. *)
Lemma shr_fexp_digits m e l :
  0 <= m ->
  let '(mrs, e') := shr_fexp prec emax m e l in
  0 <= shr_m mrs
  /\ e' = Z.max e (Z.max (Zdigits2 m + e - 53) (-1074))
  /\ (Zdigits2 (shr_m mrs) = 0 \/ Zdigits2 (shr_m mrs) + e' = Zdigits2 m + e)
  /\ Zdigits2 (shr_m mrs) <= 53.
Proof.
  intros Hm. unfold shr_fexp, shr, fexp, emin, prec, emax.
  pose proof (Zdigits2_nonneg m) as Hd.
  destruct (Z.max (Zdigits2 m + e - 53) (3 - 1024 - 53) - e) as [|n|n] eqn:En;
    rewrite ?shr_record_of_loc_m.
  - split; [done|]. split; [lia|]. split; [right; lia|lia].
  - destruct (Zdigits2_iter_shr_1 n (shr_record_of_loc m l)) as [H1 E1];
      [by rewrite shr_record_of_loc_m|].
    rewrite shr_record_of_loc_m in E1.
    split; [done|]. split; [lia|]. rewrite E1. split; lia.
  - split; [done|]. split; [lia|]. split; [right; lia|lia].
Qed.

Lemma round_nearest_even_bounds m l :
  0 <= m -> m <= round_nearest_even m l <= m + 1.
Proof.
  intros H. unfold round_nearest_even. destruct l as [|[]]; try lia.
  destruct (Z.even m); lia.
Qed.

Lemma Zdigits2_mono a b : 0 <= a <= b -> Zdigits2 a <= Zdigits2 b.
Proof.
  intros [Ha Hab]. pose proof (Zdigits2_nonneg b).
  apply Zdigits2_le; [lia..|].
  destruct (Z.eq_dec b 0) as [->|Hne]; [assert (a = 0) as -> by lia; cbn; lia|].
  destruct (Zdigits2_bounds b ltac:(lia)). lia.
Qed.

(** Rounding to binary64 adds at most one to the magnitude, and gives a
    finite number as long as the magnitude stays below 2^1024. *)
Lemma binary_round_aux_mag s m e l k :
  0 <= m -> Zdigits2 m + e <= k -> -1074 <= k -> k <= 1023 -> e <= 971 ->
  magAtMost (k + 1) (binary_round_aux prec emax s m e l).
Proof.
  intros Hm Hk Hlo Hhi He. unfold binary_round_aux.
  pose proof (shr_fexp_digits m e l Hm) as H1.
  destruct (shr_fexp prec emax m e l) as [mrs' e'].
  destruct H1 as (Hm' & He' & Hd' & Hd53).
  set (m1 := round_nearest_even (shr_m mrs') (loc_of_shr_record mrs')).
  pose proof (round_nearest_even_bounds (shr_m mrs') (loc_of_shr_record mrs') Hm') as Hr.
  fold m1 in Hr.
  assert (Hm1 : 0 <= m1) by lia.
  assert (Hd1 : Zdigits2 m1 <= Zdigits2 (shr_m mrs') + 1).
  { etransitivity; [apply (Zdigits2_mono m1 (shr_m mrs' + 1)); lia|].
    by apply Zdigits2_succ. }
  pose proof (shr_fexp_digits m1 e' loc_Exact Hm1) as H2.
  destruct (shr_fexp prec emax m1 e' loc_Exact) as [mrs'' e''].
  destruct H2 as (Hm'' & He'' & Hd'' & _).
  pose proof (Zdigits2_nonneg m) as Hdm.
  pose proof (Zdigits2_nonneg (shr_m mrs')) as Hdm'.
  destruct (shr_m mrs'') as [|p|p] eqn:Ep; [done| |lia].
  cbn [Zdigits2] in Hd''.
  destruct (e'' <=? emax - prec) eqn:Ee; cbn [magAtMost].
  - destruct Hd'' as [?|Hd'']; lia.
  - apply Z.leb_gt in Ee. unfold emax, prec in Ee. destruct Hd'' as [?|Hd'']; lia.
Qed.

Lemma valid_finite s m e :
  valid_binary (S754_finite s m e) = true ->
  e = Z.max (Zpos (digits2_pos m) + e - 53) (-1074) /\ e <= 971.
Proof.
  unfold valid_binary. cbn [SpecFloat.valid_binary].
  unfold bounded, canonical_mantissa, fexp, emin, prec, emax.
  intros [H1 H2]%andb_prop. apply Z.eqb_eq in H1. apply Z.leb_le in H2. lia.
Qed.

Lemma digits2_pos_mul a b :
  Zpos (digits2_pos (a * b)) <= Zpos (digits2_pos a) + Zpos (digits2_pos b).
Proof.
  change (Zpos (digits2_pos (a * b))) with (Zdigits2 (Zpos (a * b))).
  apply Zdigits2_le; [lia..|].
  destruct (digits2_pos_bounds a) as [_ Ha], (digits2_pos_bounds b) as [_ Hb].
  rewrite Z.pow_add_r by lia. rewrite Pos2Z.inj_mul.
  apply Z.mul_lt_mono_nonneg; lia.
Qed.

Lemma SFmul_mag x y a b :
  valid_binary x = true -> valid_binary y = true ->
  magAtMost a x -> magAtMost b y -> 0 <= a -> 0 <= b -> a + b <= 1023 ->
  magAtMost (a + b + 1) (SFmul prec emax x y).
Proof.
  intros Vx Vy Hx Hy Ha Hb Hab.
  destruct x as [sx|sx| |sx mx ex], y as [sy|sy| |sy my ey]; try done.
  apply valid_finite in Vx as [Ex Bx], Vy as [Ey By]. cbn [magAtMost] in Hx, Hy.
  cbn [SFmul]. apply binary_round_aux_mag; [lia| |lia..].
  cbn [Zdigits2]. pose proof (digits2_pos_mul mx my). lia.
Qed.

Lemma digits2_pos_iter_xO m d :
  Zpos (digits2_pos (Pos.iter xO m d)) = Zpos (digits2_pos m) + Zpos d.
Proof.
  induction d as [|d IH] using Pos.peano_ind.
  - cbn. lia.
  - rewrite Pos.iter_succ. cbn [digits2_pos]. lia.
Qed.

Lemma shl_align_digits m e e' :
  Zpos (digits2_pos (fst (shl_align m e e'))) + snd (shl_align m e e')
  = Zpos (digits2_pos m) + e
  /\ snd (shl_align m e e') = Z.min e e'.
Proof.
  unfold shl_align. destruct (e' - e) as [|d|d] eqn:E; cbn [fst snd].
  - lia.
  - lia.
  - rewrite digits2_pos_iter_xO. lia.
Qed.

Lemma binary_round_mag s m e k :
  Zpos (digits2_pos m) + e <= k -> 0 <= k -> k <= 1023 -> e <= 971 ->
  magAtMost (k + 1) (binary_round prec emax s m e).
Proof.
  intros Hk Hlo Hhi He. unfold binary_round.
  pose proof (shl_align_digits m e (fexp prec emax (Zpos (digits2_pos m) + e))) as [H1 H2].
  destruct (shl_align m e _) as [mz ez]. cbn [fst snd] in H1, H2.
  apply binary_round_aux_mag; cbn [Zdigits2]; lia.
Qed.

Lemma binary_normalize_mag m e k :
  Zdigits2 (Z.abs m) + e <= k -> 0 <= k -> k <= 1023 -> e <= 971 ->
  magAtMost (k + 1) (binary_normalize prec emax m e false).
Proof.
  intros Hk Hlo Hhi He.
  destruct m as [|p|p]; cbn [binary_normalize Z.abs Zdigits2] in *; [done|..];
    by apply binary_round_mag.
Qed.

Lemma Zdigits2_sum A B a b :
  0 <= a -> 0 <= b -> Z.abs A < 2 ^ a -> Z.abs B < 2 ^ b ->
  forall C, Z.abs C <= Z.abs A + Z.abs B -> Zdigits2 (Z.abs C) <= Z.max a b + 1.
Proof.
  intros Ha Hb HA HB C HC. apply Zdigits2_le; [lia..|].
  assert (2 ^ a <= 2 ^ Z.max a b) by (apply Z.pow_le_mono_r; lia).
  assert (2 ^ b <= 2 ^ Z.max a b) by (apply Z.pow_le_mono_r; lia).
  rewrite Z.pow_add_r by lia. lia.
Qed.

Lemma aligned_sum_mag sx mx ex sy my ey (C : Z) a b :
  Zpos (digits2_pos mx) + ex <= a -> Zpos (digits2_pos my) + ey <= b ->
  Z.abs C <= Z.abs (cond_Zopp sx (Zpos (fst (shl_align mx ex (Z.min ex ey)))))
             + Z.abs (cond_Zopp sy (Zpos (fst (shl_align my ey (Z.min ex ey))))) ->
  Zdigits2 (Z.abs C) + Z.min ex ey <= Z.max a b + 1.
Proof.
  intros Hx Hy HC.
  pose proof (shl_align_digits mx ex (Z.min ex ey)) as [X1 X2].
  pose proof (shl_align_digits my ey (Z.min ex ey)) as [Y1 Y2].
  destruct (shl_align mx ex _) as [mx' ex'], (shl_align my ey _) as [my' ey'].
  cbn [fst snd] in *.
  destruct (digits2_pos_bounds mx') as [_ Bx], (digits2_pos_bounds my') as [_ By].
  pose proof (Zdigits2_sum (Zpos mx') (Zpos my') (Zpos (digits2_pos mx'))
                (Zpos (digits2_pos my')) ltac:(lia) ltac:(lia) Bx By C) as H.
  assert (Z.abs C <= Z.abs (Zpos mx') + Z.abs (Zpos my')) as HC'.
  { revert HC. destruct sx, sy; cbn [cond_Zopp]; lia. }
  specialize (H HC'). lia.
Qed.

Lemma SFadd_mag x y a b :
  valid_binary x = true -> valid_binary y = true ->
  magAtMost a x -> magAtMost b y -> 0 <= a -> 0 <= b -> Z.max a b <= 1022 ->
  magAtMost (Z.max a b + 2) (SFadd prec emax x y).
Proof.
  intros Vx Vy Hx Hy Ha Hb Hab.
  destruct x as [sx|sx| |sx mx ex], y as [sy|sy| |sy my ey]; try done.
  - by destruct sx, sy.
  - cbn [SFadd magAtMost] in *. lia.
  - cbn [SFadd magAtMost] in *. lia.
  - apply valid_finite in Vx as [Ex Bx], Vy as [Ey By]. cbn [magAtMost] in Hx, Hy.
    cbn [SFadd]. cbv zeta.
    replace (Z.max a b + 2) with (Z.max a b + 1 + 1) by lia.
    apply binary_normalize_mag; [|lia..].
    apply (aligned_sum_mag sx mx ex sy my ey); [done..|].
    generalize (cond_Zopp sx (Zpos (fst (shl_align mx ex (Z.min ex ey))))).
    generalize (cond_Zopp sy (Zpos (fst (shl_align my ey (Z.min ex ey))))).
    clear. lia.
Qed.

Lemma SFsub_mag x y a b :
  valid_binary x = true -> valid_binary y = true ->
  magAtMost a x -> magAtMost b y -> 0 <= a -> 0 <= b -> Z.max a b <= 1022 ->
  magAtMost (Z.max a b + 2) (SFsub prec emax x y).
Proof.
  intros Vx Vy Hx Hy Ha Hb Hab.
  destruct x as [sx|sx| |sx mx ex], y as [sy|sy| |sy my ey]; try done.
  - by destruct sx, sy.
  - cbn [SFsub magAtMost] in *. lia.
  - cbn [SFsub magAtMost] in *. lia.
  - apply valid_finite in Vx as [Ex Bx], Vy as [Ey By]. cbn [magAtMost] in Hx, Hy.
    cbn [SFsub]. cbv zeta.
    replace (Z.max a b + 2) with (Z.max a b + 1 + 1) by lia.
    apply binary_normalize_mag; [|lia..].
    apply (aligned_sum_mag sx mx ex sy my ey); [done..|].
    generalize (cond_Zopp sx (Zpos (fst (shl_align mx ex (Z.min ex ey))))).
    generalize (cond_Zopp sy (Zpos (fst (shl_align my ey (Z.min ex ey))))).
    clear. lia.
Qed.

Lemma quotient_digits (mx my : positive) (s q r : Z) :
  0 <= s -> Zpos mx * 2 ^ s = Zpos my * q + r -> 0 <= r < Zpos my ->
  0 <= q
  /\ Zdigits2 q <= Z.max 0 (Zpos (digits2_pos mx) + s - Zpos (digits2_pos my) + 1).
Proof.
  intros Hs E Hr.
  assert (0 <= q) as Hq.
  { assert (0 < 2 ^ s) by (apply Z.pow_pos_nonneg; lia). nia. }
  split; [done|]. apply Zdigits2_le; [done|lia|].
  set (k := Z.max 0 _).
  destruct (digits2_pos_bounds mx) as [_ Hx], (digits2_pos_bounds my) as [Hy _].
  set (dx := Zpos (digits2_pos mx)) in *. set (dy := Zpos (digits2_pos my)) in *.
  assert (0 < dx) by (subst dx; lia). assert (0 < dy) by (subst dy; lia).
  assert (Zpos mx * 2 ^ s < 2 ^ (dy - 1) * 2 ^ k) as Hlt.
  { rewrite <- Z.pow_add_r by lia.
    apply Z.lt_le_trans with (2 ^ dx * 2 ^ s).
    - apply Z.mul_lt_mono_pos_r; [apply Z.pow_pos_nonneg; lia|done].
    - rewrite <- Z.pow_add_r by lia. apply Z.pow_le_mono_r; lia. }
  assert (0 < 2 ^ (dy - 1)) by (apply Z.pow_pos_nonneg; lia).
  assert (0 < 2 ^ k) by (apply Z.pow_pos_nonneg; lia).
  generalize dependent (2 ^ k). generalize dependent (2 ^ (dy - 1)).
  generalize dependent (Zpos mx * 2 ^ s). intros; nia.
Qed.

Lemma SFdiv_mag x y a b k :
  valid_binary x = true -> valid_binary y = true ->
  magAtMost a x -> magAtLeast b y -> 0 <= k -> a - b + 1 <= k -> k <= 1023 ->
  magAtMost (k + 1) (SFdiv prec emax x y).
Proof.
  intros Vx Vy Hx Hy Hk Hab Hhi.
  destruct x as [sx|sx| |sx mx ex], y as [sy|sy| |sy my ey]; try done.
  apply valid_finite in Vx as [Ex Bx], Vy as [Ey By]. cbn [magAtMost magAtLeast] in Hx, Hy.
  cbn [SFdiv]. unfold SFdiv_core_binary. cbn [Zdigits2].
  set (e' := Z.min _ _). set (s := ex - ey - e').
  assert (0 <= s) as Hs by (subst s e'; lia).
  set (m' := match s with Z0 => _ | Zpos _ => _ | Zneg _ => _ end).
  assert (m' = Zpos mx * 2 ^ s) as Em'.
  { subst m'. destruct s as [|p|p] eqn:Es; [lia| |lia].
    by rewrite Z.shiftl_mul_pow2. }
  pose proof (Z_div_mod m' (Zpos my) ltac:(lia)) as Hdiv.
  destruct (Z.div_eucl m' (Zpos my)) as [q r]. destruct Hdiv as [Hq Hr].
  rewrite Em' in Hq.
  destruct (quotient_digits mx my s q r Hs Hq Hr) as [Hq0 Hqd].
  assert (e' <= Z.max (a - b - 53) (-1074)) as He'.
  { subst e'. unfold fexp, emin, prec, emax. lia. }
  apply binary_round_aux_mag; [done| |lia..]. subst s. lia.
Qed.

#[local] Close Scope Z_scope.

Lemma finiteBelow_spec k x : finiteBelow k x = true <-> magAtMost k (Prim2SF x).
Proof.
  unfold finiteBelow. destruct (Prim2SF x); cbn [magAtMost]; try done.
  apply Z.leb_le.
Qed.

Lemma below_mono a k x : finiteBelow a x = true -> (a <= k)%Z -> finiteBelow k x = true.
Proof.
  rewrite !finiteBelow_spec. destruct (Prim2SF x); cbn [magAtMost]; try done. lia.
Qed.

Lemma below_finite k x : finiteBelow k x = true -> isFinite x = true.
Proof. unfold finiteBelow, isFinite. by destruct (Prim2SF x). Qed.

Lemma finite_notNaN x : isFinite x = true -> PrimFloat.is_nan x = false.
Proof.
  intros H. apply is_nan_spec. unfold isFinite in H. by destruct (Prim2SF x).
Qed.

Lemma mul_below a b x y :
  finiteBelow a x = true -> finiteBelow b y = true ->
  (0 <= a)%Z -> (0 <= b)%Z -> (a + b <= 1023)%Z ->
  finiteBelow (a + b + 1) (x * y) = true.
Proof.
  rewrite !finiteBelow_spec, mul_spec. intros.
  apply SFmul_mag; auto using Prim2SF_valid.
Qed.

Lemma add_below a b x y :
  finiteBelow a x = true -> finiteBelow b y = true ->
  (0 <= a)%Z -> (0 <= b)%Z -> (Z.max a b <= 1022)%Z ->
  finiteBelow (Z.max a b + 2) (x + y) = true.
Proof.
  rewrite !finiteBelow_spec, add_spec. intros.
  apply SFadd_mag; auto using Prim2SF_valid.
Qed.

Lemma sub_below a b x y :
  finiteBelow a x = true -> finiteBelow b y = true ->
  (0 <= a)%Z -> (0 <= b)%Z -> (Z.max a b <= 1022)%Z ->
  finiteBelow (Z.max a b + 2) (x - y) = true.
Proof.
  rewrite !finiteBelow_spec, sub_spec. intros.
  apply SFsub_mag; auto using Prim2SF_valid.
Qed.

Lemma div_below a b x y :
  finiteBelow a x = true -> magAtLeast b (Prim2SF y) ->
  (1 <= b)%Z -> (b <= a)%Z -> (a <= 1023)%Z ->
  finiteBelow (a + 1) (x / y) = true.
Proof.
  rewrite !finiteBelow_spec, div_spec. intros.
  apply (SFdiv_mag _ _ a b a); auto using Prim2SF_valid; lia.
Qed.

Lemma div_12_below a x :
  finiteBelow a x = true -> (4 <= a)%Z -> (a <= 1023)%Z ->
  finiteBelow a (x / 12) = true.
Proof.
  rewrite !finiteBelow_spec, div_spec. intros.
  replace a with (a - 1 + 1)%Z at 1 by lia.
  apply (SFdiv_mag _ _ a 4 (a - 1)); auto using Prim2SF_valid; try lia.
  vm_compute. discriminate.
Qed.

Lemma div_100_below a x :
  finiteBelow a x = true -> (4 <= a)%Z -> (a <= 1023)%Z ->
  finiteBelow a (x / 100) = true.
Proof.
  rewrite !finiteBelow_spec, div_spec. intros.
  replace a with (a - 1 + 1)%Z at 1 by lia.
  apply (SFdiv_mag _ _ a 7 (a - 1)); auto using Prim2SF_valid; try lia.
  vm_compute. discriminate.
Qed.

(** A Number between a bound that is not negative and a finite bound. *)
Lemma range_below x lo hi mh eh :
  PrimFloat.is_nan x = false -> (x <? lo)%float = false -> (hi <? x)%float = false ->
  (0 <=? lo)%float = true -> Prim2SF hi = S754_finite false mh eh ->
  finiteBelow (53 + eh) x = true.
Proof.
  intros Hn Hlo Hhi H0 Eh.
  rewrite FloatAxioms.ltb_spec in Hlo, Hhi. rewrite FloatAxioms.leb_spec in H0.
  apply is_nan_spec in Hn. apply finiteBelow_spec.
  pose proof (Prim2SF_valid x) as Vx. rewrite Eh in Hhi.
  change (Prim2SF 0) with (S754_zero false) in H0.
  destruct (Prim2SF x) as [sx|sx| |sx m e]; cbn [magAtMost]; try done.
  - destruct sx; [|done]. by destruct (Prim2SF lo) as [[]|[]| |[]].
  - apply valid_finite in Vx as [Ex Bx].
    destruct sx.
    + by destruct (Prim2SF lo) as [[]|[]| |[]].
    + unfold SFltb, SFcompare in Hhi. revert Hhi.
      destruct (Z.compare_spec eh e); intros Hhi; try done;
        clear Hhi Hlo H0 Hn Eh; lia.
Qed.

(** A whole Number other than zero is at least 1 in absolute value. *)
Lemma integer_magGe x s m e :
  isIntegerF x = true -> Prim2SF x = S754_finite s m e -> magAtLeast 1 (Prim2SF x).
Proof.
  unfold isIntegerF. intros Hint E. rewrite E in *. cbn [magAtLeast].
  destruct e as [|p|p]; [lia..|].
  apply Z.eqb_eq, Z.mod_divide in Hint; [|by apply Z.pow_nonzero].
  destruct Hint as [k Hk].
  destruct (digits2_pos_bounds m) as [_ Hd].
  assert (0 < 2 ^ Zpos p)%Z by (apply Z.pow_pos_nonneg; lia).
  assert (2 ^ Zpos p < 2 ^ Zpos (digits2_pos m))%Z as Hlt.
  { assert (1 <= k)%Z by (clear - Hk H; nia).
    apply Z.le_lt_trans with (Zpos m); [|done].
    rewrite Hk. clear - H H0. nia. }
  apply Z.pow_lt_mono_r_iff in Hlt; lia.
Qed.

Lemma index_below k : k <= 120 -> finiteBelow 7 (F k) = true.
Proof. intros Hk. upto_120 k. Qed.

End NumberFacts.

(** ** Validation *)

Module ValidationFacts.
Import JS Validation Notions NumberFacts.

(** *** Messages are never empty *)

Lemma append_nonempty (a : string) (c : ascii) (b : string) :
  String.eqb (a +:+ String c b) "" = false.
Proof. by destruct a. Qed.

Lemma validateField_nonempty name v sch e :
  validateField name v sch = Some e -> String.eqb e "" = false.
Proof.
  unfold validateField. intros H.
  repeat case_match; simplify_eq; apply append_nonempty.
Qed.

(** *** The loop over the schema *)

Section Fold.
Context (raw : obj).
Implicit Types (l : list (string * Schema)) (st : ValidationResult).

Lemma fieldStep_eq st name sch :
  fieldStep raw st (name, sch) =
    {| isValid := match fieldError raw name sch with
                  | Some _ => false
                  | None => isValid st
                  end;
       errors := match fieldError raw name sch with
                 | Some e => <[name := e]> (errors st)
                 | None => errors st
                 end;
       coercedInputs := <[name := coercedAt raw name sch]> (coercedInputs st) |}.
Proof.
  unfold fieldStep, fieldError, coercedAt.
  destruct (validateField _ _ _) as [e|] eqn:E; [|done].
  by rewrite (validateField_nonempty _ _ _ _ E).
Qed.

Lemma fold_isValid l st :
  isValid (fold_left (fieldStep raw) l st) = true ->
  isValid st = true /\ Forall (fun '(name, sch) => fieldError raw name sch = None) l.
Proof.
  revert st. induction l as [|[name sch] l IH]; intros st H; cbn [fold_left] in *; [done|].
  apply IH in H as [H1 H2]. rewrite fieldStep_eq in H1. cbn in H1.
  destruct (fieldError raw name sch) eqn:E; [done|].
  split; [done|]. constructor; done.
Qed.

Lemma fold_isValid_intro l st :
  isValid st = true -> Forall (fun '(name, sch) => fieldError raw name sch = None) l ->
  isValid (fold_left (fieldStep raw) l st) = true /\
  errors (fold_left (fieldStep raw) l st) = errors st.
Proof.
  revert st. induction l as [|[name sch] l IH]; intros st H Hall; cbn [fold_left]; [done|].
  apply Forall_cons in Hall as [H1 H2].
  destruct (IH (fieldStep raw st (name, sch))) as [-> ->]; [|done|].
  - rewrite fieldStep_eq. cbn. by rewrite H1.
  - rewrite fieldStep_eq. cbn. by rewrite H1.
Qed.

Lemma fold_coerced_other l st name :
  name ∉ l.*1 ->
  coercedInputs (fold_left (fieldStep raw) l st) !! name = coercedInputs st !! name.
Proof.
  revert st. induction l as [|[n sch] l IH]; intros st Hn;
    cbn [fold_left fmap list_fmap fst] in *; [done|].
  apply not_elem_of_cons in Hn as [Hne Hn].
  rewrite IH by done. rewrite fieldStep_eq. cbn. by rewrite lookup_insert_ne.
Qed.

Lemma fold_coerced l st name sch :
  NoDup l.*1 -> (name, sch) ∈ l ->
  coercedInputs (fold_left (fieldStep raw) l st) !! name = Some (coercedAt raw name sch).
Proof.
  revert st. induction l as [|[n s] l IH]; intros st Hnd Hin;
    cbn [fold_left fmap list_fmap fst] in *.
  - by apply elem_of_nil in Hin.
  - apply NoDup_cons in Hnd as [Hn Hnd].
    apply elem_of_cons in Hin as [[= -> ->]|Hin].
    + rewrite fold_coerced_other by done. rewrite fieldStep_eq. cbn.
      by rewrite lookup_insert_eq.
    + by apply IH.
Qed.

Lemma fold_errors_other l st name :
  name ∉ l.*1 ->
  errors (fold_left (fieldStep raw) l st) !! name = errors st !! name.
Proof.
  revert st. induction l as [|[n sch] l IH]; intros st Hn;
    cbn [fold_left fmap list_fmap fst] in *; [done|].
  apply not_elem_of_cons in Hn as [Hne Hn].
  rewrite IH by done. rewrite fieldStep_eq. cbn.
  destruct (fieldError raw n sch); [by rewrite lookup_insert_ne|done].
Qed.

Lemma fold_errors l st name sch :
  NoDup l.*1 -> (name, sch) ∈ l ->
  errors (fold_left (fieldStep raw) l st) !! name =
    match fieldError raw name sch with
    | Some e => Some e
    | None => errors st !! name
    end.
Proof.
  revert st. induction l as [|[n s] l IH]; intros st Hnd Hin;
    cbn [fold_left fmap list_fmap fst] in *.
  - by apply elem_of_nil in Hin.
  - apply NoDup_cons in Hnd as [Hn Hnd].
    apply elem_of_cons in Hin as [[= -> ->]|Hin].
    + rewrite fold_errors_other by done. rewrite fieldStep_eq. cbn.
      destruct (fieldError raw n s); [by rewrite lookup_insert_eq|done].
    + rewrite IH by done. destruct (fieldError raw name sch); [done|].
      rewrite fieldStep_eq. cbn.
      assert (n ≠ name).
      { intros ->. apply Hn. apply list_elem_of_fmap. by exists (name, sch). }
      destruct (fieldError raw n s); [by rewrite lookup_insert_ne|done].
Qed.

End Fold.

Lemma schema_NoDup : NoDup validationSchema.*1.
Proof. apply (bool_decide_unpack _). by vm_compute. Qed.

Lemma schema_functional name s1 s2 :
  (name, s1) ∈ validationSchema -> (name, s2) ∈ validationSchema -> s1 = s2.
Proof.
  intros H1 H2.
  apply (elem_of_list_to_map_1 (M := gmap string)) in H1, H2; try apply schema_NoDup.
  congruence.
Qed.

Lemma fieldLoop_eq raw :
  fieldLoop raw = fold_left (fieldStep raw) validationSchema
                    {| isValid := true; errors := ∅; coercedInputs := ∅ |}.
Proof. reflexivity. Qed.

Lemma coerced_lookup raw name sch :
  (name, sch) ∈ validationSchema ->
  get (coercedInputs (fieldLoop raw)) name = coercedAt raw name sch.
Proof.
  intros Hin. unfold get. rewrite fieldLoop_eq.
  by rewrite (fold_coerced raw validationSchema _ name sch schema_NoDup Hin).
Qed.

Lemma errors_lookup raw name sch :
  (name, sch) ∈ validationSchema ->
  errors (fieldLoop raw) !! name = fieldError raw name sch.
Proof.
  intros Hin. rewrite fieldLoop_eq.
  rewrite (fold_errors raw validationSchema _ name sch schema_NoDup Hin).
  by destruct (fieldError raw name sch).
Qed.

(** *** The whole of [validateInputs] *)

Lemma coerceValue_date v :
  coerceValue v "date" = VNull \/ exists s, coerceValue v "date" = VStr s.
Proof.
  unfold coerceValue. destruct (isAbsent v); [by left|]. cbn.
  destruct v; try by left.
  destruct (isYearMonth s); [|by left].
  destruct (_ && _); [right; eauto | by left].
Qed.

Lemma validateCrossFields_shape now inputs :
  get inputs "startMonth" = VNull \/ (exists s, get inputs "startMonth" = VStr s) ->
  exists out, validateCrossFields now inputs = Ok (rampErrors inputs, out).
Proof.
  unfold validateCrossFields. fold (rampErrors inputs).
  intros [-> | [s ->]].
  - by eexists.
  - destruct (ToBoolean (VStr s)); [|by eexists].
    destruct (Date_lt _ _); by eexists.
Qed.

Lemma validateCrossFields_errors now inputs errs out :
  validateCrossFields now inputs = Ok (errs, out) -> errs = rampErrors inputs.
Proof.
  unfold validateCrossFields. fold (rampErrors inputs).
  destruct (ToBoolean _); [|by intros [= <- _]].
  destruct (get inputs "startMonth"); try done.
  destruct (Date_lt _ _); by intros [= <- _].
Qed.

Lemma crossCheck_eq now st :
  get (coercedInputs st) "startMonth" = VNull
  \/ (exists s, get (coercedInputs st) "startMonth" = VStr s) ->
  exists out,
    crossCheck now st =
      Ok ({| isValid := if (0 <? size (rampErrors (coercedInputs st)))%nat
                        then false else isValid st;
             errors := rampErrors (coercedInputs st) ∪ errors st;
             coercedInputs := coercedInputs st |}, out).
Proof.
  intros H. destruct (validateCrossFields_shape now _ H) as [out E].
  exists out. unfold crossCheck. by rewrite E.
Qed.

Lemma crossCheck_inv now st r out :
  crossCheck now st = Ok (r, out) ->
  isValid r = (if (0 <? size (rampErrors (coercedInputs st)))%nat
               then false else isValid st)
  /\ errors r = rampErrors (coercedInputs st) ∪ errors st
  /\ coercedInputs r = coercedInputs st.
Proof.
  unfold crossCheck.
  destruct (validateCrossFields now (coercedInputs st)) as [[errs o]| |] eqn:E; try done.
  apply validateCrossFields_errors in E as ->. by intros [= <- _].
Qed.

(** [validateInputs] never throws, and what it returns, but for the
    console, does not depend on the current date. *)
Lemma validateInputs_eq now raw :
  exists out,
    validateInputs now raw =
      Ok ({| isValid := if (0 <? size (rampErrors (coercedInputs (fieldLoop raw))))%nat
                        then false else isValid (fieldLoop raw);
             errors := rampErrors (coercedInputs (fieldLoop raw)) ∪ errors (fieldLoop raw);
             coercedInputs := coercedInputs (fieldLoop raw) |}, out).
Proof.
  apply crossCheck_eq.
  rewrite (coerced_lookup raw "startMonth" _ ltac:(in_schema)).
  apply coerceValue_date.
Qed.

Lemma validateInputs_inv now raw r out :
  validateInputs now raw = Ok (r, out) ->
  isValid r = (if (0 <? size (rampErrors (coercedInputs (fieldLoop raw))))%nat
               then false else isValid (fieldLoop raw))
  /\ errors r = rampErrors (coercedInputs (fieldLoop raw)) ∪ errors (fieldLoop raw)
  /\ coercedInputs r = coercedInputs (fieldLoop raw).
Proof. apply crossCheck_inv. Qed.

(** *** What a field without error looks like *)

Lemma validateField_None name v sch :
  validateField name v sch = None ->
  isAbsent v = false
  /\ (type sch = "integer" -> Number_isInteger v = true)
  /\ (forall x lo, v = VNum x -> min sch = Some lo -> (x <? lo)%float = false)
  /\ (forall x hi, v = VNum x -> max sch = Some hi -> (hi <? x)%float = false).
Proof.
  unfold validateField. intros H.
  destruct (isAbsent v); [done|]. split; [done|].
  destruct (String.eqb (type sch) "integer") eqn:Ei.
  - destruct (Number_isInteger v) eqn:En; [|done]. split; [done|].
    cbn in H. repeat case_match; simplify_eq; split; intros; simplify_eq; done.
  - split. { intros Ht. rewrite Ht in Ei. done. }
    cbn in H. repeat case_match; simplify_eq; split; intros; simplify_eq; done.
Qed.

Lemma valid_field now raw r out name sch :
  validateInputs now raw = Ok (r, out) -> isValid r = true ->
  (name, sch) ∈ validationSchema ->
  get (coercedInputs r) name = coercedAt raw name sch /\ fieldError raw name sch = None.
Proof.
  intros Hv Hok Hin. apply validateInputs_inv in Hv as (Hi & _ & ->).
  split; [by apply coerced_lookup|].
  rewrite Hok in Hi. destruct (0 <? size _)%nat; [done|].
  symmetry in Hi. rewrite fieldLoop_eq in Hi. apply fold_isValid in Hi as [_ Hall].
  rewrite Forall_forall in Hall. by apply (Hall (name, sch)).
Qed.

(** A validated input has a whole horizon of 1 to 10 years and a start
    month that is a string. *)
Lemma validated_shape inputs :
  Validated inputs ->
  exists h : nat, 1 <= h <= 10 /\ get inputs "timeHorizonYears" = VNum (F h)
    /\ exists s, get inputs "startMonth" = VStr s.
Proof.
  intros (now & raw & r & out & Hv & Hok & <-).
  destruct (valid_field now raw r out "timeHorizonYears" _ Hv Hok ltac:(in_schema))
    as [Hc He].
  destruct (valid_field now raw r out "startMonth" _ Hv Hok ltac:(in_schema))
    as [Hc' He'].
  rewrite Hc, Hc'. unfold fieldError in He, He'.
  apply validateField_None in He as (_ & Hint & Hlo & Hhi).
  apply validateField_None in He' as (Habs & _).
  specialize (Hint eq_refl).
  destruct (coercedAt raw "timeHorizonYears" _) as [| | |x|] eqn:E; try done.
  destruct (small_integer x Hint (Hlo x 1%float eq_refl eq_refl)
              (Hhi x 10%float eq_refl eq_refl)) as (j & Hj & ->).
  exists (Z.to_nat j). split; [lia|]. split.
  { unfold F. by rewrite Z2Nat.id by lia. }
  unfold coercedAt in *. cbn [type] in *.
  destruct (coerceValue_date (get raw "startMonth")) as [Hn | [s Hs]].
  - by rewrite Hn in Habs.
  - eauto.
Qed.

(** *** The numeric fields of a validated input *)

Lemma coerce_number v ty :
  ty = "integer" \/ ty = "number" -> isAbsent (coerceValue v ty) = false ->
  exists x, coerceValue v ty = VNum x /\ PrimFloat.is_nan x = false.
Proof.
  unfold coerceValue. intros Hty H. destruct (isAbsent v); [done|].
  destruct Hty as [-> | ->].
  - rewrite String.eqb_refl in *. destruct (PrimFloat.is_nan (parseInt10 v)) eqn:E; [done|].
    eauto.
  - change (String.eqb "number" "integer") with false in *. rewrite String.eqb_refl in *.
    destruct (PrimFloat.is_nan (parseFloat v)) eqn:E; [done|]. eauto.
Qed.

(** A validated numeric field is a Number within the bounds of the schema. *)
Lemma validated_number inputs name sch lo hi mh eh :
  Validated inputs -> (name, sch) ∈ validationSchema ->
  type sch = "integer" \/ type sch = "number" ->
  min sch = Some lo -> max sch = Some hi ->
  (0 <=? lo)%float = true -> Prim2SF hi = S754_finite false mh eh ->
  exists x, get inputs name = VNum x /\ finiteBelow (53 + eh) x = true
    /\ (type sch = "integer" -> isIntegerF x = true).
Proof.
  intros (now & raw & r & out & Hv & Hok & <-) Hin Hty Hmin Hmax H0 Eh.
  destruct (valid_field now raw r out name sch Hv Hok Hin) as [Hc He].
  rewrite Hc. unfold fieldError in He.
  apply validateField_None in He as (Habs & Hint & Hlo & Hhi).
  unfold coercedAt in *.
  destruct (coerce_number _ _ Hty Habs) as (x & Ex & Hn).
  rewrite Ex in *. exists x. split; [done|]. split.
  - by apply (range_below x lo hi mh eh); eauto.
  - intros Hi. by apply Hint.
Qed.

Lemma validated_numeric inputs name sch :
  Validated inputs -> (name, sch) ∈ validationSchema ->
  type sch = "integer" \/ type sch = "number" ->
  exists x, get inputs name = VNum x /\ finiteBelow 24 x = true
    /\ (type sch = "integer" -> isIntegerF x = true).
Proof.
  intros Hv Hin Hty. pose proof Hin as Hin'.
  apply list_elem_of_In in Hin'. cbn [In validationSchema] in Hin'.
  repeat (destruct Hin' as [[= <- <-]|Hin'];
    [ first
        [ by destruct Hty
        | edestruct (validated_number inputs) as (x & Ex & Hb & Hi);
          [exact Hv|exact Hin|exact Hty|reflexivity|reflexivity|reflexivity|reflexivity|];
          exists x; split; [exact Ex|]; split; [|exact Hi];
          apply (below_mono _ _ _ Hb); done ] |]).
  done.
Qed.

End ValidationFacts.

(** ** The full engine *)

Module EngineFacts.
Import JS Validation Formulas Notions NumberFacts ValidationFacts.

(** *** Running sums *)

Lemma runningSum_length acc l : length (runningSum acc l) = length l.
Proof. revert acc. induction l; intros; cbn; [done|]. by rewrite IHl. Qed.

Lemma runningSum_head acc l x :
  l !! 0 = Some x -> runningSum acc l !! 0 = Some (acc + x)%float.
Proof. destruct l; intros [= ->]. done. Qed.

Lemma runningSum_step acc l i c x :
  runningSum acc l !! i = Some c -> l !! S i = Some x ->
  runningSum acc l !! S i = Some (c + x)%float.
Proof.
  revert acc i. induction l as [|y l IH]; intros acc i Hc Hx; [done|].
  destruct i as [|i]; cbn in *.
  - injection Hc as <-. by apply runningSum_head.
  - by apply IH.
Qed.

(** *** The loop of [calculateTimeline] *)

Section Loop.
Context (divide : float -> float -> float) (inputs : obj) (T : float)
  (costs : ProgramCosts) (n : nat).

Lemma timelineLoop_run : n <= 120 -> forall d k fuel st,
  k + d = n -> d <= fuel ->
  timelineLoopWith divide fuel inputs T costs (F n) (F k) st = Ok (runFrom divide inputs T costs n (seq k d) st).
Proof.
  intros Hn. induction d as [|d IH]; intros k fuel st Hk Hf.
  - assert (k = n) as -> by lia.
    destruct (F_order n n) as [H _]; [lia..|].
    rewrite Nat.ltb_irrefl in H.
    destruct fuel; cbn [timelineLoopWith]; by rewrite H.
  - destruct (F_order k n) as [H _]; [lia..|].
    replace (k <? n)%nat with true in H by (symmetry; apply Nat.ltb_lt; lia).
    destruct fuel as [|fuel]; [lia|]. cbn [timelineLoopWith]. rewrite H.
    rewrite F_succ by lia. rewrite IH by lia. done.
Qed.

Lemma iteration_eq k st :
  timelineIterationWith divide inputs T costs (F n) (F k) st =
    {| arrays :=
         {| months := months (arrays st) ++ [(F k + 1)%float];
            savingsMonthly := savingsMonthly (arrays st) ++ [savingsAt divide inputs T k];
            costsMonthly := costsMonthly (arrays st) ++ [costsAt divide inputs costs n k];
            netMonthly := netMonthly (arrays st) ++ [netAt divide inputs T costs n k];
            cumNetMonthly := cumNetMonthly (arrays st)
                             ++ [(cumulativeNet st + netAt divide inputs T costs n k)%float] |};
       cumulativeNet := (cumulativeNet st + netAt divide inputs T costs n k)%float |}.
Proof. reflexivity. Qed.

Lemma runFrom_cons k ks st :
  runFrom divide inputs T costs n (k :: ks) st
  = runFrom divide inputs T costs n ks (timelineIterationWith divide inputs T costs (F n) (F k) st).
Proof. reflexivity. Qed.

Lemma runFrom_arrays ks st :
  months (arrays (runFrom divide inputs T costs n ks st))
    = months (arrays st) ++ ((fun k => (F k + 1)%float) <$> ks)
  /\ savingsMonthly (arrays (runFrom divide inputs T costs n ks st))
    = savingsMonthly (arrays st) ++ (savingsAt divide inputs T <$> ks)
  /\ costsMonthly (arrays (runFrom divide inputs T costs n ks st))
    = costsMonthly (arrays st) ++ (costsAt divide inputs costs n <$> ks)
  /\ netMonthly (arrays (runFrom divide inputs T costs n ks st))
    = netMonthly (arrays st) ++ (netAt divide inputs T costs n <$> ks)
  /\ cumNetMonthly (arrays (runFrom divide inputs T costs n ks st))
    = cumNetMonthly (arrays st)
      ++ runningSum (cumulativeNet st) (netAt divide inputs T costs n <$> ks).
Proof.
  revert st. induction ks as [|k ks IH]; intros st.
  - cbn. by rewrite !app_nil_r.
  - rewrite runFrom_cons.
    destruct (IH (timelineIterationWith divide inputs T costs (F n) (F k) st))
      as (-> & -> & -> & -> & ->).
    rewrite iteration_eq. cbn.
    by rewrite <- !app_assoc.
Qed.

(** The five arrays after the whole loop. *)
Lemma run_arrays (N : nat) :
  months (arrays (runFrom divide inputs T costs n (seq 0 N) initialState)) = (fun k => (F k + 1)%float) <$> seq 0 N
  /\ savingsMonthly (arrays (runFrom divide inputs T costs n (seq 0 N) initialState))
     = savingsAt divide inputs T <$> seq 0 N
  /\ costsMonthly (arrays (runFrom divide inputs T costs n (seq 0 N) initialState))
     = costsAt divide inputs costs n <$> seq 0 N
  /\ netMonthly (arrays (runFrom divide inputs T costs n (seq 0 N) initialState))
     = netAt divide inputs T costs n <$> seq 0 N
  /\ cumNetMonthly (arrays (runFrom divide inputs T costs n (seq 0 N) initialState))
     = runningSum 0 (netAt divide inputs T costs n <$> seq 0 N).
Proof. apply (runFrom_arrays (seq 0 N) initialState). Qed.

Lemma lookup_fmap_seq {A} (f : nat -> A) (N i : nat) :
  i < N -> (f <$> seq 0 N) !! i = Some (f i).
Proof. intros Hi. by rewrite list_lookup_fmap, lookup_seq_lt. Qed.

End Loop.

(** The arrays of a horizon of [h] years. *)
Lemma calculateTimelineWith_run divide inputs T costs (h : nat) s fuel :
  1 <= h <= 10 ->
  get inputs "timeHorizonYears" = VNum (F h) ->
  get inputs "startMonth" = VStr s ->
  12 * h <= fuel ->
  calculateTimelineWith divide fuel inputs T costs
  = Ok (arrays (runFrom divide inputs T costs (12 * h) (seq 0 (12 * h)) initialState)).
Proof.
  intros Hh Hy Hs Hf. unfold calculateTimelineWith. rewrite Hy, Hs. cbn [ToNumber].
  pose proof (F_times_12 h ltac:(lia)) as E.
  apply FloatAxioms.Leibniz.eqb_spec in E. rewrite E.
  change 0%float with (F 0).
  rewrite (timelineLoop_run divide inputs T costs (12 * h) ltac:(lia) (12 * h) 0)
    by lia.
  reflexivity.
Qed.

(** *** [calculatePayback] *)

Lemma paybackFrom_le i l : i <= paybackFrom i l <= i + length l.
Proof.
  revert i. induction l as [|x l IH]; intros i; cbn; [lia|].
  destruct (0 <=? x)%float; [lia|]. specialize (IH (i + 1)). lia.
Qed.

Lemma paybackFrom_first i l j x :
  l !! j = Some x -> (0 <=? x)%float = true ->
  (forall j' y, j' < j -> l !! j' = Some y -> (0 <=? y)%float = false) ->
  paybackFrom i l = i + j + 1.
Proof.
  revert i j. induction l as [|y l IH]; intros i j Hj Hx Hbefore; [done|].
  destruct j as [|j]; cbn in *.
  - injection Hj as ->. rewrite Hx. lia.
  - rewrite (Hbefore 0 y); [|lia|done].
    rewrite (IH (i + 1) j); [lia|done..|].
    intros j' z ? ?. apply (Hbefore (S j') z); [lia|done].
Qed.

Lemma paybackFrom_none i l :
  (forall j x, l !! j = Some x -> (0 <=? x)%float = false) ->
  paybackFrom i l = i + length l.
Proof.
  revert i. induction l as [|y l IH]; intros i H; cbn; [lia|].
  rewrite (H 0 y) by done.
  rewrite IH by (intros j x ?; by apply (H (S j) x)). lia.
Qed.

(** *** Divisions by zero *)

Section Divisor.
Context (divide : float -> float -> float) (Hdiv : agreesOffZero divide).
Context (inputs : obj) (T : float) (costs : ProgramCosts) (n : nat).

Lemma rampFactor_agrees k :
  k <= 120 ->
  rampFactorWith divide (get inputs "utilisationRampMonths") (F k)
  = rampFactorAt (get inputs "utilisationRampMonths") (F k).
Proof.
  intros Hk. unfold rampFactorAt, rampFactorWith.
  destruct (F k <? _)%float eqn:E; [|done].
  apply Hdiv. eapply above_nonneg_nonzero; [|done]. by apply F_nonneg.
Qed.

Lemma savingsAt_agrees k :
  k <= 120 -> savingsAt divide inputs T k = savingsAt PrimFloat.div inputs T k.
Proof.
  intros Hk. unfold savingsAt. rewrite rampFactor_agrees by done.
  by rewrite (Hdiv T 12%float eq_refl).
Qed.

Lemma costsAt_agrees k :
  costsAt divide inputs costs n k = costsAt PrimFloat.div inputs costs n k.
Proof.
  unfold costsAt.
  by rewrite !(fun a => Hdiv a 12%float eq_refl), !(fun a => Hdiv a 100%float eq_refl).
Qed.

Lemma runFrom_agrees ks st :
  Forall (fun k => k <= 120) ks ->
  runFrom divide inputs T costs n ks st = runFrom PrimFloat.div inputs T costs n ks st.
Proof.
  revert st. induction ks as [|k ks IH]; intros st Hks; [done|].
  apply Forall_cons in Hks as [Hk Hks].
  rewrite !runFrom_cons, !iteration_eq. unfold netAt.
  rewrite savingsAt_agrees, costsAt_agrees by done. by apply IH.
Qed.

End Divisor.

(** *** The engine on a validated input *)

(** The result of [calculateROI] for a horizon of [h] years: the run
    returns, with the arrays the loop builds over the indices 0 ... 12h-1. *)
Lemma calculateROI_run inputs (h : nat) s :
  1 <= h <= 10 ->
  get inputs "timeHorizonYears" = VNum (F h) ->
  get inputs "startMonth" = VStr s ->
  exists out,
    (forall fuel, 12 * h <= fuel -> calculateROI fuel inputs = Ok out)
    /\ timeline out
       = arrays (runFrom PrimFloat.div inputs (totalSavingsAnnual out) (costs out)
                   (12 * h) (seq 0 (12 * h)) initialState)
    /\ paybackMonths out = calculatePayback (cumNetMonthly (timeline out))
    /\ roiSimplePct out
       = calculateSimpleROI
           (totalSavingsAnnual out * ToNumber (get inputs "timeHorizonYears"))%float
           (totalCostsOf inputs (costs out)).
Proof.
  intros Hh Hy Hs. eexists. split.
  - intros fuel Hf. unfold calculateROI, calculateTimeline.
    rewrite (calculateTimelineWith_run _ inputs _ _ h s fuel Hh Hy Hs Hf).
    reflexivity.
  - done.
Qed.

Lemma horizon_months (h : nat) : h <= 10 -> (F h * 12)%float = F (12 * h).
Proof. intros Hh. by apply FloatAxioms.Leibniz.eqb_spec, F_times_12. Qed.

(** *** The Numbers of the timeline are finite *)

#[local] Open Scope float_scope.

(** [below] bounds an arithmetic expression from the bounds of its operands,
    those of the variables being in the context. *)
Ltac below :=
  lazymatch goal with
  | |- finiteBelow _ (_ / 12) = true => eapply div_12_below; [below|lia|lia]
  | |- finiteBelow _ (_ / 100) = true => eapply div_100_below; [below|lia|lia]
  | |- finiteBelow _ (_ * _) = true => eapply mul_below; [below|below|lia|lia|lia]
  | |- finiteBelow _ (_ + _) = true => eapply add_below; [below|below|lia|lia|lia]
  | |- finiteBelow _ (_ - _) = true => eapply sub_below; [below|below|lia|lia|lia]
  | |- _ => eassumption
  end.

Ltac below_by := eapply below_mono; [below|lia].

(** The Number [x] of the validated numeric field [name], with its bound. *)
Ltac number_field Hv name x :=
  let E := fresh "E" in
  let B := fresh "B" in
  destruct (validated_numeric _ name _ Hv ltac:(in_schema)
              ltac:(first [by left | by right])) as (x & E & B & _);
  rewrite ?E in *.

Lemma totalSavings_below inputs :
  Validated inputs ->
  finiteBelow 160
    (calculateTotalSavings
       (calculateFuelSavings inputs (calculateBaselineFuelCost inputs))
       (calculateAccidentSavings inputs) (calculateInsuranceSavings inputs)) = true.
Proof.
  intros Hv.
  unfold calculateTotalSavings, calculateFuelSavings, calculateBaselineFuelCost,
    calculateAccidentSavings, calculateInsuranceSavings.
  number_field Hv "vehicleCount" vc.
  number_field Hv "annualKmPerVehicle" km.
  number_field Hv "fuelConsumptionLPer100km" consumption.
  number_field Hv "fuelPricePerLitre" price.
  number_field Hv "fuelSavingsPct" fuelPct.
  number_field Hv "adoptionPct" adoption.
  number_field Hv "baselineAccidentsPerYear" accidents.
  number_field Hv "accidentReductionPct" accidentPct.
  number_field Hv "avgAccidentCost" accidentCost.
  number_field Hv "annualInsurancePremium" premium.
  number_field Hv "insuranceReductionPct" insurancePct.
  cbn [ToNumber]. below_by.
Qed.

Lemma costs_below inputs :
  Validated inputs ->
  finiteBelow 49 (capexHardware (calculateProgramCosts inputs)) = true
  /\ finiteBelow 54 (opexSubscriptionAnnual (calculateProgramCosts inputs)) = true
  /\ (exists o, oneOff (calculateProgramCosts inputs) = VNum o
                /\ finiteBelow 26 o = true)
  /\ finiteBelow 49 (maintenanceAnnual (calculateProgramCosts inputs)) = true.
Proof.
  intros Hv.
  unfold calculateProgramCosts.
  cbn [capexHardware opexSubscriptionAnnual oneOff maintenanceAnnual].
  number_field Hv "vehicleCount" vc.
  number_field Hv "hardwareCostPerVehicle" hardware.
  number_field Hv "subscriptionPerVehiclePerMonth" subscription.
  number_field Hv "implementationOneOff" implementation.
  number_field Hv "trainingOneOff" training.
  number_field Hv "maintenancePerVehiclePerYear" maintenance.
  assert (finiteBelow 4 12 = true) by reflexivity.
  cbn [ToNumber add].
  split; [below_by|]. split; [below_by|]. split; [|below_by].
  eexists. split; [reflexivity|below_by].
Qed.

Lemma ramp_below r k :
  isIntegerF r = true -> finiteBelow 24 r = true -> k <= 120 ->
  finiteBelow 10 (rampFactorAt (VNum r) (F k)) = true.
Proof.
  intros Hint Hr Hk. unfold rampFactorAt, rampFactorWith. cbn [ToNumber].
  destruct (F k <? r) eqn:E; [|reflexivity].
  pose proof (above_nonneg_nonzero (F k) r (F_nonneg k Hk) E) as Hz.
  assert (exists s m e, Prim2SF r = S754_finite s m e) as (s & m & e & Er).
  { rewrite FloatAxioms.eqb_spec in Hz. unfold finiteBelow in Hr.
    destruct (Prim2SF r) as [[]|[]| |]; try done; eauto. }
  pose proof (index_below k Hk). assert (finiteBelow 1 1 = true) by reflexivity.
  eapply below_mono; [eapply (div_below _ 1)|]; [below| |lia..].
  by eapply integer_magGe.
Qed.

Lemma savingsAt_below inputs T k :
  Validated inputs -> finiteBelow 160 T = true -> k <= 120 ->
  finiteBelow 171 (savingsAt PrimFloat.div inputs T k) = true.
Proof.
  intros Hv HT Hk. unfold savingsAt.
  destruct (validated_numeric inputs "utilisationRampMonths" _ Hv ltac:(in_schema)
              ltac:(by left)) as (r & -> & Br & Hint).
  pose proof (ramp_below r k (Hint eq_refl) Br Hk) as Hramp.
  unfold rampFactorAt in Hramp. below_by.
Qed.

Lemma costsAt_below inputs n k :
  Validated inputs ->
  exists c, costsAt PrimFloat.div inputs (calculateProgramCosts inputs) n k = VNum c
            /\ finiteBelow 76 c = true.
Proof.
  intros Hv.
  destruct (costs_below inputs Hv) as (Hcapex & Hopex & (o & Eo & Ho) & Hmaint).
  unfold costsAt. rewrite Eo.
  number_field Hv "resaleRecoveryPctHardware" resale.
  cbn [ToNumber add].
  destruct (F k =? 0); destruct (_ && _); cbn [ToNumber];
    eexists; (split; [reflexivity|below_by]).
Qed.

Lemma netAt_below inputs T n k :
  Validated inputs -> finiteBelow 160 T = true -> k <= 120 ->
  finiteBelow 173 (netAt PrimFloat.div inputs T (calculateProgramCosts inputs) n k)
  = true.
Proof.
  intros Hv HT Hk. unfold netAt.
  pose proof (savingsAt_below inputs T k Hv HT Hk) as Hs.
  destruct (costsAt_below inputs n k Hv) as (c & -> & Hc). cbn [ToNumber]. below_by.
Qed.

Lemma runningSum_below l : forall acc a,
  (0 <= a)%Z -> (a + 2 * Z.of_nat (length l) <= 1022)%Z ->
  finiteBelow a acc = true -> Forall (fun x => finiteBelow a x = true) l ->
  Forall (fun x => finiteBelow (a + 2 * Z.of_nat (length l)) x = true) (runningSum acc l).
Proof.
  induction l as [|x l IH]; intros acc a Ha Hlen Hacc Hall; cbn [runningSum length];
    [constructor|].
  apply Forall_cons in Hall as [Hx Hall]. cbn [length] in Hlen.
  assert (finiteBelow (a + 2) (acc + x) = true) as Hsum.
  { eapply below_mono; [by apply (add_below a a); [| |lia..]|lia]. }
  constructor.
  - eapply below_mono; [exact Hsum|lia].
  - replace (a + 2 * Z.of_nat (S (length l)))%Z
      with (a + 2 + 2 * Z.of_nat (length l))%Z by lia.
    apply IH; [lia|lia|done|].
    eapply Forall_impl; [exact Hall|]. intros y Hy. eapply below_mono; [exact Hy|lia].
Qed.

Lemma calculateROI_parts fuel inputs out :
  calculateROI fuel inputs = Ok out ->
  totalSavingsAnnual out
  = calculateTotalSavings
      (calculateFuelSavings inputs (calculateBaselineFuelCost inputs))
      (calculateAccidentSavings inputs) (calculateInsuranceSavings inputs)
  /\ costs out = calculateProgramCosts inputs.
Proof.
  unfold calculateROI.
  destruct (calculateTimeline _ _ _ _) as [t|e|]; cbn; [|done..].
  by intros [= <-].
Qed.

Lemma eqb_finite x : isFinite x = true -> (x =? x) = true.
Proof.
  intros H. rewrite FloatAxioms.eqb_spec. unfold SFeqb.
  rewrite SFcompare_refl; [done|]. unfold isFinite in H. by destruct (Prim2SF x).
Qed.

Lemma zero_plus_finite x : isFinite x = true -> (0 + x =? x) = true.
Proof.
  intros H. pose proof (zero_plus x) as Hz. unfold sameValueZero in Hz.
  rewrite (finite_notNaN x H), andb_false_r, orb_false_r in Hz. done.
Qed.

(** The Numbers of the timeline of a validated input are finite. *)
Lemma timeline_finite inputs (h : nat) T :
  Validated inputs -> h <= 10 -> finiteBelow 160 T = true ->
  forall i, i < 12 * h ->
    isFinite (savingsAt PrimFloat.div inputs T i) = true
    /\ (exists c, costsAt PrimFloat.div inputs (calculateProgramCosts inputs) (12 * h) i
                  = VNum c /\ isFinite c = true)
    /\ isFinite (netAt PrimFloat.div inputs T (calculateProgramCosts inputs) (12 * h) i)
       = true
    /\ (forall c,
          runningSum 0 (netAt PrimFloat.div inputs T (calculateProgramCosts inputs)
                          (12 * h) <$> seq 0 (12 * h)) !! i = Some c ->
          isFinite c = true).
Proof.
  intros Hv Hh HT i Hi.
  split. { eapply below_finite, savingsAt_below; [done..|lia]. }
  split. { destruct (costsAt_below inputs (12 * h) i Hv) as (c & Ec & Hc).
           exists c. split; [done|]. by eapply below_finite. }
  split. { eapply below_finite, netAt_below; [done..|lia]. }
  intros c Hc.
  pose proof (runningSum_below
    (netAt PrimFloat.div inputs T (calculateProgramCosts inputs) (12 * h)
       <$> seq 0 (12 * h)) 0 173 ltac:(lia)) as Hsum.
  rewrite length_fmap, length_seq in Hsum.
  assert (Forall (fun x => finiteBelow 173 x = true)
            (netAt PrimFloat.div inputs T (calculateProgramCosts inputs) (12 * h)
               <$> seq 0 (12 * h))) as Hnet.
  { apply Forall_fmap, Forall_forall. intros k Hin%elem_of_seq.
    apply netAt_below; [done..|lia]. }
  pose proof (Forall_lookup_1 _ _ i c (Hsum ltac:(lia) eq_refl Hnet) Hc) as Hb.
  cbv beta in Hb. exact (below_finite _ _ Hb).
Qed.

#[local] Close Scope float_scope.

(** C1. For a validated input the engine returns; its payback month is the
    first month, counted from 1, whose cumulative net is at least 0; when no
    month of the horizon is, it is the number of months of the horizon,
    [timeHorizonYears * 12]; it never exceeds that number. *)
Theorem payback_first_month_or_horizon inputs :
  Validated inputs ->
  exists (h : nat) (out : CalculationOutputs),
    1 <= h <= 10
    /\ (ToNumber (get inputs "timeHorizonYears") * 12)%float = F (12 * h)
    /\ (forall fuel, 120 <= fuel -> calculateROI fuel inputs = Ok out)
    /\ length (cumNetMonthly (timeline out)) = 12 * h
    /\ paybackMonths out <= 12 * h
    /\ (forall i x,
          cumNetMonthly (timeline out) !! i = Some x -> (0 <=? x)%float = true ->
          (forall j y, j < i -> cumNetMonthly (timeline out) !! j = Some y ->
                       (0 <=? y)%float = false) ->
          paybackMonths out = i + 1)
    /\ ((forall i x, cumNetMonthly (timeline out) !! i = Some x ->
                     (0 <=? x)%float = false) ->
        paybackMonths out = 12 * h).
Proof.
  intros Hv. destruct (validated_shape inputs Hv) as (h & Hh & Hy & s & Hs).
  destruct (calculateROI_run inputs h s Hh Hy Hs) as (out & Hrun & Ht & Hp & _).
  exists h, out. split; [done|]. split.
  { rewrite Hy. cbn [ToNumber]. apply horizon_months. lia. }
  split; [intros fuel Hf; apply Hrun; lia|].
  assert (Hlen : length (cumNetMonthly (timeline out)) = 12 * h).
  { rewrite Ht.
    destruct (run_arrays PrimFloat.div inputs (totalSavingsAnnual out) (costs out)
                (12 * h) (12 * h)) as (_ & _ & _ & _ & ->).
    by rewrite runningSum_length, length_fmap, length_seq. }
  split; [done|]. rewrite Hp. unfold calculatePayback.
  split; [|split].
  - pose proof (paybackFrom_le 0 (cumNetMonthly (timeline out))). lia.
  - intros i x Hi Hx Hbefore.
    by rewrite (paybackFrom_first 0 _ i x Hi Hx Hbefore).
  - intros Hnone. rewrite paybackFrom_none by done. lia.
Qed.

Lemma fixture_validated : Validated fixtureInputs.
Proof.
  exists today, fixture, fixtureResult, fixtureConsole.
  split; [|split].
  - vm_compute. reflexivity.
  - reflexivity.
  - reflexivity.
Qed.

Lemma payback_first_month_or_horizon_witness :
  Validated fixtureInputs /\
  exists (h : nat) (out : CalculationOutputs),
    1 <= h <= 10
    /\ (ToNumber (get fixtureInputs "timeHorizonYears") * 12)%float = F (12 * h)
    /\ (forall fuel, 120 <= fuel -> calculateROI fuel fixtureInputs = Ok out)
    /\ length (cumNetMonthly (timeline out)) = 12 * h
    /\ paybackMonths out <= 12 * h
    /\ (forall i x,
          cumNetMonthly (timeline out) !! i = Some x -> (0 <=? x)%float = true ->
          (forall j y, j < i -> cumNetMonthly (timeline out) !! j = Some y ->
                       (0 <=? y)%float = false) ->
          paybackMonths out = i + 1)
    /\ ((forall i x, cumNetMonthly (timeline out) !! i = Some x ->
                     (0 <=? x)%float = false) ->
        paybackMonths out = 12 * h).
Proof.
  assert (Validated fixtureInputs) as H.
  { exists today, fixture, fixtureResult, fixtureConsole.
    split; [vm_compute; reflexivity|split; reflexivity]. }
  split; [exact H|]. exact (payback_first_month_or_horizon fixtureInputs H).
Defined.

(** C8. For a validated input the five arrays of the timeline have
    [timeHorizonYears * 12] elements; each net is the month's savings minus
    its costs; the first cumulative net is the first net (added to the
    initial 0); each later one is the one before plus the month's net.  The
    equalities hold as identities of Numbers and as the [==] of the
    language, the Numbers of the timeline being finite. *)
Theorem timeline_running_totals inputs :
  Validated inputs ->
  exists (h : nat) (out : CalculationOutputs),
    1 <= h <= 10
    /\ (ToNumber (get inputs "timeHorizonYears") * 12)%float = F (12 * h)
    /\ (forall fuel, 120 <= fuel -> calculateROI fuel inputs = Ok out)
    /\ (length (months (timeline out)) = 12 * h
        /\ length (savingsMonthly (timeline out)) = 12 * h
        /\ length (costsMonthly (timeline out)) = 12 * h
        /\ length (netMonthly (timeline out)) = 12 * h
        /\ length (cumNetMonthly (timeline out)) = 12 * h)
    /\ (forall i, i < 12 * h ->
          exists s c x,
            savingsMonthly (timeline out) !! i = Some s
            /\ costsMonthly (timeline out) !! i = Some (VNum c)
            /\ netMonthly (timeline out) !! i = Some x
            /\ x = (s - c)%float
            /\ (x =? s - c)%float = true)
    /\ (exists x0 c0,
          netMonthly (timeline out) !! 0 = Some x0
          /\ cumNetMonthly (timeline out) !! 0 = Some c0
          /\ c0 = (0 + x0)%float
          /\ (c0 =? x0)%float = true)
    /\ (forall i c x,
          cumNetMonthly (timeline out) !! i = Some c ->
          netMonthly (timeline out) !! S i = Some x ->
          exists c',
            cumNetMonthly (timeline out) !! S i = Some c'
            /\ c' = (c + x)%float
            /\ (c' =? c + x)%float = true)
    /\ (forall i c,
          cumNetMonthly (timeline out) !! i = Some c -> isFinite c = true).
Proof.
  intros Hv. destruct (validated_shape inputs Hv) as (h & Hh & Hy & s & Hs).
  destruct (calculateROI_run inputs h s Hh Hy Hs) as (out & Hrun & Ht & _).
  destruct (calculateROI_parts 120 inputs out (Hrun 120 ltac:(lia))) as [ET Ec].
  pose proof (timeline_finite inputs h (totalSavingsAnnual out) Hv ltac:(lia)
                ltac:(rewrite ET; by apply totalSavings_below)) as Hfin.
  exists h, out. split; [done|]. split.
  { rewrite Hy. cbn [ToNumber]. apply horizon_months. lia. }
  split; [intros fuel Hf; apply Hrun; lia|].
  rewrite Ht, Ec.
  destruct (run_arrays PrimFloat.div inputs (totalSavingsAnnual out)
              (calculateProgramCosts inputs) (12 * h) (12 * h))
    as (-> & -> & -> & -> & ->).
  split.
  { by rewrite runningSum_length, !length_fmap, !length_seq. }
  split.
  { intros i Hi. destruct (Hfin i Hi) as (_ & (c & Ecost & _) & Hnet & _).
    eexists _, c, _. rewrite !lookup_fmap_seq by done. rewrite Ecost.
    split; [done|]. split; [done|]. split; [done|].
    unfold netAt in *. rewrite Ecost in *. cbn [ToNumber] in *.
    split; [done|by apply eqb_finite]. }
  split.
  { destruct (Hfin 0 ltac:(lia)) as (_ & _ & Hnet & _).
    eexists _, _. split; [apply lookup_fmap_seq; lia|].
    split; [apply runningSum_head, lookup_fmap_seq; lia|].
    split; [done|by apply zero_plus_finite]. }
  split.
  { intros i c x Hc Hx. pose proof (runningSum_step _ _ _ _ _ Hc Hx) as Hstep.
    exists (c + x)%float. split; [done|]. split; [done|].
    apply eqb_finite.
    apply lookup_lt_Some in Hx. rewrite length_fmap, length_seq in Hx.
    destruct (Hfin (S i) Hx) as (_ & _ & _ & Hcum). by apply Hcum. }
  intros i c Hc. pose proof Hc as Hi.
  apply lookup_lt_Some in Hi.
  rewrite runningSum_length, length_fmap, length_seq in Hi.
  destruct (Hfin i Hi) as (_ & _ & _ & Hcum). by apply Hcum.
Qed.

Lemma timeline_running_totals_witness :
  Validated fixtureInputs /\
  exists (h : nat) (out : CalculationOutputs),
    1 <= h <= 10
    /\ (ToNumber (get fixtureInputs "timeHorizonYears") * 12)%float = F (12 * h)
    /\ (forall fuel, 120 <= fuel -> calculateROI fuel fixtureInputs = Ok out)
    /\ (length (months (timeline out)) = 12 * h
        /\ length (savingsMonthly (timeline out)) = 12 * h
        /\ length (costsMonthly (timeline out)) = 12 * h
        /\ length (netMonthly (timeline out)) = 12 * h
        /\ length (cumNetMonthly (timeline out)) = 12 * h)
    /\ (forall i, i < 12 * h ->
          exists s c x,
            savingsMonthly (timeline out) !! i = Some s
            /\ costsMonthly (timeline out) !! i = Some (VNum c)
            /\ netMonthly (timeline out) !! i = Some x
            /\ x = (s - c)%float
            /\ (x =? s - c)%float = true)
    /\ (exists x0 c0,
          netMonthly (timeline out) !! 0 = Some x0
          /\ cumNetMonthly (timeline out) !! 0 = Some c0
          /\ c0 = (0 + x0)%float
          /\ (c0 =? x0)%float = true)
    /\ (forall i c x,
          cumNetMonthly (timeline out) !! i = Some c ->
          netMonthly (timeline out) !! S i = Some x ->
          exists c',
            cumNetMonthly (timeline out) !! S i = Some c'
            /\ c' = (c + x)%float
            /\ (c' =? c + x)%float = true)
    /\ (forall i c,
          cumNetMonthly (timeline out) !! i = Some c -> isFinite c = true).
Proof.
  assert (Validated fixtureInputs) as H.
  { exists today, fixture, fixtureResult, fixtureConsole.
    split; [vm_compute; reflexivity|split; reflexivity]. }
  split; [exact H|]. exact (timeline_running_totals fixtureInputs H).
Defined.

(** C4. For a validated input and every month index [i] of the horizon, the
    savings of the month are the monthly savings times a ramp factor that is
    [(i + 1) / utilisationRampMonths] when [i < utilisationRampMonths] and 1
    otherwise, so 1 throughout when the ramp is 0; and the timeline is the
    same under every division that differs from the division of Numbers
    only where the divisor is a zero: it owes nothing to a division by
    zero. *)
Theorem ramp_factor_without_zero_division inputs :
  Validated inputs ->
  exists (h : nat) (out : CalculationOutputs),
    1 <= h <= 10
    /\ (ToNumber (get inputs "timeHorizonYears") * 12)%float = F (12 * h)
    /\ (forall fuel, 120 <= fuel -> calculateROI fuel inputs = Ok out)
    /\ (forall i, i < 12 * h ->
          exists factor,
            savingsMonthly (timeline out) !! i
              = Some (totalSavingsAnnual out / 12 * factor)%float
            /\ ((F i <? ToNumber (get inputs "utilisationRampMonths"))%float = true ->
                factor = ((F i + 1) / ToNumber (get inputs "utilisationRampMonths"))%float)
            /\ ((F i <? ToNumber (get inputs "utilisationRampMonths"))%float = false ->
                factor = 1%float)
            /\ ((ToNumber (get inputs "utilisationRampMonths") =? 0)%float = true ->
                factor = 1%float))
    /\ (forall divide, agreesOffZero divide ->
        forall fuel, 120 <= fuel ->
          calculateTimelineWith divide fuel inputs (totalSavingsAnnual out) (costs out)
          = Ok (timeline out)).
Proof.
  intros Hv. destruct (validated_shape inputs Hv) as (h & Hh & Hy & s & Hs).
  destruct (calculateROI_run inputs h s Hh Hy Hs) as (out & Hrun & Ht & _).
  exists h, out. split; [done|]. split.
  { rewrite Hy. cbn [ToNumber]. apply horizon_months. lia. }
  split; [intros fuel Hf; apply Hrun; lia|].
  split.
  - intros i Hi. rewrite Ht.
    destruct (run_arrays PrimFloat.div inputs (totalSavingsAnnual out) (costs out)
                (12 * h) (12 * h)) as (_ & -> & _).
    exists (rampFactorAt (get inputs "utilisationRampMonths") (F i)).
    split; [by rewrite lookup_fmap_seq|].
    unfold rampFactorAt, rampFactorWith.
    split; [by intros ->|]. split; [by intros ->|].
    intros Hz. by rewrite (zero_not_above (F i) _ (F_nonneg i ltac:(lia)) Hz).
  - intros divide Hdiv fuel Hf.
    rewrite (calculateTimelineWith_run divide inputs _ _ h s fuel Hh Hy Hs ltac:(lia)).
    rewrite Ht. f_equal. f_equal. apply runFrom_agrees; [done|].
    apply Forall_forall. intros k Hk%list_elem_of_In%in_seq. lia.
Qed.

Lemma ramp_factor_without_zero_division_witness :
  Validated fixtureInputs /\
  exists (h : nat) (out : CalculationOutputs),
    1 <= h <= 10
    /\ (ToNumber (get fixtureInputs "timeHorizonYears") * 12)%float = F (12 * h)
    /\ (forall fuel, 120 <= fuel -> calculateROI fuel fixtureInputs = Ok out)
    /\ (forall i, i < 12 * h ->
          exists factor,
            savingsMonthly (timeline out) !! i
              = Some (totalSavingsAnnual out / 12 * factor)%float
            /\ ((F i <? ToNumber (get fixtureInputs "utilisationRampMonths"))%float = true ->
                factor
                = ((F i + 1) / ToNumber (get fixtureInputs "utilisationRampMonths"))%float)
            /\ ((F i <? ToNumber (get fixtureInputs "utilisationRampMonths"))%float = false ->
                factor = 1%float)
            /\ ((ToNumber (get fixtureInputs "utilisationRampMonths") =? 0)%float = true ->
                factor = 1%float))
    /\ (forall divide, agreesOffZero divide ->
        forall fuel, 120 <= fuel ->
          calculateTimelineWith divide fuel fixtureInputs (totalSavingsAnnual out) (costs out)
          = Ok (timeline out)).
Proof.
  assert (Validated fixtureInputs) as H.
  { exists today, fixture, fixtureResult, fixtureConsole.
    split; [vm_compute; reflexivity|split; reflexivity]. }
  split; [exact H|]. exact (ramp_factor_without_zero_division fixtureInputs H).
Defined.

End EngineFacts.

(** ** The scenario adjuster *)

Module ScenarioFacts.
Import JS Validation Formulas Notions NumberFacts ValidationFacts.

Lemma strictEq_string v s : strictEq v (VStr s) = true <-> v = VStr s.
Proof.
  destruct v; cbn; try (split; done).
  rewrite String.eqb_eq. split; congruence.
Qed.

Lemma spread_fresh (h : heap) (src : loc) (o : obj) :
  h !! src = Some o ->
  spread src h = Some (fresh (dom h), <[fresh (dom h) := o]> h)
  /\ h !! fresh (dom h) = None.
Proof.
  intros H. unfold spread. rewrite H. split; [done|].
  apply not_elem_of_dom, is_fresh.
Qed.

Lemma mulAssign_insert (h : heap) (l : loc) (o : obj) (f : string) (k : float) :
  mulAssign l f k (<[l := o]> h)
  = <[l := <[f := VNum (ToNumber (get o f) * k)%float]> o]> h.
Proof.
  unfold mulAssign. apply map_eq. intros l0.
  destruct (decide (l = l0)) as [<-|Hne].
  - by rewrite lookup_alter_eq, !lookup_insert_eq.
  - by rewrite lookup_alter_ne, !lookup_insert_ne.
Qed.

(** The object the three assignments leave. *)
Lemma three_fields_scaled (o : obj) (k : float) : scaledBy k o (scaled k o).
Proof.
  unfold scaled, get. split.
  - intros f Hf. unfold sensitivityFields in Hf.
    apply elem_of_cons in Hf as [-> | Hf]; [|apply elem_of_cons in Hf as [-> | Hf]];
      [| |apply list_elem_of_singleton in Hf as ->];
      by simplify_map_eq.
  - intros f Hf. unfold sensitivityFields in Hf.
    rewrite !not_elem_of_cons in Hf. destruct Hf as (? & ? & ? & _).
    by simplify_map_eq.
Qed.

Lemma applyScenario_eq (h : heap) (inputs : loc) (o : obj) (scenario : value) :
  h !! inputs = Some o ->
  applyScenario inputs scenario h
  = Some (fresh (dom h),
          <[fresh (dom h) :=
              if strictEq scenario (VStr "conservative") then scaled 0.75 o
              else if strictEq scenario (VStr "aggressive") then scaled 1.25 o
              else o]> h)
  /\ SimpleFormulas.applyScenario inputs scenario h = applyScenario inputs scenario h.
Proof.
  intros Hin. destruct (spread_fresh h inputs o Hin) as [Hs _].
  split; [|done]. unfold applyScenario. rewrite Hs. cbn [mbind option_bind].
  destruct (strictEq scenario (VStr "conservative"));
    [|destruct (strictEq scenario (VStr "aggressive"))];
    by rewrite ?mulAssign_insert.
Qed.

(** C3. [applyScenario] fills a new object and leaves every object of the
    heap, its argument among them, as it was.  With ['conservative'] the new
    object is the argument with the three sensitivity fields multiplied by
    0.75, with ['aggressive'] by 1.25; with any other scenario, ['base']
    included, it has the properties of the argument unchanged.  Both
    copies of the function, in formulas.js and in simple-formulas.js, do
    so. *)
Theorem applyScenario_scales_three_fields
    (h : heap) (inputs : loc) (o : obj) (scenario : value) :
  h !! inputs = Some o ->
  exists (l : loc) (h' : heap) (o' : obj),
    Formulas.applyScenario inputs scenario h = Some (l, h')
    /\ SimpleFormulas.applyScenario inputs scenario h = Some (l, h')
    /\ h !! l = None
    /\ h' !! l = Some o'
    /\ (forall l0, l0 <> l -> h' !! l0 = h !! l0)
    /\ h' !! inputs = Some o
    /\ (scenario = VStr "conservative" -> scaledBy 0.75 o o')
    /\ (scenario = VStr "aggressive" -> scaledBy 1.25 o o')
    /\ (scenario <> VStr "conservative" -> scenario <> VStr "aggressive" -> o' = o).
Proof.
  intros Hin. destruct (spread_fresh h inputs o Hin) as [_ Hfresh].
  destruct (applyScenario_eq h inputs o scenario Hin) as [Ha Hs].
  assert (inputs <> fresh (dom h)) as Hne by (intros E; rewrite E in Hin; congruence).
  eexists _, _, _. split; [exact Ha|]. split; [by rewrite Hs|]. split; [done|].
  split; [by rewrite lookup_insert_eq|].
  split; [by intros l0 ?; rewrite lookup_insert_ne|].
  split; [by rewrite lookup_insert_ne|].
  split; [|split].
  - intros ->. apply three_fields_scaled.
  - intros ->. apply three_fields_scaled.
  - intros H1 H2.
    destruct (strictEq scenario (VStr "conservative")) eqn:Ec;
      [by apply strictEq_string in Ec|].
    destruct (strictEq scenario (VStr "aggressive")) eqn:Ea;
      [by apply strictEq_string in Ea|done].
Qed.

Lemma applyScenario_scales_three_fields_witness :
  ({[1%positive := fixtureInputs]} : heap) !! 1%positive = Some fixtureInputs /\
  exists (l : loc) (h' : heap) (o' : obj),
    Formulas.applyScenario 1%positive (VStr "conservative") {[1%positive := fixtureInputs]}
      = Some (l, h')
    /\ SimpleFormulas.applyScenario 1%positive (VStr "conservative")
         {[1%positive := fixtureInputs]} = Some (l, h')
    /\ ({[1%positive := fixtureInputs]} : heap) !! l = None
    /\ h' !! l = Some o'
    /\ (forall l0, l0 <> l -> h' !! l0 = ({[1%positive := fixtureInputs]} : heap) !! l0)
    /\ h' !! 1%positive = Some fixtureInputs
    /\ (VStr "conservative" = VStr "conservative" -> scaledBy 0.75 fixtureInputs o')
    /\ (VStr "conservative" = VStr "aggressive" -> scaledBy 1.25 fixtureInputs o')
    /\ (VStr "conservative" <> VStr "conservative" ->
        VStr "conservative" <> VStr "aggressive" -> o' = fixtureInputs).
Proof.
  assert (({[1%positive := fixtureInputs]} : heap) !! 1%positive = Some fixtureInputs) as H
    by reflexivity.
  split; [exact H|].
  exact (applyScenario_scales_three_fields _ 1%positive fixtureInputs
           (VStr "conservative") H).
Defined.

(** C9. The adjuster does not keep a validated input within the schema:
    the fixture with fuel savings at the schema maximum, 50, validates;
    ['aggressive'] turns its 50 into 62.5, neither clamped nor validated
    again; and validation rejects the adjusted record as out of range. *)
Theorem applyScenario_leaves_schema_range :
  exists (r : ValidationResult) (out : console) (l : loc) (h' : heap)
         (adjusted : obj) (r' : ValidationResult) (out' : console),
    validateInputs today cappedFixture = Ok (r, out)
    /\ isValid r = true
    /\ get (coercedInputs r) "fuelSavingsPct" = VNum 50
    /\ applyScenario 1%positive (VStr "aggressive") {[1%positive := coercedInputs r]}
       = Some (l, h')
    /\ h' !! l = Some adjusted
    /\ get adjusted "fuelSavingsPct" = VNum 62.5
    /\ validateInputs today adjusted = Ok (r', out')
    /\ isValid r' = false
    /\ errors r' !! "fuelSavingsPct" = Some "fuelSavingsPct must be at most 50".
Proof.
  destruct (validateInputs_eq today cappedFixture) as [out E].
  set (coerced := coercedInputs (fieldLoop cappedFixture)) in *.
  assert (({[1%positive := coerced]} : heap) !! 1%positive = Some coerced) as Hin
    by apply lookup_singleton_eq.
  destruct (applyScenario_eq _ 1%positive coerced (VStr "aggressive") Hin) as [Ha _].
  destruct (validateInputs_eq today (scaled 1.25 coerced)) as [out' E'].
  eexists _, out, _, _, (scaled 1.25 coerced), _, out'.
  split; [exact E|]. cbn [isValid errors coercedInputs]. fold coerced.
  split; [by vm_compute|].
  split; [by vm_compute|].
  split; [exact Ha|].
  split; [by rewrite lookup_insert_eq|].
  split; [by vm_compute|].
  split; [exact E'|]. cbn [isValid errors coercedInputs].
  split; by vm_compute.
Qed.

End ScenarioFacts.

(** ** What validation accepts and reports *)

Module ValidationClaims.
Import JS Validation Notions NumberFacts ValidationFacts.

(** *** The cross-field rule *)

Lemma rampErrors_cases inputs :
  ((ToNumber (get inputs "timeHorizonYears") * 12
      <? ToNumber (get inputs "utilisationRampMonths"))%float = true
   /\ rampErrors inputs
      = {["utilisationRampMonths" := "Utilisation ramp cannot exceed the time horizon"]})
  \/ ((ToNumber (get inputs "timeHorizonYears") * 12
         <? ToNumber (get inputs "utilisationRampMonths"))%float = false
      /\ rampErrors inputs = ∅).
Proof. unfold rampErrors. destruct (_ <? _)%float; [left|right]; done. Qed.

Lemma crossCheck_console now st r out :
  crossCheck now st = Ok (r, out) ->
  validateCrossFields now (coercedInputs st) = Ok (rampErrors (coercedInputs st), out).
Proof.
  unfold crossCheck.
  destruct (validateCrossFields now (coercedInputs st)) as [[errs o]| |] eqn:E; try done.
  apply validateCrossFields_errors in E as ->. by intros [= _ <-].
Qed.

Lemma validateInputs_console now raw r out :
  validateInputs now raw = Ok (r, out) ->
  validateCrossFields now (coercedInputs (fieldLoop raw))
  = Ok (rampErrors (coercedInputs (fieldLoop raw)), out).
Proof. apply crossCheck_console. Qed.

Lemma validateInputs_any_date now now' raw r out :
  validateInputs now raw = Ok (r, out) -> exists out', validateInputs now' raw = Ok (r, out').
Proof.
  intros H. destruct (validateInputs_eq now raw) as [o E].
  rewrite E in H. injection H as <- _. apply validateInputs_eq.
Qed.

Lemma cross_field_rule now raw r out :
  validateInputs now raw = Ok (r, out) ->
  ((ToNumber (get (coercedInputs r) "timeHorizonYears") * 12
      <? ToNumber (get (coercedInputs r) "utilisationRampMonths"))%float = true ->
   isValid r = false
   /\ errors r !! "utilisationRampMonths"
      = Some "Utilisation ramp cannot exceed the time horizon")
  /\ ((ToNumber (get (coercedInputs r) "timeHorizonYears") * 12
         <? ToNumber (get (coercedInputs r) "utilisationRampMonths"))%float = false ->
      validateCrossFields now (coercedInputs r) = Ok (∅, out)
      /\ isValid r = isValid (fieldLoop raw)
      /\ errors r = errors (fieldLoop raw))
  /\ (forall now', exists out', validateInputs now' raw = Ok (r, out')).
Proof.
  intros E.
  pose proof (validateInputs_console now raw r out E) as Hcross.
  pose proof (validateInputs_any_date now) as Hdate.
  specialize (fun now' => Hdate now' raw r out E).
  apply validateInputs_inv in E as (-> & -> & ->).
  split; [|split]; [| |done]; clear Hdate;
    revert Hcross; generalize (fieldLoop raw) as st; intros st Hcross.
  - intros Hlt. destruct (rampErrors_cases (coercedInputs st)) as [[_ ->] | [Hf _]];
      [|congruence].
    split; [done|]. apply lookup_union_Some_l, lookup_singleton_eq.
  - intros Hge. destruct (rampErrors_cases (coercedInputs st)) as [[Ht _] | [_ Hr]];
      [congruence|].
    rewrite Hr in *. split; [done|]. split; [done|]. apply (left_id_L ∅ (∪)).
Qed.

(** C7. [validateInputs] throws on no raw record.  When the coerced ramp
    exceeds the coerced horizon times 12, the record is not valid and the
    errors have an entry for [utilisationRampMonths]; when it does not,
    [validateCrossFields] has no error, and validity and errors are those of
    the fields alone.  The current date, against which the start month is
    compared, changes nothing in the result. *)
Theorem ramp_beyond_horizon_is_the_cross_field_error (now : Date) (raw : obj) :
  exists (r : ValidationResult) (out : console),
    validateInputs now raw = Ok (r, out)
    /\ ((ToNumber (get (coercedInputs r) "timeHorizonYears") * 12
           <? ToNumber (get (coercedInputs r) "utilisationRampMonths"))%float = true ->
        isValid r = false
        /\ errors r !! "utilisationRampMonths"
           = Some "Utilisation ramp cannot exceed the time horizon")
    /\ ((ToNumber (get (coercedInputs r) "timeHorizonYears") * 12
           <? ToNumber (get (coercedInputs r) "utilisationRampMonths"))%float = false ->
        validateCrossFields now (coercedInputs r) = Ok (∅, out)
        /\ isValid r = isValid (fieldLoop raw)
        /\ errors r = errors (fieldLoop raw))
    /\ (forall now', exists out', validateInputs now' raw = Ok (r, out')).
Proof.
  destruct (validateInputs_eq now raw) as [out E].
  eexists _, out. split; [exact E|].
  exact (cross_field_rule now raw _ out E).
Qed.

(** The rule does fire: a ramp of 24 months over one year. *)
Lemma ramp_beyond_horizon_example :
  exists r out,
    validateInputs today steepFixture = Ok (r, out)
    /\ isValid r = false
    /\ map_to_list (errors r)
       = [("utilisationRampMonths", "Utilisation ramp cannot exceed the time horizon")].
Proof.
  destruct (validateInputs_eq today steepFixture) as [out E].
  eexists _, out. split; [exact E|]. cbn [isValid errors].
  split; by vm_compute.
Qed.

(** *** Numeric prefixes *)

Lemma number_schema name sch :
  (name, sch) ∈ validationSchema -> type sch = "number" ->
  allowedValues sch = None /\ name <> "utilisationRampMonths".
Proof.
  intros Hin Ht. apply list_elem_of_In in Hin. cbn [In validationSchema] in Hin.
  repeat (destruct Hin as [Hin|Hin]; [injection Hin as <- <-; try done|]).
  done.
Qed.

Lemma coerce_prefix s x rest :
  scanDecimal (trimStart s) = Some (x, rest) -> coerceValue (VStr s) "number" = VNum x.
Proof.
  intros Hs. unfold coerceValue.
  assert (isAbsent (VStr s) = false) as ->.
  { destruct s; [done|]. reflexivity. }
  cbn [String.eqb Ascii.eqb Bool.eqb]. unfold parseFloat. cbn [ToString].
  rewrite Hs. by rewrite (scanDecimal_notNaN _ _ _ Hs).
Qed.

Lemma coerce_no_prefix s :
  coerceValue (VStr s) "number" = VNull <-> scanDecimal (trimStart s) = None.
Proof.
  destruct (scanDecimal (trimStart s)) as [[x rest]|] eqn:E.
  - rewrite (coerce_prefix s x rest E). done.
  - split; [done|]. intros _. unfold coerceValue.
    destruct (isAbsent (VStr s)); [done|].
    cbn [String.eqb Ascii.eqb Bool.eqb]. unfold parseFloat. cbn [ToString].
    by rewrite E.
Qed.

Lemma validateField_number name x sch :
  type sch = "number" -> allowedValues sch = None -> withinBounds sch x ->
  validateField name (VNum x) sch = None.
Proof.
  intros Ht Ha [Hlo Hhi]. unfold validateField. rewrite Ht, Ha.
  cbn [isAbsent strictEq orb String.eqb Ascii.eqb Bool.eqb andb isNumber negb].
  destruct (min sch) as [lo|]; [rewrite (leb_ltb lo x) by auto|];
    (destruct (max sch) as [hi|]; [rewrite (leb_ltb x hi) by auto|]); done.
Qed.

(** C10. For a number-typed field, a raw string whose text, after leading
    white space, starts with a numeric literal of value [x] within the
    bounds of the field, whatever follows the literal, is coerced to [x] and
    has no error; and a string is coerced to [null] exactly when no numeric
    literal starts its text. *)
Theorem numeric_prefix_is_accepted
    (now : Date) (raw : obj) (name : string) (sch : Schema)
    (s : string) (x : float) (rest : string) :
  (name, sch) ∈ validationSchema ->
  type sch = "number" ->
  get raw name = VStr s ->
  scanDecimal (trimStart s) = Some (x, rest) ->
  withinBounds sch x ->
  exists (r : ValidationResult) (out : console),
    validateInputs now raw = Ok (r, out)
    /\ coercedInputs r !! name = Some (VNum x)
    /\ errors r !! name = None
    /\ (forall s', coerceValue (VStr s') "number" = VNull
                   <-> scanDecimal (trimStart s') = None).
Proof.
  intros Hin Ht Hraw Hs Hb.
  destruct (number_schema name sch Hin Ht) as [Ha Hne].
  destruct (validateInputs_eq now raw) as [out E].
  eexists _, out. split; [exact E|].
  apply validateInputs_inv in E as (_ & -> & ->).
  assert (Hc : coercedAt raw name sch = VNum x).
  { unfold coercedAt. rewrite Hraw, Ht. by apply (coerce_prefix s x rest). }
  split; [|split; [|apply coerce_no_prefix]].
  - rewrite fieldLoop_eq.
    rewrite (fold_coerced raw validationSchema _ name sch schema_NoDup Hin).
    by rewrite Hc.
  - apply lookup_union_None_2.
    + destruct (rampErrors_cases (coercedInputs (fieldLoop raw))) as [[_ ->] | [_ ->]];
        [by apply lookup_singleton_ne|done].
    + rewrite (errors_lookup raw name sch Hin). unfold fieldError. rewrite Hc.
      by apply validateField_number.
Qed.

Lemma numeric_prefix_is_accepted_witness :
  (("fuelConsumptionLPer100km",
    ranged 5 50 "number" "Fuel consumption must be between 5 and 50 L/100km")
     ∈ validationSchema
   /\ get prefixFixture "fuelConsumptionLPer100km" = VStr "12abc"
   /\ scanDecimal (trimStart "12abc") = Some (12%float, "abc")) /\
  exists (r : ValidationResult) (out : console),
    validateInputs today prefixFixture = Ok (r, out)
    /\ coercedInputs r !! "fuelConsumptionLPer100km" = Some (VNum 12)
    /\ errors r !! "fuelConsumptionLPer100km" = None
    /\ (forall s', coerceValue (VStr s') "number" = VNull
                   <-> scanDecimal (trimStart s') = None).
Proof.
  assert (("fuelConsumptionLPer100km",
           ranged 5 50 "number" "Fuel consumption must be between 5 and 50 L/100km")
            ∈ validationSchema) as Hin by in_schema.
  assert (get prefixFixture "fuelConsumptionLPer100km" = VStr "12abc") as Hraw
    by reflexivity.
  assert (scanDecimal (trimStart "12abc") = Some (12%float, "abc")) as Hs
    by (vm_compute; reflexivity).
  split; [done|].
  apply (numeric_prefix_is_accepted today prefixFixture _ _ "12abc" 12 "abc" Hin
           eq_refl Hraw Hs).
  split; intros b [= <-]; reflexivity.
Defined.

(** *** Whole numbers *)

(** [validateField] does check in the order presence, type, bounds, allowed
    values. *)
Lemma validateField_order name v sch :
  (isAbsent v = true -> validateField name v sch = Some (name +:+ " is required"))
  /\ (isAbsent v = false -> type sch = "integer" -> Number_isInteger v = false ->
      validateField name v sch = Some (name +:+ " must be a whole number"))
  /\ (forall x lo, v = VNum x -> type sch = "number" -> min sch = Some lo ->
      (x <? lo)%float = true ->
      validateField name v sch
      = Some (name +:+ " must be at least " +:+ numberToString lo)).
Proof.
  unfold validateField. split; [by intros ->|]. split.
  - intros -> -> ->. done.
  - intros x lo -> -> -> ->. done.
Qed.

(** C6, on the code.  A vehicle count of "3.7" is not reported: [parseInt]
    has cut it to 3 before [validateField] looks at it, so the record is
    valid with 3 vehicles, while [validateField] would reject the Number 3.7
    as not a whole number. *)
Theorem fractional_count_is_cut_not_reported :
  exists (r : ValidationResult) (out : console),
    validateInputs today fractionalFixture = Ok (r, out)
    /\ isValid r = true
    /\ errors r !! "vehicleCount" = None
    /\ coercedInputs r !! "vehicleCount" = Some (VNum 3)
    /\ validateField "vehicleCount" (VNum (lit "3.7"))
         (ranged 1 10000 "integer" "Number of vehicles must be between 1 and 10,000")
       = Some "vehicleCount must be a whole number".
Proof.
  destruct (validateInputs_eq today fractionalFixture) as [out E].
  eexists _, out. split; [exact E|]. cbn [isValid errors coercedInputs].
  repeat split; by vm_compute.
Qed.

End ValidationClaims.

(** ** Zero costs and payback that never comes *)

Module VariantFacts.
Import JS Notions.

(** The full engine guards the division: no total cost, no ROI. *)
Lemma calculateSimpleROI_guard (totalSavings : float) (totalCosts : value) :
  (strictEq totalCosts (VNum 0) = true ->
   Formulas.calculateSimpleROI totalSavings totalCosts = 0%float)
  /\ (strictEq totalCosts (VNum 0) = false ->
      Formulas.calculateSimpleROI totalSavings totalCosts
      = ((totalSavings - ToNumber totalCosts) / ToNumber totalCosts * 100)%float).
Proof. unfold Formulas.calculateSimpleROI. by split; intros ->. Qed.

(** The current simple engine guards the payback: [null] unless the net
    monthly savings are positive. *)
Lemma lean_payback_guard (inputs : obj) :
  SimpleCalc.paybackMonths (SimpleCalc.calculate inputs) = VNull
  \/ exists x, SimpleCalc.paybackMonths (SimpleCalc.calculate inputs) = VNum (Math_ceil x).
Proof.
  unfold SimpleCalc.calculate. cbv zeta. cbn [SimpleCalc.paybackMonths].
  destruct (_ <? _)%float; [right; eauto|by left].
Qed.

(** C2, on the code.  With every cost at 0 the straight-line engines divide
    by the total cost all the same and report an infinite ROI, where the
    full engine reports 0. *)
Theorem simple_engines_divide_by_zero_cost :
  SimpleFormulas.roiSimplePct (SimpleFormulas.calculateROI freeProgram) = infinity
  /\ SimpleCalc.roiSimplePct (SimpleCalc.calculate freeLeanProgram) = infinity
  /\ (forall totalSavings, Formulas.calculateSimpleROI totalSavings (VNum 0) = 0%float).
Proof. split; [|split]; [by vm_compute..|done]. Qed.

(** C5, on the code.  With a subscription that costs more than the program
    saves, the two earlier straight-line engines report a payback of -3
    months, and with net monthly savings of 0 an infinite one, where the current
    engine reports [null]. *)
Theorem earlier_simple_engines_report_impossible_payback :
  SimpleFormulas.paybackMonths (SimpleFormulas.calculateROI costlySubscription)
    = (-3)%float
  /\ SimpleCalcBackup.paybackMonths (SimpleCalcBackup.calculate costlySubscription)
     = (-3)%float
  /\ SimpleFormulas.paybackMonths (SimpleFormulas.calculateROI noSavingsNoSubscription)
     = infinity
  /\ SimpleCalc.paybackMonths (SimpleCalc.calculate costlySubscription) = VNull.
Proof. repeat split; by vm_compute. Qed.

End VariantFacts.

(** ** Further properties of the validation *)

Module ValidationExtras.
Import JS Validation Formulas Notions NumberFacts ValidationFacts.
#[local] Set Warnings "-clear-no-such-hyp".

(** *** The start months that [coerceValue] keeps *)

Lemma isDigit_In c : isDigit c = true -> In c digitChars.
Proof.
  destruct c as [[] [] [] [] [] [] [] []]; intros H; try discriminate H;
    cbn; tauto.
Qed.

Lemma isDigit_not_dash c : isDigit c = true -> Ascii.eqb c "-" = false.
Proof.
  intros H%isDigit_In. cbn in H.
  repeat (destruct H as [<-|H]; [reflexivity|]). done.
Qed.

Lemma digitVal_range c : isDigit c = true -> (0 <= digitVal c <= 9)%Z.
Proof.
  intros H%isDigit_In. cbn in H.
  repeat (destruct H as [<-|H]; [compute; split; discriminate|]). done.
Qed.

(** Reading the digits back. *)
Lemma four_digits_table :
  forallb (fun a => forallb (fun b => forallb (fun c => forallb (fun d =>
    PrimFloat.Leibniz.eqb
      (StringToNumber (String a (String b (String c (String d EmptyString)))))
      (Z2F (1000 * digitVal a + 100 * digitVal b + 10 * digitVal c + digitVal d)))
    digitChars) digitChars) digitChars) digitChars = true.
Proof. vm_compute. reflexivity. Qed.

Lemma two_digits_table :
  forallb (fun e => forallb (fun f =>
    PrimFloat.Leibniz.eqb
      (StringToNumber (String e (String f EmptyString)) - 1)%float
      (Z2F (10 * digitVal e + digitVal f - 1)))
    digitChars) digitChars = true.
Proof. vm_compute. reflexivity. Qed.

Lemma forallFrom_spec f z n k :
  forallFrom f z n = true -> (z <= k < z + Z.of_nat n)%Z -> f k = true.
Proof.
  revert z. induction n as [|n IH]; intros z H Hk; [lia|].
  cbn [forallFrom] in H. apply andb_prop in H as [H1 H2].
  destruct (Z.eq_dec k z) as [->|Hne]; [done|].
  apply (IH (z + 1)%Z); [done|lia].
Qed.

(** The whole Numbers up to 10010 are read back by truncation. *)
Lemma small_trunc_table :
  forallFrom (fun z => match truncF (Z2F z) with
                       | Some t => (t =? z)%Z
                       | None => false
                       end) (-1) (Z.to_nat 10012) = true.
Proof. vm_compute. reflexivity. Qed.

Lemma small_trunc z : (-1 <= z <= 10010)%Z -> truncF (Z2F z) = Some z.
Proof.
  intros Hz. pose proof (forallFrom_spec _ _ _ z small_trunc_table ltac:(lia)) as H.
  cbv beta in H. destruct (truncF (Z2F z)); [|done]. apply Z.eqb_eq in H. by subst.
Qed.

Lemma eqb_trunc (x y : float) : (x =? y)%float = true -> truncF x = truncF y.
Proof.
  rewrite FloatAxioms.eqb_spec. unfold truncF, SFeqb, SFcompare.
  destruct (Prim2SF x) as [[]|[]| |[] mx ex], (Prim2SF y) as [[]|[]| |[] my ey];
    try done.
  - destruct (Z.compare_spec ex ey); try done. subst.
    change (Pos.compare_cont Eq) with Pos.compare.
    destruct (Pos.compare_spec mx my); try done. by subst.
  - destruct (Z.compare_spec ex ey); try done. subst.
    change (Pos.compare_cont Eq) with Pos.compare.
    destruct (Pos.compare_spec mx my); try done. by subst.
Qed.

Lemma small_eqb z1 z2 :
  (-1 <= z1 <= 10010)%Z -> (-1 <= z2 <= 10010)%Z ->
  (Z2F z1 =? Z2F z2)%float = (z1 =? z2)%Z.
Proof.
  intros H1 H2. destruct (Z.eqb_spec z1 z2) as [->|Hne].
  - rewrite FloatAxioms.eqb_spec. unfold SFeqb. rewrite SFcompare_refl; [done|].
    apply is_nan_spec, Z2F_notNaN.
  - destruct (Z2F z1 =? Z2F z2)%float eqn:E; [|done].
    apply eqb_trunc in E. rewrite !small_trunc in E by done. congruence.
Qed.

Lemma four_digits a b c d :
  isDigit a = true -> isDigit b = true -> isDigit c = true -> isDigit d = true ->
  StringToNumber (String a (String b (String c (String d EmptyString))))
  = Z2F (1000 * digitVal a + 100 * digitVal b + 10 * digitVal c + digitVal d).
Proof.
  intros Ha%isDigit_In Hb%isDigit_In Hc%isDigit_In Hd%isDigit_In.
  pose proof four_digits_table as T.
  rewrite forallb_forall in T. specialize (T a Ha).
  rewrite forallb_forall in T. specialize (T b Hb).
  rewrite forallb_forall in T. specialize (T c Hc).
  rewrite forallb_forall in T. specialize (T d Hd).
  by apply FloatAxioms.Leibniz.eqb_spec.
Qed.

Lemma two_digits e f :
  isDigit e = true -> isDigit f = true ->
  (StringToNumber (String e (String f EmptyString)) - 1)%float
  = Z2F (10 * digitVal e + digitVal f - 1).
Proof.
  intros He%isDigit_In Hf%isDigit_In.
  pose proof two_digits_table as T.
  rewrite forallb_forall in T. specialize (T e He).
  rewrite forallb_forall in T. specialize (T f Hf).
  by apply FloatAxioms.Leibniz.eqb_spec.
Qed.

Lemma splitDash_month a b c d e f :
  isDigit a = true -> isDigit b = true -> isDigit c = true -> isDigit d = true ->
  isDigit e = true -> isDigit f = true ->
  splitDash (String a (String b (String c (String d (String "-" (String e (String f "")))))))
  = [String a (String b (String c (String d ""))); String e (String f "")].
Proof.
  intros Ha Hb Hc Hd He Hf. cbn [splitDash].
  rewrite (isDigit_not_dash a), (isDigit_not_dash b), (isDigit_not_dash c),
    (isDigit_not_dash d), (isDigit_not_dash e), (isDigit_not_dash f) by done.
  reflexivity.
Qed.

(** The month check of [coerceValue], on the year and month read. *)
Lemma month_check (y m : Z) :
  (0 <= y <= 9999)%Z -> (0 <= m <= 99)%Z ->
  let date := Date_new (Z2F y) (Z2F (m - 1)) in
  (Date_getFullYear date =? Z2F y)%float && (Date_getMonth date =? Z2F (m - 1))%float
  = (100 <=? y)%Z && (1 <=? m)%Z && (m <=? 12)%Z.
Proof.
  intros Hy Hm. unfold Date_new. rewrite !small_trunc by lia.
  set (y' := if (0 <=? y)%Z && (y <=? 99)%Z then (1900 + y)%Z else y).
  assert (y' = y /\ (100 <= y)%Z \/ y' = (1900 + y)%Z /\ (y < 100)%Z) as Hy'.
  { subst y'. destruct (Z.leb_spec 0 y), (Z.leb_spec y 99); cbn; lia. }
  set (t := (y' * 12 + (m - 1))%Z).
  assert ((-271821 * 12 + 4 <=? t)%Z && (t <=? 275760 * 12 + 8)%Z = true) as ->.
  { apply andb_true_intro. split; apply Z.leb_le; subst t; lia. }
  cbn [Date_getFullYear Date_getMonth].
  assert (t / 12 = y' + (m - 1) / 12)%Z as Hdiv
    by (subst t; clear; Z.div_mod_to_equations; lia).
  assert (t mod 12 = (m - 1) mod 12)%Z as Hmod
    by (subst t; clear; Z.div_mod_to_equations; lia).
  assert (-1 <= (m - 1) / 12 <= 8)%Z by (clear - Hm; Z.div_mod_to_equations; lia).
  pose proof (Z.mod_pos_bound (m - 1) 12 ltac:(lia)).
  rewrite !small_eqb by lia.
  rewrite Hdiv, Hmod.
  clearbody t y'. clear Hdiv Hmod.
  destruct (Z.leb_spec 100 y), (Z.leb_spec 1 m), (Z.leb_spec m 12);
    cbn [andb]; rewrite ?andb_false_iff, ?andb_true_iff, ?Z.eqb_eq, ?Z.eqb_neq;
    try (left; Z.div_mod_to_equations; lia).
  split; Z.div_mod_to_equations; lia.
Qed.

(** [coerceValue] keeps a start month exactly when it is a text [YYYY-MM]
    with a month from 01 to 12 and a year from 0100 on. *)
Lemma coerceValue_month v :
  coerceValue v "date"
  = match v with
    | VStr s => if isCalendarMonth s then v else VNull
    | _ => VNull
    end.
Proof.
  unfold coerceValue. destruct v as [| |b0|x|s]; try reflexivity.
  destruct (isAbsent (VStr s)) eqn:Habs.
  { cbn in Habs. apply String.eqb_eq in Habs as ->. reflexivity. }
  change (String.eqb "date" "integer") with false.
  change (String.eqb "date" "number") with false.
  change (String.eqb "date" "string") with false.
  change (String.eqb "date" "date") with true. cbv iota.
  unfold isCalendarMonth, yearMonthOf.
  destruct (isYearMonth s) eqn:E.
  2:{ by destruct s as [|a [|b [|c [|d [|h [|e [|f [|]]]]]]]]. }
  destruct s as [|a [|b [|c [|d [|h [|e [|f [|]]]]]]]]; try discriminate E.
  cbn [isYearMonth] in E.
  apply andb_prop in E as [E Hf]. apply andb_prop in E as [E He].
  apply andb_prop in E as [E Hh]. apply andb_prop in E as [E Hd].
  apply andb_prop in E as [E Hc]. apply andb_prop in E as [Ha Hb].
  apply Ascii.eqb_eq in Hh as ->.
  rewrite splitDash_month by done. unfold numberAt. cbn [lookup list_lookup].
  rewrite two_digits, four_digits by done.
  pose proof (digitVal_range a ltac:(done)). pose proof (digitVal_range b ltac:(done)).
  pose proof (digitVal_range c ltac:(done)). pose proof (digitVal_range d ltac:(done)).
  pose proof (digitVal_range e ltac:(done)). pose proof (digitVal_range f ltac:(done)).
  rewrite (month_check _ (10 * digitVal e + digitVal f)) by lia.
  reflexivity.
Qed.

(** *** The keys of the result *)

Lemma fold_dom raw l st :
  dom (coercedInputs (fold_left (fieldStep raw) l st))
    = dom (coercedInputs st) ∪ list_to_set l.*1
  /\ dom (errors (fold_left (fieldStep raw) l st)) ⊆ dom (errors st) ∪ list_to_set l.*1.
Proof.
  revert st. induction l as [|[name sch] l IH]; intros st;
    cbn [fold_left fmap list_fmap fst list_to_set].
  - split; set_solver.
  - destruct (IH (fieldStep raw st (name, sch))) as [-> H]. rewrite fieldStep_eq in *.
    cbn [coercedInputs errors] in *. rewrite dom_insert_L. split; [set_solver|].
    destruct (fieldError raw name sch); [rewrite dom_insert in H|]; set_solver.
Qed.

Lemma rampErrors_dom inputs : dom (rampErrors inputs) ⊆ schemaKeys.
Proof.
  unfold rampErrors. destruct (_ <? _)%float; [|set_solver].
  rewrite dom_singleton. apply singleton_subseteq_l.
  apply (bool_decide_unpack _). by vm_compute.
Qed.

Lemma fieldLoop_dom raw :
  dom (coercedInputs (fieldLoop raw)) = schemaKeys
  /\ dom (errors (fieldLoop raw)) ⊆ schemaKeys.
Proof.
  rewrite fieldLoop_eq. destruct (fold_dom raw validationSchema
    {| isValid := true; errors := ∅; coercedInputs := ∅ |}) as [-> H].
  cbn [coercedInputs errors] in *. unfold schemaKeys.
  rewrite dom_empty_L in *. rewrite (left_id_L ∅ (∪)) in *. done.
Qed.

(** The loop reads the fields of the schema and nothing else. *)
Lemma fieldLoop_ext raw raw' :
  (forall k, k ∈ schemaKeys -> get raw' k = get raw k) -> fieldLoop raw' = fieldLoop raw.
Proof.
  intros H. rewrite !fieldLoop_eq.
  assert (Forall (fun e => e.1 ∈ schemaKeys) validationSchema) as Hall.
  { apply Forall_forall. intros [n s] Hin. unfold schemaKeys.
    apply elem_of_list_to_set, list_elem_of_fmap. by exists (n, s). }
  revert Hall. generalize {| isValid := true; errors := ∅; coercedInputs := ∅ |}.
  induction validationSchema as [|[n s] l IH]; intros st Hall; [done|].
  apply Forall_cons in Hall as [Hn Hall]. cbn [fold_left].
  rewrite IH by done. f_equal. unfold fieldStep. by rewrite (H n Hn).
Qed.

(** *** Valid means no error *)

Lemma fold_valid_iff raw l st :
  (isValid st = true <-> errors st = ∅) ->
  (isValid (fold_left (fieldStep raw) l st) = true
   <-> errors (fold_left (fieldStep raw) l st) = ∅).
Proof.
  revert st. induction l as [|[name sch] l IH]; intros st H; cbn [fold_left]; [done|].
  apply IH. rewrite fieldStep_eq. cbn [isValid errors].
  destruct (fieldError raw name sch); [|done].
  split; [done|]. intros E. by apply insert_non_empty in E.
Qed.

Lemma rampErrors_size inputs :
  (0 <? size (rampErrors inputs))%nat = false <-> rampErrors inputs = ∅.
Proof.
  unfold rampErrors. destruct (_ <? _)%float.
  - rewrite map_size_singleton. split; [done|]. intros E.
    by apply map_non_empty_singleton in E.
  - done.
Qed.

Lemma valid_iff_no_error now raw r out :
  validateInputs now raw = Ok (r, out) -> isValid r = true <-> errors r = ∅.
Proof.
  intros (-> & -> & _)%validateInputs_inv.
  pose proof (fold_valid_iff raw validationSchema
    {| isValid := true; errors := ∅; coercedInputs := ∅ |} ltac:(done)) as H.
  rewrite <- fieldLoop_eq in H.
  pose proof (rampErrors_size (coercedInputs (fieldLoop raw))) as Hs.
  destruct (0 <? size _)%nat.
  - split; [done|]. intros E%map_positive_l. apply Hs in E. done.
  - rewrite (proj1 Hs eq_refl), (left_id_L ∅ (∪)). done.
Qed.

(** *** Single fields *)

Lemma rampErrors_other inputs k :
  k <> "utilisationRampMonths" -> rampErrors inputs !! k = None.
Proof.
  intros Hk. unfold rampErrors. destruct (_ <? _)%float; [|done].
  by rewrite lookup_singleton_ne.
Qed.

Lemma error_lookup now raw r out name sch :
  validateInputs now raw = Ok (r, out) -> (name, sch) ∈ validationSchema ->
  name <> "utilisationRampMonths" ->
  errors r !! name = fieldError raw name sch.
Proof.
  intros (_ & -> & _)%validateInputs_inv Hin Hne.
  rewrite lookup_union_r by by apply rampErrors_other.
  by apply errors_lookup.
Qed.

Lemma validateField_allowed name v sch allowed :
  validateField name v sch = None -> allowedValues sch = Some allowed ->
  includes allowed v = true.
Proof.
  unfold validateField. intros H Ha. rewrite Ha in H.
  repeat case_match; simplify_eq; try done.
  all: by match goal with H : negb _ = false |- _ => apply negb_false_iff in H end.
Qed.

Lemma includes_elem allowed s : includes allowed (VStr s) = true <-> s ∈ allowed.
Proof.
  cbn [includes]. rewrite existsb_exists. split.
  - intros (t & Hin & ->%String.eqb_eq). by apply list_elem_of_In.
  - intros Hin. exists s. split; [by apply list_elem_of_In|apply String.eqb_refl].
Qed.

Lemma ltb_leb (a b : float) :
  PrimFloat.is_nan a = false -> PrimFloat.is_nan b = false ->
  (b <? a)%float = false -> (a <=? b)%float = true.
Proof.
  rewrite !is_nan_spec, FloatAxioms.leb_spec, FloatAxioms.ltb_spec.
  unfold SFleb, SFltb, notNaN. rewrite (SFcompare_swap (Prim2SF a)).
  intros Ha Hb.
  assert (exists c, SFcompare (Prim2SF a) (Prim2SF b) = Some c) as [c ->].
  { unfold SFcompare.
    destruct (Prim2SF a) as [[]|[]| |[] ma ea], (Prim2SF b) as [[]|[]| |[] mb eb];
      try done; eauto; by destruct (ea ?= eb)%Z; eauto. }
  by destruct c.
Qed.

Lemma schemaKeys_size : size schemaKeys = 22.
Proof. by vm_compute. Qed.

Lemma result_keys now raw r out :
  validateInputs now raw = Ok (r, out) ->
  dom (coercedInputs r) = schemaKeys /\ dom (errors r) ⊆ schemaKeys
  /\ size (coercedInputs r) = 22.
Proof.
  intros (_ & -> & ->)%validateInputs_inv.
  destruct (fieldLoop_dom raw) as [Hc He].
  split; [done|]. split.
  - rewrite dom_union. apply union_least; [apply rampErrors_dom|done].
  - rewrite <- size_dom, Hc. apply schemaKeys_size.
Qed.

(** X1. Whatever the raw record holds, [validateInputs] returns, the
    coerced record has exactly the fields of the schema, and every error is
    filed under a field of the schema. *)
Theorem coerced_record_has_the_schema_fields (now : Date) (raw : obj) :
  exists r out,
    validateInputs now raw = Ok (r, out)
    /\ dom (coercedInputs r) = schemaKeys
    /\ dom (errors r) ⊆ schemaKeys
    /\ size (coercedInputs r) = 22.
Proof.
  destruct (validateInputs_eq now raw) as [out E]. eexists _, out.
  split; [exact E|]. exact (result_keys now raw _ out E).
Qed.

(** X2. [validateInputs] reads the fields of the schema only: two raw
    records that agree on them (a missing field counting as [undefined])
    get the same result and the same console output. *)
Theorem validation_reads_schema_fields_only (now : Date) (raw raw' : obj) :
  (forall k, k ∈ schemaKeys -> get raw' k = get raw k) ->
  validateInputs now raw' = validateInputs now raw.
Proof. intros H. unfold validateInputs. by rewrite (fieldLoop_ext raw raw' H). Qed.

Lemma validation_reads_schema_fields_only_witness :
  (forall k, k ∈ schemaKeys -> get (<["nickname" := VStr "fleet"]> fixture) k = get fixture k)
  /\ validateInputs today (<["nickname" := VStr "fleet"]> fixture)
     = validateInputs today fixture.
Proof.
  assert (forall k, k ∈ schemaKeys ->
            get (<["nickname" := VStr "fleet"]> fixture) k = get fixture k) as H.
  { intros k Hk. unfold get. rewrite lookup_insert_ne; [done|].
    intros <-. revert Hk. apply (bool_decide_unpack _). by vm_compute. }
  split; [exact H|].
  exact (validation_reads_schema_fields_only today fixture _ H).
Defined.

(** X3. The result is valid exactly when its errors are empty. *)
Theorem valid_exactly_when_no_error (now : Date) (raw : obj) :
  exists r out,
    validateInputs now raw = Ok (r, out)
    /\ (isValid r = true <-> errors r = ∅).
Proof.
  destruct (validateInputs_eq now raw) as [out E]. eexists _, out.
  split; [exact E|]. exact (valid_iff_no_error now raw _ out E).
Qed.

(** *** A field that is missing *)

Lemma absent_field now raw r out name sch :
  validateInputs now raw = Ok (r, out) ->
  (name, sch) ∈ validationSchema -> isAbsent (get raw name) = true ->
  isValid r = false
  /\ get (coercedInputs r) name = VNull
  /\ exists e, errors r !! name = Some e
       /\ (name <> "utilisationRampMonths" -> e = name +:+ " is required").
Proof.
  intros Hv Hin Habs.
  assert (coercedAt raw name sch = VNull) as Hc.
  { unfold coercedAt, coerceValue. by rewrite Habs. }
  assert (fieldError raw name sch = Some (name +:+ " is required")) as He.
  { unfold fieldError. rewrite Hc. reflexivity. }
  pose proof (valid_iff_no_error now raw r out Hv) as Hiff.
  apply validateInputs_inv in Hv as (Hi & Herr & Hco).
  rewrite Hco, (coerced_lookup raw name sch Hin), Herr.
  pose proof (errors_lookup raw name sch Hin) as Hl. rewrite He in Hl.
  assert (exists e, (rampErrors (coercedInputs (fieldLoop raw)) ∪ errors (fieldLoop raw))
                      !! name = Some e
                    /\ (name <> "utilisationRampMonths" -> e = name +:+ " is required"))
    as (e & Hlk & Hmsg).
  { destruct (rampErrors (coercedInputs (fieldLoop raw)) !! name) as [e|] eqn:Er.
    - exists e. split; [by apply lookup_union_Some_l|].
      intros Hne. by rewrite rampErrors_other in Er.
    - eexists. split; [by rewrite lookup_union_r|done]. }
  split; [|split; [done|eauto]].
  destruct (isValid r) eqn:Hvalid; [|done].
  rewrite (proj1 Hiff eq_refl) in Herr.
  rewrite <- Herr in Hlk. by rewrite lookup_empty in Hlk.
Qed.

(** X4. A field of the schema that the raw record lacks, or holds as
    [null], [undefined] or the empty string, is coerced to [null], makes the
    result invalid and gets an error: "<field> is required" (for the ramp
    field the cross-field message can take its place). *)
Theorem absent_field_is_required (now : Date) (raw : obj) (name : string) (sch : Schema) :
  (name, sch) ∈ validationSchema -> isAbsent (get raw name) = true ->
  exists r out,
    validateInputs now raw = Ok (r, out)
    /\ isValid r = false
    /\ get (coercedInputs r) name = VNull
    /\ exists e, errors r !! name = Some e
         /\ (name <> "utilisationRampMonths" -> e = name +:+ " is required").
Proof.
  intros Hin Habs. destruct (validateInputs_eq now raw) as [out E]. eexists _, out.
  split; [exact E|]. exact (absent_field now raw _ out name sch E Hin Habs).
Qed.

Lemma absent_field_is_required_witness :
  ("vehicleCount", ranged 1 10000 "integer"
     "Number of vehicles must be between 1 and 10,000") ∈ validationSchema
  /\ isAbsent (get (delete "vehicleCount" fixture) "vehicleCount") = true
  /\ exists r out,
    validateInputs today (delete "vehicleCount" fixture) = Ok (r, out)
    /\ isValid r = false
    /\ get (coercedInputs r) "vehicleCount" = VNull
    /\ exists e, errors r !! "vehicleCount" = Some e
         /\ ("vehicleCount" <> "utilisationRampMonths"
             -> e = "vehicleCount" +:+ " is required").
Proof.
  assert (("vehicleCount", ranged 1 10000 "integer"
             "Number of vehicles must be between 1 and 10,000") ∈ validationSchema) as H1
    by in_schema.
  assert (isAbsent (get (delete "vehicleCount" fixture) "vehicleCount") = true) as H2
    by (vm_compute; reflexivity).
  split; [exact H1|]. split; [exact H2|].
  exact (absent_field_is_required today _ _ _ H1 H2).
Defined.

(** *** The currency and the start month *)

Lemma currency_error now raw r out :
  validateInputs now raw = Ok (r, out) ->
  (errors r !! "currency" = None
   <-> ToString (get raw "currency") ∈ ["EUR"; "USD"; "GBP"])
  /\ (errors r !! "currency" = None ->
      get (coercedInputs r) "currency" = VStr (ToString (get raw "currency"))).
Proof.
  intros Hv.
  rewrite (error_lookup now raw r out "currency" _ Hv ltac:(in_schema) ltac:(done)).
  apply validateInputs_inv in Hv as (_ & _ & ->).
  rewrite (coerced_lookup raw "currency" _ ltac:(in_schema)).
  unfold fieldError, coercedAt, coerceValue. cbn [type].
  destruct (isAbsent (get raw "currency")) eqn:Habs.
  { split; [|done]. split; [done|]. intros Hin.
    destruct (get raw "currency") as [| | | |s]; try done;
      [..|cbn in Habs; apply String.eqb_eq in Habs as ->];
      cbn in Hin; by repeat (apply elem_of_cons in Hin as [?|Hin]; [done|]);
      apply elem_of_nil in Hin. }
  change (String.eqb "string" "integer") with false.
  change (String.eqb "string" "number") with false.
  change (String.eqb "string" "string") with true. cbv iota.
  set (t := ToString (get raw "currency")).
  unfold validateField. cbn [type allowedValues min max].
  destruct (isAbsent (VStr t)) eqn:Ht.
  { cbn in Ht. apply String.eqb_eq in Ht. split; [|done]. split; [done|].
    rewrite Ht. intros Hin.
    by repeat (apply elem_of_cons in Hin as [?|Hin]; [done|]); apply elem_of_nil in Hin. }
  change (String.eqb "string" "integer") with false.
  change (String.eqb "string" "number") with false.
  change (String.eqb "string" "string") with true.
  cbn [andb negb isString].
  destruct (includes ["EUR"; "USD"; "GBP"] (VStr t)) eqn:Hinc; cbn [negb].
  - apply includes_elem in Hinc. done.
  - split; [|done]. split; [done|]. intros Hin%includes_elem. congruence.
Qed.

(** X5. The currency has no error exactly when the text of the raw value is
    one of EUR, USD and GBP, letter for letter; the coerced record then
    holds that text. *)
Theorem currency_must_be_a_listed_code (now : Date) (raw : obj) :
  exists r out,
    validateInputs now raw = Ok (r, out)
    /\ (errors r !! "currency" = None
        <-> ToString (get raw "currency") ∈ ["EUR"; "USD"; "GBP"])
    /\ (errors r !! "currency" = None ->
        get (coercedInputs r) "currency" = VStr (ToString (get raw "currency"))).
Proof.
  destruct (validateInputs_eq now raw) as [out E]. eexists _, out.
  split; [exact E|]. exact (currency_error now raw _ out E).
Qed.

Lemma month_error now raw r out :
  validateInputs now raw = Ok (r, out) ->
  (errors r !! "startMonth" = None
   <-> exists s, get raw "startMonth" = VStr s /\ isCalendarMonth s = true)
  /\ (errors r !! "startMonth" = None ->
      get (coercedInputs r) "startMonth" = get raw "startMonth").
Proof.
  intros Hv.
  rewrite (error_lookup now raw r out "startMonth" _ Hv ltac:(in_schema) ltac:(done)).
  apply validateInputs_inv in Hv as (_ & _ & ->).
  rewrite (coerced_lookup raw "startMonth" _ ltac:(in_schema)).
  unfold fieldError, coercedAt. cbn [type]. rewrite coerceValue_month.
  destruct (get raw "startMonth") as [| | | |s];
    try (split; [split; [done|by intros (? & ? & ?)]|done]).
  destruct (isCalendarMonth s) eqn:Hs.
  - assert (validateField "startMonth" (VStr s)
              {| min := None; max := None; type := "date"; allowedValues := None;
                 error := "Start month must be a valid date in YYYY-MM format" |} = None)
      as ->.
    { destruct s; [done|]. reflexivity. }
    split; [|done]. split; [eauto|done].
  - split; [|done]. split; [done|]. intros (? & [= <-] & ?). congruence.
Qed.

(** X6. The start month has no error exactly when the raw value is a string
    of the form YYYY-MM with a month from 01 to 12 and a year from 0100 on
    (the years 0000 to 0099 are taken by [Date] for 1900 to 1999 and fail
    the check); the coerced record then holds the same string. *)
Theorem start_month_must_be_a_calendar_month (now : Date) (raw : obj) :
  exists r out,
    validateInputs now raw = Ok (r, out)
    /\ (errors r !! "startMonth" = None
        <-> exists s, get raw "startMonth" = VStr s /\ isCalendarMonth s = true)
    /\ (errors r !! "startMonth" = None ->
        get (coercedInputs r) "startMonth" = get raw "startMonth").
Proof.
  destruct (validateInputs_eq now raw) as [out E]. eexists _, out.
  split; [exact E|]. exact (month_error now raw _ out E).
Qed.

(** *** What a validated record holds *)

Lemma numeric_conforms inputs name lo hi ty err :
  Validated inputs ->
  (name, ranged lo hi ty err) ∈ validationSchema ->
  ty = "integer" \/ ty = "number" ->
  PrimFloat.is_nan lo = false -> PrimFloat.is_nan hi = false ->
  conforms (ranged lo hi ty err) (get inputs name).
Proof.
  intros (now & raw & r & out & Hv & Hok & <-) Hin Hty Hlo Hhi.
  destruct (valid_field now raw r out name _ Hv Hok Hin) as [Hc He].
  rewrite Hc. unfold fieldError in He.
  apply validateField_None in He as (Habs & Hint & Hmin & Hmax).
  unfold coercedAt in *. cbn [type ranged] in *.
  destruct (coerce_number _ _ Hty Habs) as (x & Ex & Hn). rewrite Ex in *.
  unfold conforms. cbn [type ranged].
  assert (String.eqb ty "integer" || String.eqb ty "number" = true) as ->.
  { by destruct Hty as [-> | ->]. }
  exists x. split; [done|]. split; [done|]. split; [|done].
  split; cbn [min max ranged].
  - intros ? [= <-]. apply ltb_leb; [done..|]. by apply Hmin.
  - intros ? [= <-]. apply ltb_leb; [done..|]. by apply Hmax.
Qed.

Lemma validated_conforms inputs name sch :
  Validated inputs -> (name, sch) ∈ validationSchema -> conforms sch (get inputs name).
Proof.
  intros Hval Hin. pose proof Hin as Hin'.
  apply list_elem_of_In in Hin'. cbn [In validationSchema] in Hin'.
  repeat (destruct Hin' as [[= <- <-]|Hin'];
    [ try (apply numeric_conforms;
             [exact Hval|exact Hin|first [by left|by right]|reflexivity|reflexivity]) |]);
    [..|done].
  - destruct Hval as (now & raw & r & out & Hv & Hok & <-).
    destruct (currency_error now raw r out Hv) as [Hiff Hco].
    assert (errors r !! "currency" = None) as Hnone.
    { apply (valid_iff_no_error now raw r out Hv) in Hok. by rewrite Hok. }
    rewrite (Hco Hnone). unfold conforms.
    change (∃ s, VStr (ToString (get raw "currency")) = VStr s
                 ∧ ∀ allowed, Some ["EUR"; "USD"; "GBP"] = Some allowed → s ∈ allowed).
    eexists. split; [done|]. intros ? [= <-]. by apply Hiff.
  - destruct Hval as (now & raw & r & out & Hv & Hok & <-).
    destruct (month_error now raw r out Hv) as [Hiff Hco].
    assert (errors r !! "startMonth" = None) as Hnone.
    { apply (valid_iff_no_error now raw r out Hv) in Hok. by rewrite Hok. }
    rewrite (Hco Hnone). apply Hiff in Hnone as (s & -> & Hs).
    unfold conforms.
    change (∃ s0, VStr s = VStr s0 ∧ isCalendarMonth s0 = true). eauto.
Qed.

(** X7. Every field of the coerced record of a successful validation
    satisfies its entry of the schema: a numeric field is a Number, not NaN,
    within the bounds, both included, and whole if the entry is an integer;
    the currency is one of the allowed codes; the start month is a calendar
    month YYYY-MM. *)
Theorem validated_record_conforms_to_schema (inputs : obj) (name : string) (sch : Schema) :
  Validated inputs -> (name, sch) ∈ validationSchema -> conforms sch (get inputs name).
Proof. apply validated_conforms. Qed.

Lemma validated_record_conforms_to_schema_witness :
  Validated fixtureInputs
  /\ ("fuelPricePerLitre", ranged 0.5 5 "number"
        "Fuel price must be between €0.50 and €5.00 per litre") ∈ validationSchema
  /\ conforms (ranged 0.5 5 "number"
                 "Fuel price must be between €0.50 and €5.00 per litre")
       (get fixtureInputs "fuelPricePerLitre").
Proof.
  assert (Validated fixtureInputs) as H.
  { exists today, fixture, fixtureResult, fixtureConsole.
    split; [vm_compute; reflexivity|split; reflexivity]. }
  assert (("fuelPricePerLitre", ranged 0.5 5 "number"
        "Fuel price must be between €0.50 and €5.00 per litre") ∈ validationSchema) as H2
    by in_schema.
  split; [exact H|]. split; [exact H2|].
  exact (validated_record_conforms_to_schema fixtureInputs _ _ H H2).
Defined.

(** *** The summary *)

Lemma string_length_app (a b : string) :
  String.length (a +:+ b) = String.length a + String.length b.
Proof.
  induction a as [|c a IH]; [done|].
  change (S (String.length (a +:+ b)) = S (String.length a + String.length b)).
  by rewrite IH.
Qed.

Lemma summary_of now raw r out :
  validateInputs now raw = Ok (r, out) ->
  exists sm,
    getValidationSummary now raw = Ok (sm, out)
    /\ canCalculate now raw = Ok (Summary.isValid sm)
    /\ (Summary.isValid sm = true <-> Summary.errorCount sm = 0)
    /\ Summary.errorCount sm <= 22
    /\ Summary.errors sm = errors r
    /\ Summary.hasWarnings sm = false
    /\ (Summary.summary sm = "All inputs are valid" <-> Summary.isValid sm = true).
Proof.
  intros Hv. unfold getValidationSummary, canCalculate. rewrite Hv.
  eexists. split; [reflexivity|]. cbn [Summary.isValid Summary.errorCount
    Summary.errors Summary.hasWarnings Summary.summary].
  split; [reflexivity|].
  pose proof (valid_iff_no_error now raw r out Hv) as Hiff.
  destruct (result_keys now raw r out Hv) as (_ & Hdom & _).
  split; [|split; [|split; [done|split; [done|]]]].
  - rewrite Hiff. symmetry. apply map_size_empty_iff.
  - rewrite <- size_dom, <- schemaKeys_size. by apply subseteq_size.
  - destruct (isValid r); [done|]. split; [|done]. intros E.
    apply (f_equal String.length) in E. rewrite string_length_app in E. cbn in E. lia.
Qed.

(** X8. [getValidationSummary] reports the validity [canCalculate] returns;
    it is valid exactly when the error count is 0, which never exceeds the 22
    fields of the schema; the summary line is "All inputs are valid" exactly
    then; and [hasWarnings] is false whatever was validated. *)
Theorem validation_summary_counts_errors (now : Date) (raw : obj) :
  exists sm out,
    getValidationSummary now raw = Ok (sm, out)
    /\ canCalculate now raw = Ok (Summary.isValid sm)
    /\ (Summary.isValid sm = true <-> Summary.errorCount sm = 0)
    /\ Summary.errorCount sm <= 22
    /\ Summary.hasWarnings sm = false
    /\ (Summary.summary sm = "All inputs are valid" <-> Summary.isValid sm = true).
Proof.
  destruct (validateInputs_eq now raw) as [out E].
  destruct (summary_of now raw _ out E) as (sm & H1 & H2 & H3 & H4 & _ & H5 & H6).
  by exists sm, out.
Qed.

(** *** The text of a Number starts with a digit *)

Lemma stringOfZ_digit z : exists c r, stringOfZ z = String c r /\ isDigit c = true.
Proof.
  unfold stringOfZ. destruct (N.to_uint (Z.to_N z)); cbn; eauto.
Qed.

Lemma layoutNumber_digit c r k n :
  isDigit c = true ->
  exists c' r', layoutNumber (String c r) k n = String c' r' /\ isDigit c' = true.
Proof.
  intros Hc. unfold layoutNumber.
  destruct ((k <=? n)%Z && (n <=? 21)%Z); [cbn; eauto|].
  destruct ((0 <? n)%Z && (n <=? 21)%Z) eqn:E.
  { apply andb_prop in E as [E _]. apply Z.ltb_lt in E.
    destruct (Z.to_nat n) as [|n'] eqn:En; [lia|]. cbn. eauto. }
  destruct ((-6 <? n)%Z && (n <=? 0)%Z); [cbn; eauto|].
  destruct (k =? 1)%Z; cbn; eauto.
Qed.

Lemma scanDigits_count s : forall acc n,
  (n <= (scanDigits acc n s).1.2)%Z.
Proof.
  induction s as [|c s IH]; intros acc n; cbn [scanDigits]; [cbn; lia|].
  destruct (isDigit c); [|cbn; lia].
  specialize (IH (acc * 10 + digitVal c)%Z (n + 1)%Z). lia.
Qed.

(** A text that starts with a digit has a numeric prefix. *)
Lemma scanDecimal_digit c r :
  isDigit c = true -> exists y rest, scanDecimal (String c r) = Some (y, rest).
Proof.
  intros Hc. unfold scanDecimal.
  assert (scanSign (String c r) = (false, String c r)) as ->.
  { apply isDigit_In in Hc. cbn in Hc.
    repeat (destruct Hc as [<-|Hc]; [reflexivity|]). done. }
  assert (startsWith "Infinity" (String c r) = false) as ->.
  { apply isDigit_In in Hc. cbn in Hc.
    repeat (destruct Hc as [<-|Hc]; [reflexivity|]). done. }
  pose proof (scanDigits_count (String c r) 0 0) as Hn.
  cbn [scanDigits] in Hn. rewrite Hc in Hn.
  pose proof (scanDigits_count r (0 * 10 + digitVal c) (0 + 1)) as Hn'.
  cbn [scanDigits]. rewrite Hc.
  destruct (scanDigits (0 * 10 + digitVal c) (0 + 1) r) as [[ip ni] s2].
  cbn [fst snd] in Hn'.
  destruct (match s2 with String "." r0 => scanDigits ip 0 r0 | _ => (ip, 0%Z, s2) end)
    as [[m nf] s3].
  replace (ni =? 0)%Z with false by (symmetry; apply Z.eqb_neq; lia).
  cbn [andb]. destruct (scanExponent s3). eauto.
Qed.

Lemma digit_not_space c : isDigit c = true -> isWhiteSpace c = false.
Proof.
  intros Hc%isDigit_In. cbn in Hc.
  repeat (destruct Hc as [<-|Hc]; [reflexivity|]). done.
Qed.

(** [parseFloat] reads a Number back from its own text, except NaN. *)
Lemma parseFloat_number x :
  PrimFloat.is_nan x = false -> PrimFloat.is_nan (parseFloat (VNum x)) = false.
Proof.
  intros Hx. unfold parseFloat. cbn [ToString].
  assert (exists y rest, scanDecimal (trimStart (numberToString x)) = Some (y, rest))
    as (y & rest & E).
  { unfold numberToString. apply is_nan_spec in Hx.
    destruct (Prim2SF x) as [s|[]| |sg m e] eqn:Ex; try done.
    1-3: vm_compute; eauto.
    destruct (fractionOf m e) as [num den].
    destruct (shortestDigits _ _ _ _ _ _) as [s k].
    destruct (if (s =? 10 ^ k)%Z then _ else _) as [s' n].
    destruct (stringOfZ_digit s') as (c & r & Es & Hc). rewrite Es.
    destruct (layoutNumber_digit c r k n Hc) as (c' & r' & El & Hc'). rewrite El.
    destruct sg.
    - change (trimStart ("-" +:+ String c' r')) with (String "-" (String c' r')).
      unfold scanDecimal.
      change (scanSign (String "-" (String c' r'))) with (true, String c' r').
      destruct (scanDecimal_digit c' r' Hc') as (y & rest & E).
      unfold scanDecimal in E.
      assert (scanSign (String c' r') = (false, String c' r')) as Esg.
      { apply isDigit_In in Hc'. cbn in Hc'.
        repeat (destruct Hc' as [<-|Hc']; [reflexivity|]). done. }
      rewrite Esg in E. revert E. cbv iota beta.
      destruct (startsWith "Infinity" (String c' r')); [eauto|].
      destruct (scanDigits 0 0 (String c' r')) as [[ip ni] s2].
      destruct (match s2 with String "." r0 => scanDigits ip 0 r0 | _ => (ip, 0%Z, s2) end)
        as [[m0 nf] s3].
      destruct ((ni =? 0)%Z && (nf =? 0)%Z); [done|].
      destruct (scanExponent s3). eauto.
    - change ("" +:+ String c' r') with (String c' r'). cbn [trimStart].
      rewrite (digit_not_space c' Hc'). by apply scanDecimal_digit. }
  rewrite E. by apply (scanDecimal_notNaN _ _ _ E).
Qed.

(** *** "is required" is said of absent values only *)

Lemma string_app_inv (a b c : string) : a +:+ b = a +:+ c -> b = c.
Proof. induction a as [|x a IH]; [done|]. intros [= E]. by apply IH. Qed.

Lemma validateField_not_required name v sch :
  isAbsent v = false -> validateField name v sch <> Some (name +:+ " is required").
Proof.
  intros Habs. unfold validateField. rewrite Habs.
  destruct (String.eqb (type sch) "integer" && _);
    [intros [= E]; by apply string_app_inv in E|].
  destruct (String.eqb (type sch) "number" && _);
    [intros [= E]; by apply string_app_inv in E|].
  destruct (String.eqb (type sch) "string" && _);
    [intros [= E]; by apply string_app_inv in E|].
  destruct v, (min sch), (max sch), (allowedValues sch); cbv zeta;
    repeat (match goal with |- context [if ?b then _ else _] => destruct b end);
    try done; intros [= E]; by apply string_app_inv in E.
Qed.

End ValidationExtras.

(** ** Further properties of the engine *)

Module EngineExtras.
Import JS Validation Formulas Notions NumberFacts ValidationFacts EngineFacts.
#[local] Set Warnings "-clear-no-such-hyp".

(** *** [calculatePayback] on any array *)

(** X9. When no element before the last is at least 0, [calculatePayback]
    returns the length of the array whatever the last element is: a payback
    in the last month and no payback at all give the same result.  An array
    none of whose elements is at least 0 (NaN is not) gives its length, 0 for
    the empty array. *)
Theorem last_month_payback_equals_the_sentinel (l : list float) (x : float) :
  Forall (fun y => (0 <=? y)%float = false) l ->
  calculatePayback (l ++ [x]) = length (l ++ [x])
  /\ calculatePayback l = length l.
Proof.
  intros Hall. rewrite Forall_lookup in Hall. split.
  - rewrite length_app. cbn [length]. unfold calculatePayback.
    destruct (0 <=? x)%float eqn:Hx.
    + rewrite (paybackFrom_first 0 (l ++ [x]) (length l) x); [lia| |done|].
      * by rewrite lookup_app_r, Nat.sub_diag by lia.
      * intros j y Hj Hy. rewrite lookup_app_l in Hy by done. by apply (Hall j).
    + rewrite paybackFrom_none; [rewrite length_app; cbn; lia|].
      intros j y Hy. destruct (decide (j < length l)) as [Hj|Hj].
      * rewrite lookup_app_l in Hy by done. by apply (Hall j).
      * rewrite lookup_app_r in Hy by lia.
        destruct (j - length l) as [|k]; [by injection Hy as <-|done].
  - unfold calculatePayback. rewrite paybackFrom_none; [done|]. apply Hall.
Qed.

Lemma last_month_payback_equals_the_sentinel_witness :
  Forall (fun y => (0 <=? y)%float = false) [(-19000)%float; (-950.5)%float]
  /\ calculatePayback ([(-19000)%float; (-950.5)%float] ++ [120%float])
     = length ([(-19000)%float; (-950.5)%float] ++ [120%float])
  /\ calculatePayback [(-19000)%float; (-950.5)%float]
     = length [(-19000)%float; (-950.5)%float].
Proof.
  assert (Forall (fun y => (0 <=? y)%float = false) [(-19000)%float; (-950.5)%float]) as H
    by (repeat constructor).
  split; [exact H|].
  exact (last_month_payback_equals_the_sentinel _ 120%float H).
Defined.

(** *** The engine outside validated inputs *)

Lemma timelineLoop_no_throw divide fuel inputs T costs total :
  forall i st e, timelineLoopWith divide fuel inputs T costs total i st <> Throw e.
Proof.
  induction fuel as [|fuel IH]; intros i st e; cbn [timelineLoopWith];
    destruct (i <? total)%float; done.
Qed.


(** X11. When [startMonth] is a string and [timeHorizonYears * 12] is not
    above 0 (a horizon that is 0, negative, or missing and hence NaN), the
    loop does not run: [calculateROI] returns at once, the five arrays are
    empty and the payback is reported as 0 months. *)
Theorem empty_horizon_gives_empty_timeline (fuel : nat) (inputs : obj) (s : string) :
  get inputs "startMonth" = VStr s ->
  (0 <? ToNumber (get inputs "timeHorizonYears") * 12)%float = false ->
  exists out,
    calculateROI fuel inputs = Ok out
    /\ timeline out = emptyTimeline
    /\ paybackMonths out = 0.
Proof.
  intros Hs Hh. unfold calculateROI, calculateTimeline, calculateTimelineWith.
  rewrite Hs. destruct fuel; cbn [timelineLoopWith]; rewrite Hh;
    eexists; (split; [reflexivity|done]).
Qed.

Lemma empty_horizon_gives_empty_timeline_witness :
  get (delete "timeHorizonYears" fixtureInputs) "startMonth" = VStr "2024-05"
  /\ (0 <? ToNumber (get (delete "timeHorizonYears" fixtureInputs) "timeHorizonYears") * 12)%float
     = false
  /\ exists out,
    calculateROI 0 (delete "timeHorizonYears" fixtureInputs) = Ok out
    /\ timeline out = emptyTimeline
    /\ paybackMonths out = 0.
Proof.
  assert (get (delete "timeHorizonYears" fixtureInputs) "startMonth" = VStr "2024-05") as H1
    by (vm_compute; reflexivity).
  assert ((0 <? ToNumber (get (delete "timeHorizonYears" fixtureInputs) "timeHorizonYears") * 12)%float
     = false) as H2 by (vm_compute; reflexivity).
  split; [exact H1|]. split; [exact H2|].
  exact (empty_horizon_gives_empty_timeline 0 _ _ H1 H2).
Defined.

(** *** The costs month by month *)

Lemma F_pred k : k <= 119 -> (F (S k) - 1)%float = F k.
Proof.
  intros Hk. apply FloatAxioms.Leibniz.eqb_spec.
  do 120 (destruct k as [|k]; [vm_compute; reflexivity|]). lia.
Qed.

(** X12. For a validated input the costs of a month are the twelfth of the
    subscription plus the twelfth of the maintenance; the first month adds
    the hardware and the one-off costs (a Number: both fields are); the last
    month, and only it, deducts the resale share of the hardware when the
    recovery percentage is above 0; every month in between has the same
    costs. *)
Theorem monthly_costs_by_month (inputs : obj) :
  Validated inputs ->
  exists (h : nat) (out : CalculationOutputs) (o : float),
    1 <= h <= 10
    /\ (forall fuel, 120 <= fuel -> calculateROI fuel inputs = Ok out)
    /\ oneOff (costs out) = VNum o
    /\ forall i, i < 12 * h ->
         costsMonthly (timeline out) !! i
         = Some (VNum
             (let flat := (opexSubscriptionAnnual (costs out) / 12
                           + maintenanceAnnual (costs out) / 12)%float in
              let resale := ToNumber (get inputs "resaleRecoveryPctHardware") in
              if (i =? 0)%nat then (flat + (capexHardware (costs out) + o))%float
              else if (i =? 12 * h - 1)%nat && (0 <? resale)%float
                   then (flat - capexHardware (costs out) * (resale / 100))%float
                   else flat)).
Proof.
  intros Hv. destruct (validated_shape inputs Hv) as (h & Hh & Hy & s & Hs).
  destruct (calculateROI_run inputs h s Hh Hy Hs) as (out & Hrun & Ht & _).
  destruct (calculateROI_parts 120 inputs out (Hrun 120 ltac:(lia))) as [_ Ec].
  destruct (costs_below inputs Hv) as (_ & _ & (o & Eo & _) & _).
  exists h, out, o. split; [done|]. split; [intros fuel Hf; apply Hrun; lia|].
  rewrite Ec. split; [done|]. intros i Hi. rewrite Ht, Ec.
  destruct (run_arrays PrimFloat.div inputs (totalSavingsAnnual out)
              (calculateProgramCosts inputs) (12 * h) (12 * h))
    as (_ & _ & -> & _).
  rewrite lookup_fmap_seq by done. f_equal.
  unfold costsAt. rewrite Eo.
  change (F i =? 0)%float with (F i =? F 0)%float.
  destruct (F_order i 0) as [_ ->]; [lia..|].
  replace (F (12 * h) - 1)%float with (F (12 * h - 1)).
  2:{ rewrite <- (F_pred (12 * h - 1)) by lia. do 2 f_equal. lia. }
  destruct (F_order i (12 * h - 1)) as [_ ->]; [lia..|].
  destruct (Nat.eqb_spec i 0) as [->|Hi0].
  - replace (0 =? 12 * h - 1)%nat with false by (symmetry; apply Nat.eqb_neq; lia).
    reflexivity.
  - destruct (_ && _); reflexivity.
Qed.

Lemma monthly_costs_by_month_witness :
  Validated fixtureInputs /\
  exists (h : nat) (out : CalculationOutputs) (o : float),
    1 <= h <= 10
    /\ (forall fuel, 120 <= fuel -> calculateROI fuel fixtureInputs = Ok out)
    /\ oneOff (costs out) = VNum o
    /\ forall i, i < 12 * h ->
         costsMonthly (timeline out) !! i
         = Some (VNum
             (let flat := (opexSubscriptionAnnual (costs out) / 12
                           + maintenanceAnnual (costs out) / 12)%float in
              let resale := ToNumber (get fixtureInputs "resaleRecoveryPctHardware") in
              if (i =? 0)%nat then (flat + (capexHardware (costs out) + o))%float
              else if (i =? 12 * h - 1)%nat && (0 <? resale)%float
                   then (flat - capexHardware (costs out) * (resale / 100))%float
                   else flat)).
Proof.
  assert (Validated fixtureInputs) as H.
  { exists today, fixture, fixtureResult, fixtureConsole.
    split; [vm_compute; reflexivity|split; reflexivity]. }
  split; [exact H|]. exact (monthly_costs_by_month fixtureInputs H).
Defined.

End EngineExtras.

(** ** The controller of the form: ui.js *)

Module UiFacts.
Import JS Validation Formulas Notions NumberFacts ValidationFacts EngineFacts ScenarioFacts.
Import ValidationExtras EngineExtras.
Import Ui.
#[local] Set Warnings "-clear-no-such-hyp".

Import Ui.

Lemma scenarioInputsOf_eq coerced scenario :
  scenarioInputsOf coerced scenario = Some (adjusted scenario coerced).
Proof.
  unfold scenarioInputsOf.
  destruct (applyScenario_eq {[1%positive := coerced]} 1%positive coerced scenario)
    as [-> _]; [apply lookup_singleton_eq|].
  cbn [mbind option_bind]. by rewrite lookup_insert_eq.
Qed.

Lemma scaled_other k o f : f ∉ sensitivityFields -> get (scaled k o) f = get o f.
Proof.
  intros Hf. destruct (three_fields_scaled o k) as [_ H]. unfold get. by rewrite H.
Qed.

Lemma adjusted_other scenario o f :
  f ∉ sensitivityFields -> get (adjusted scenario o) f = get o f.
Proof.
  intros Hf. unfold adjusted.
  destruct (strictEq _ _); [by apply scaled_other|].
  destruct (strictEq _ _); [by apply scaled_other|done].
Qed.

(** The engine returns on the adjusted record of a validated input. *)
Lemma adjusted_run inputs scenario :
  Validated inputs ->
  exists (h : nat) out,
    1 <= h <= 10
    /\ get inputs "timeHorizonYears" = VNum (F h)
    /\ (forall fuel, 120 <= fuel -> calculateROI fuel (adjusted scenario inputs) = Ok out)
    /\ length (cumNetMonthly (timeline out)) = 12 * h
    /\ 1 <= paybackMonths out <= 12 * h.
Proof.
  intros Hv. destruct (validated_shape inputs Hv) as (h & Hh & Hy & s & Hs).
  assert ("timeHorizonYears" ∉ sensitivityFields) as N1
    by (apply (bool_decide_unpack _); by vm_compute).
  assert ("startMonth" ∉ sensitivityFields) as N2
    by (apply (bool_decide_unpack _); by vm_compute).
  destruct (calculateROI_run (adjusted scenario inputs) h s Hh)
    as (out & Hrun & Ht & Hp & _).
  { by rewrite adjusted_other. }
  { by rewrite adjusted_other. }
  exists h, out. split; [done|]. split; [done|].
  split; [intros fuel Hf; apply Hrun; lia|].
  assert (length (cumNetMonthly (timeline out)) = 12 * h) as Hlen.
  { rewrite Ht.
    destruct (run_arrays PrimFloat.div (adjusted scenario inputs) (totalSavingsAnnual out)
                (costs out) (12 * h) (12 * h)) as (_ & _ & _ & _ & ->).
    by rewrite runningSum_length, length_fmap, length_seq. }
  split; [done|]. rewrite Hp. unfold calculatePayback.
  pose proof (paybackFrom_le 0 (cumNetMonthly (timeline out))) as Hle.
  rewrite Hlen in Hle. split; [|lia].
  destruct (cumNetMonthly (timeline out)) as [|c l]; [cbn in Hlen; lia|].
  cbn [paybackFrom]. destruct (0 <=? c)%float; [lia|].
  pose proof (paybackFrom_le (0 + 1) l). lia.
Qed.

Lemma performCalculation_spec now fuel this validation out :
  120 <= fuel -> isCalculating this = false ->
  validateInputs now (currentInputs this) = Ok (validation, out) ->
  exists this' calls,
    performCalculation now fuel this = Ok (this', calls, out)
    /\ isCalculating this' = false
    /\ currentInputs this' = currentInputs this
    /\ currentScenario this' = currentScenario this
    /\ (isValid validation = false ->
        calls = [showValidationErrors (errors validation)]
        /\ currentResults this' = currentResults this)
    /\ (isValid validation = true ->
        exists results (h : nat),
          calculateROI fuel (adjusted (currentScenario this) (coercedInputs validation))
            = Ok results
          /\ calls = [clearValidationErrors; updateKPI results; updateCharts results;
                      updateCurrencyDisplay (get (coercedInputs validation) "currency")]
          /\ currentResults this' = Some results
          /\ get (coercedInputs validation) "timeHorizonYears" = VNum (F h)
          /\ length (cumNetMonthly (timeline results)) = 12 * h
          /\ 1 <= paybackMonths results <= 12 * h).
Proof.
  intros Hf Hc Hv. unfold performCalculation. rewrite Hc, Hv.
  destruct (isValid validation) eqn:Hok; cbn [negb].
  - assert (Validated (coercedInputs validation)) as Hval.
    { by exists now, (currentInputs this), validation, out. }
    destruct (adjusted_run _ (currentScenario this) Hval)
      as (h & results & Hh & Hy & Hrun & Hlen & Hp).
    rewrite scenarioInputsOf_eq, (Hrun fuel Hf).
    eexists _, _. split; [reflexivity|]. cbn [finish isCalculating currentInputs
      currentScenario currentResults].
    split; [done|]. split; [done|]. split; [done|]. split; [done|].
    intros _. exists results, h. split; [done|].
    split; [|done].
    rewrite adjusted_other; [done|]. apply (bool_decide_unpack _). by vm_compute.
  - eexists _, _. split; [reflexivity|]. cbn [finish isCalculating currentInputs
      currentScenario currentResults]. done.
Qed.

(** X13. [performCalculation] on a controller at rest, with at least 120
    turns for the loop: it returns and clears its flag; when the validation
    fails it shows the errors and keeps the earlier results; when it
    succeeds the engine, run on the scenario-adjusted coerced record, returns
    for every scenario value: the results are stored and displayed, their
    timeline covers the whole horizon, and neither the validation, the
    adjuster nor the engine throws, so that [showCalculationError] is not
    called on their account. *)
Theorem calculation_never_fails_after_validation
    (now : Date) (fuel : nat) (this : UIController) :
  120 <= fuel -> isCalculating this = false ->
  exists validation out this' calls,
    validateInputs now (currentInputs this) = Ok (validation, out)
    /\ performCalculation now fuel this = Ok (this', calls, out)
    /\ isCalculating this' = false
    /\ currentInputs this' = currentInputs this
    /\ currentScenario this' = currentScenario this
    /\ (isValid validation = false ->
        calls = [showValidationErrors (errors validation)]
        /\ currentResults this' = currentResults this)
    /\ (isValid validation = true ->
        exists results (h : nat),
          calculateROI fuel (adjusted (currentScenario this) (coercedInputs validation))
            = Ok results
          /\ calls = [clearValidationErrors; updateKPI results; updateCharts results;
                      updateCurrencyDisplay (get (coercedInputs validation) "currency")]
          /\ currentResults this' = Some results
          /\ get (coercedInputs validation) "timeHorizonYears" = VNum (F h)
          /\ length (cumNetMonthly (timeline results)) = 12 * h
          /\ 1 <= paybackMonths results <= 12 * h).
Proof.
  intros Hf Hc. destruct (validateInputs_eq now (currentInputs this)) as [out E].
  destruct (performCalculation_spec now fuel this _ out Hf Hc E) as (this' & calls & H).
  eexists _, out, this', calls. split; [exact E|exact H].
Qed.

Lemma calculation_never_fails_after_validation_witness :
  120 <= 120 /\ isCalculating fixtureController = false /\
  exists validation out this' calls,
    validateInputs today (currentInputs fixtureController) = Ok (validation, out)
    /\ performCalculation today 120 fixtureController = Ok (this', calls, out)
    /\ isCalculating this' = false
    /\ currentInputs this' = currentInputs fixtureController
    /\ currentScenario this' = currentScenario fixtureController
    /\ (isValid validation = false ->
        calls = [showValidationErrors (errors validation)]
        /\ currentResults this' = currentResults fixtureController)
    /\ (isValid validation = true ->
        exists results (h : nat),
          calculateROI 120 (adjusted (currentScenario fixtureController)
                              (coercedInputs validation))
            = Ok results
          /\ calls = [clearValidationErrors; updateKPI results; updateCharts results;
                      updateCurrencyDisplay (get (coercedInputs validation) "currency")]
          /\ currentResults this' = Some results
          /\ get (coercedInputs validation) "timeHorizonYears" = VNum (F h)
          /\ length (cumNetMonthly (timeline results)) = 12 * h
          /\ 1 <= paybackMonths results <= 12 * h).
Proof.
  split; [lia|]. split; [reflexivity|].
  exact (calculation_never_fails_after_validation today 120 fixtureController
           (le_n 120) eq_refl).
Defined.

Lemma number_control this name el :
  inputElements this !! name = Some el -> Element.type el = "number" ->
  exists x,
    get (currentInputs (updateInputsFromDOM this)) name = VNum x
    /\ PrimFloat.is_nan x = false
    /\ (ToBoolean (VNum (parseFloat (VStr (Element.value el)))) = false -> x = 0%float).
Proof.
  intros Hel Hty. unfold updateInputsFromDOM, get. cbn [currentInputs].
  rewrite lookup_fmap, Hel. cbn [fmap option_fmap option_map default]. rewrite Hty.
  change (String.eqb "number" "number") with true. cbv iota zeta.
  destruct (ToBoolean (VNum (parseFloat (VStr (Element.value el))))) eqn:E.
  - eexists. split; [done|]. split; [|done].
    cbn [ToBoolean] in E. apply negb_true_iff, orb_false_iff in E as [_ E]. done.
  - exists 0%float. done.
Qed.

Lemma number_field_of_number now raw r out name sch x :
  validateInputs now raw = Ok (r, out) ->
  (name, sch) ∈ validationSchema -> type sch = "number" ->
  get raw name = VNum x -> PrimFloat.is_nan x = false ->
  exists y,
    get (coercedInputs r) name = VNum y /\ PrimFloat.is_nan y = false
    /\ y = parseFloat (VNum x)
    /\ errors r !! name = validateField name (VNum y) sch
    /\ errors r !! name <> Some (name +:+ " is required").
Proof.
  intros Hv Hin Hty Hraw Hx.
  destruct (ValidationClaims.number_schema name sch Hin Hty) as [_ Hne].
  rewrite (error_lookup now raw r out name sch Hv Hin Hne).
  apply validateInputs_inv in Hv as (_ & _ & ->).
  rewrite (coerced_lookup raw name sch Hin).
  unfold fieldError, coercedAt, coerceValue. rewrite Hraw, Hty.
  change (isAbsent (VNum x)) with false. cbv iota.
  change (String.eqb "number" "integer") with false.
  change (String.eqb "number" "number") with true. cbv iota zeta.
  rewrite (parseFloat_number x Hx).
  exists (parseFloat (VNum x)). split; [done|].
  split; [by apply parseFloat_number|]. split; [done|]. split; [done|].
  by apply validateField_not_required.
Qed.

Lemma zero_in_bounds name sch :
  (name, sch) ∈ validationSchema -> type sch = "number" -> min sch = Some 0%float ->
  validateField name (VNum 0) sch = None.
Proof.
  intros Hin Hty Hmin. apply list_elem_of_In in Hin. cbn [In validationSchema] in Hin.
  repeat (destruct Hin as [[= <- <-]|Hin]; [try done; try reflexivity|]).
  done.
Qed.

Lemma number_control_validated now this name el sch r out :
  inputElements this !! name = Some el -> Element.type el = "number" ->
  (name, sch) ∈ validationSchema -> type sch = "number" ->
  validateInputs now (currentInputs (updateInputsFromDOM this)) = Ok (r, out) ->
  exists y,
    get (coercedInputs r) name = VNum y
    /\ PrimFloat.is_nan y = false
    /\ errors r !! name <> Some (name +:+ " is required")
    /\ (ToBoolean (VNum (parseFloat (VStr (Element.value el)))) = false ->
        min sch = Some 0%float ->
        y = 0%float /\ errors r !! name = None).
Proof.
  intros Hel Hty Hin Hsch Hv.
  destruct (number_control this name el Hel Hty) as (x & Hraw & Hx & Hzero).
  destruct (number_field_of_number now _ r out name sch x Hv Hin Hsch Hraw Hx)
    as (y & Hc & Hy & Ey & He & Hreq).
  exists y. split; [done|]. split; [done|]. split; [done|].
  intros Hz Hmin. specialize (Hzero Hz). subst x.
  assert (y = 0%float) as -> by (rewrite Ey; vm_compute; reflexivity).
  split; [done|]. rewrite He. by apply zero_in_bounds.
Qed.

(** X14. A control of type [number] is read as a Number that is not NaN:
    its text when that starts with a numeric literal other than zero, and 0
    otherwise - also when the box is empty.  For a number-typed field of the
    schema the validation of what [updateInputsFromDOM] has read therefore
    never reports "<field> is required"; an emptied box of a field whose
    minimum is 0 is accepted as 0 without an error. *)
Theorem number_control_is_never_required
    (now : Date) (this : UIController) (name : string) (el : Element.t) (sch : Schema) :
  inputElements this !! name = Some el -> Element.type el = "number" ->
  (name, sch) ∈ validationSchema -> type sch = "number" ->
  exists r out y,
    validateInputs now (currentInputs (updateInputsFromDOM this)) = Ok (r, out)
    /\ get (coercedInputs r) name = VNum y
    /\ PrimFloat.is_nan y = false
    /\ errors r !! name <> Some (name +:+ " is required")
    /\ (ToBoolean (VNum (parseFloat (VStr (Element.value el)))) = false ->
        min sch = Some 0%float ->
        y = 0%float /\ errors r !! name = None).
Proof.
  intros Hel Hty Hin Hsch.
  destruct (validateInputs_eq now (currentInputs (updateInputsFromDOM this))) as [out E].
  destruct (number_control_validated now this name el sch _ out Hel Hty Hin Hsch E)
    as (y & H).
  eexists _, out, y. split; [exact E|exact H].
Qed.

Lemma number_control_is_never_required_witness :
  inputElements emptiedBox !! "hardwareCostPerVehicle"
    = Some {| Element.type := "number"; Element.value := "" |}
  /\ Element.type {| Element.type := "number"; Element.value := "" |} = "number"
  /\ ("hardwareCostPerVehicle", ranged 0 5000 "number"
        "Hardware cost per vehicle must be between €0 and €5,000") ∈ validationSchema
  /\ type (ranged 0 5000 "number"
        "Hardware cost per vehicle must be between €0 and €5,000") = "number"
  /\ exists r out y,
    validateInputs today (currentInputs (updateInputsFromDOM emptiedBox)) = Ok (r, out)
    /\ get (coercedInputs r) "hardwareCostPerVehicle" = VNum y
    /\ PrimFloat.is_nan y = false
    /\ errors r !! "hardwareCostPerVehicle"
       <> Some ("hardwareCostPerVehicle" +:+ " is required")
    /\ (ToBoolean (VNum (parseFloat
          (VStr (Element.value {| Element.type := "number"; Element.value := "" |}))))
        = false ->
        min (ranged 0 5000 "number"
               "Hardware cost per vehicle must be between €0 and €5,000") = Some 0%float ->
        y = 0%float /\ errors r !! "hardwareCostPerVehicle" = None).
Proof.
  assert (inputElements emptiedBox !! "hardwareCostPerVehicle"
          = Some {| Element.type := "number"; Element.value := "" |}) as H1
    by (vm_compute; reflexivity).
  assert (("hardwareCostPerVehicle", ranged 0 5000 "number"
        "Hardware cost per vehicle must be between €0 and €5,000") ∈ validationSchema) as H3
    by in_schema.
  split; [exact H1|]. split; [reflexivity|]. split; [exact H3|]. split; [reflexivity|].
  exact (number_control_is_never_required today emptiedBox _ _ _ H1 eq_refl H3 eq_refl).
Defined.

End UiFacts.

(** ** The forms of the two simple-calc.js *)

Module FormFacts.
Import JS Validation Formulas Notions NumberFacts ValidationFacts.
Import ValidationExtras.
Import SimpleCalc.
#[local] Open Scope float_scope.
#[local] Set Warnings "-clear-no-such-hyp".

(** *** Reading the form of src/simple-calc.js *)

Lemma foldl_readField document l : forall inputs field,
  foldl (readField document) inputs l !! field
  = if bool_decide (field ∈ l) then
      match document !! field with
      | Some element =>
          Some (if PrimFloat.is_nan (parseFloat (Element.value element))
                then get defaults field
                else VNum (parseFloat (Element.value element)))
      | None => inputs !! field
      end
    else inputs !! field.
Proof.
  induction l as [|f l IH]; intros inputs field; cbn [foldl]; [done|].
  rewrite IH. destruct (decide (field ∈ l)) as [Hin|Hin].
  - rewrite !bool_decide_eq_true_2 by (try done; by right).
    destruct (document !! field) eqn:E; [done|].
    unfold readField. destruct (decide (f = field)) as [->|Hne]; [by rewrite E|].
    destruct (document !! f); [by rewrite lookup_insert_ne|done].
  - rewrite (bool_decide_eq_false_2 (field ∈ l)) by done.
    destruct (decide (f = field)) as [->|Hne].
    + rewrite bool_decide_eq_true_2 by by left.
      unfold readField. destruct (document !! field); [by rewrite lookup_insert_eq|done].
    + rewrite bool_decide_eq_false_2.
      2:{ intros [?|?]%elem_of_cons; done. }
      unfold readField. destruct (document !! f); [by rewrite lookup_insert_ne|done].
Qed.

Lemma defaults_numbers :
  Forall (fun field => exists d, defaults !! field = Some (VNum d)
                                 /\ PrimFloat.is_nan d = false) fields.
Proof. repeat constructor; eexists; split; reflexivity. Qed.

(** X15. Whatever the page holds, every field that [calculate] reads from
    what [getInputs] returns, merged with the defaults, is a Number that is
    not NaN: the Number the text of the element starts with (0 included)
    or, when there is no such element or no leading number, the default.  No
    field is a string, so the one-off costs are added, never concatenated. *)
Theorem form_fields_are_numbers (document : Page) :
  Forall (fun field =>
            exists x,
              get (getInputs document ∪ defaults) field = VNum x
              /\ PrimFloat.is_nan x = false
              /\ match document !! field with
                 | Some element =>
                     if PrimFloat.is_nan (parseFloat (Element.value element))
                     then defaults !! field = Some (VNum x)
                     else x = parseFloat (Element.value element)
                 | None => defaults !! field = Some (VNum x)
                 end) fields.
Proof.
  pose proof defaults_numbers as Hd. rewrite Forall_forall in Hd.
  apply Forall_forall. intros field Hin. destruct (Hd field Hin) as (d & Ed & Hnan).
  assert (field <> "currency") as Hne.
  { intros ->. revert Hin. apply (bool_decide_unpack _). by vm_compute. }
  assert (getInputs document !! field
          = foldl (readField document) ∅ fields !! field) as Hg.
  { unfold getInputs. destruct (document !! "currency"); [|done].
    by rewrite lookup_insert_ne. }
  unfold get. rewrite foldl_readField, bool_decide_eq_true_2 in Hg by done.
  destruct (document !! field) as [element|] eqn:E.
  - rewrite (lookup_union_Some_l _ _ _ _ Hg). cbn [default].
    destruct (PrimFloat.is_nan (parseFloat (Element.value element))) eqn:En.
    + exists d. unfold get. rewrite Ed. done.
    + eexists. done.
  - rewrite lookup_union_r by done. rewrite Ed. exists d. done.
Qed.

(** *** Reading the form of the earlier simple-calc.js *)

Lemma backup_foldl_readField document l : forall inputs field,
  foldl (SimpleCalcBackup.readField document) inputs l !! field
  = if bool_decide (field ∈ l) then
      match document !! field with
      | Some element =>
          Some (if ToBoolean (VNum (parseFloat (Element.value element)))
                then VNum (parseFloat (Element.value element))
                else get SimpleCalcBackup.defaults field)
      | None => inputs !! field
      end
    else inputs !! field.
Proof.
  induction l as [|f l IH]; intros inputs field; cbn [foldl]; [done|].
  rewrite IH. destruct (decide (field ∈ l)) as [Hin|Hin].
  - rewrite !bool_decide_eq_true_2 by (try done; by right).
    destruct (document !! field) eqn:E; [done|].
    unfold SimpleCalcBackup.readField.
    destruct (decide (f = field)) as [->|Hne]; [by rewrite E|].
    destruct (document !! f); [by rewrite lookup_insert_ne|done].
  - rewrite (bool_decide_eq_false_2 (field ∈ l)) by done.
    destruct (decide (f = field)) as [->|Hne].
    + rewrite bool_decide_eq_true_2 by by left.
      unfold SimpleCalcBackup.readField.
      destruct (document !! field); [by rewrite lookup_insert_eq|done].
    + rewrite bool_decide_eq_false_2.
      2:{ intros [?|?]%elem_of_cons; done. }
      unfold SimpleCalcBackup.readField.
      destruct (document !! f); [by rewrite lookup_insert_ne|done].
Qed.

Lemma backup_defaults_numbers :
  Forall (fun field => exists d, SimpleCalcBackup.defaults !! field = Some (VNum d)
                                 /\ PrimFloat.is_nan d = false
                                 /\ (d =? 0)%float = false) SimpleCalcBackup.fields.
Proof. repeat constructor; eexists; (split; [|split]); reflexivity. Qed.

(** X16. In the earlier simple-calc.js a field read from the form is never
    0: [parseFloat(element.value) || defaults[field]] replaces a zero, like
    NaN, by the default.  Every field [calculate] reads is a Number that is
    neither NaN nor zero, so a cost or a percentage of 0 cannot be entered. *)
Theorem zero_is_replaced_by_the_default (document : Page) :
  Forall (fun field =>
            exists x,
              get (SimpleCalcBackup.getInputs document ∪ SimpleCalcBackup.defaults) field
                = VNum x
              /\ PrimFloat.is_nan x = false
              /\ (x =? 0)%float = false
              /\ match document !! field with
                 | Some element =>
                     if ToBoolean (VNum (parseFloat (Element.value element)))
                     then x = parseFloat (Element.value element)
                     else SimpleCalcBackup.defaults !! field = Some (VNum x)
                 | None => SimpleCalcBackup.defaults !! field = Some (VNum x)
                 end) SimpleCalcBackup.fields.
Proof.
  pose proof backup_defaults_numbers as Hd. rewrite Forall_forall in Hd.
  apply Forall_forall. intros field Hin.
  destruct (Hd field Hin) as (d & Ed & Hnan & Hz).
  assert (field <> "currency") as Hne.
  { intros ->. revert Hin. apply (bool_decide_unpack _). by vm_compute. }
  assert (SimpleCalcBackup.getInputs document !! field
          = foldl (SimpleCalcBackup.readField document) ∅ SimpleCalcBackup.fields !! field)
    as Hg.
  { unfold SimpleCalcBackup.getInputs. destruct (document !! "currency"); [|done].
    by rewrite lookup_insert_ne. }
  unfold get. rewrite backup_foldl_readField, bool_decide_eq_true_2 in Hg by done.
  destruct (document !! field) as [element|] eqn:E.
  - rewrite (lookup_union_Some_l _ _ _ _ Hg). cbn [default].
    destruct (ToBoolean (VNum (parseFloat (Element.value element)))) eqn:En.
    + eexists. split; [done|]. cbn [ToBoolean] in En.
      apply negb_true_iff, orb_false_iff in En as [E1 E2]. done.
    + exists d. unfold get. rewrite Ed. done.
  - rewrite lookup_union_r by done. rewrite Ed. exists d. done.
Qed.

(** *** Displaying the results *)

Lemma readField_values (d d' : Page) inputs field :
  Element.value <$> d' !! field = Element.value <$> d !! field ->
  readField d' inputs field = readField d inputs field.
Proof.
  unfold readField. destruct (d' !! field) as [e'|], (d !! field) as [e|]; cbn; try done.
  by intros [= ->].
Qed.

(** [getInputs] reads the values of the elements only. *)
Lemma getInputs_values (d d' : Page) :
  (forall id, Element.value <$> d' !! id = Element.value <$> d !! id) ->
  getInputs d' = getInputs d.
Proof.
  intros H. unfold getInputs.
  assert (forall l inputs, foldl (readField d') inputs l = foldl (readField d) inputs l) as ->.
  { induction l as [|f l IH]; intros inputs; cbn [foldl]; [done|].
    by rewrite IH, (readField_values d d' inputs f (H f)). }
  specialize (H "currency").
  destruct (d' !! "currency") as [e'|], (d !! "currency") as [e|]; cbn in H; try done.
  by injection H as ->.
Qed.

Lemma lookup_alter_if {A} (f : A -> A) (m : gmap string A) (i j : string) :
  alter f i m !! j = (fun x => if decide (i = j) then f x else x) <$> m !! j.
Proof.
  destruct (decide (i = j)) as [->|Hne].
  - by rewrite lookup_alter_eq.
  - rewrite lookup_alter_ne by done. destruct (m !! j); done.
Qed.

(** The element that [updateResults] leaves under an id: the display of the
    warning, the texts of the four figures and the text of every element
    whose id ends in "Unit" are set, the last assignment winning. *)
#[local] Abbreviation pointwise D T1 T2 T3 T4 S :=
  (fun (id : string) (el : Element.t) =>
     {| Element.value := Element.value el;
        Element.textContent :=
          if endsWith "Unit" id then S
          else if decide ("annualCostValue" = id) then T4
          else if decide ("annualSavingsValue" = id) then T3
          else if decide ("roiValue" = id) then T2
          else if decide ("paybackValue" = id) then T1
          else Element.textContent el;
        Element.display :=
          if decide ("accidentReductionWarning" = id) then D
          else Element.display el |}).

Lemma pointwise_idempotent (D T1 T2 T3 T4 S : string) id el :
  pointwise D T1 T2 T3 T4 S id (pointwise D T1 T2 T3 T4 S id el)
  = pointwise D T1 T2 T3 T4 S id el.
Proof.
  cbn [Element.value Element.textContent Element.display]. f_equal.
  - destruct (endsWith "Unit" id); [done|].
    repeat (case_match; [done|]). done.
  - by case_match.
Qed.

Lemma pointwise_lookup (D T1 T2 T3 T4 S : string) (d : Page) id :
  map_imap (fun id element =>
              Some (if endsWith "Unit" id then
                      {| Element.value := Element.value element;
                         Element.textContent := S;
                         Element.display := Element.display element |}
                    else element))
    (setText "annualCostValue" T4
       (setText "annualSavingsValue" T3
          (setText "roiValue" T2
             (setText "paybackValue" T1
                (setDisplay "accidentReductionWarning" D d))))) !! id
  = pointwise D T1 T2 T3 T4 S id <$> d !! id.
Proof.
  rewrite map_lookup_imap. unfold setText, setDisplay.
  rewrite !lookup_alter_if.
  destruct (d !! id) as [[v t dsp]|]; [|done].
  destruct (decide ("accidentReductionWarning" = id));
  destruct (decide ("paybackValue" = id));
  destruct (decide ("roiValue" = id));
  destruct (decide ("annualSavingsValue" = id));
  destruct (decide ("annualCostValue" = id));
  destruct (endsWith "Unit" id); reflexivity.
Qed.

Section DisplayFacts.
Context (toLocaleString : float -> string).

(** What [updateResults] does is done element by element, with texts that
    the values read from the form determine. *)
Lemma updateResults_pointwise (inputs : obj) :
  exists D T1 T2 T3 T4 S : string,
    forall d id, getInputs d = inputs ->
                 updateResults toLocaleString d !! id
                 = pointwise D T1 T2 T3 T4 S id <$> d !! id.
Proof.
  eexists _, _, _, _, _, _. intros d id E.
  match goal with
  | |- ?l = ?r =>
      let l1 := eval unfold updateResults in l in
      let l2 := eval cbv zeta in l1 in
      change (l2 = r)
  end.
  rewrite E. apply pointwise_lookup.
Qed.


End DisplayFacts.

End FormFacts.

(** ** The simple application: simple-app.js *)

Module SimpleAppFacts.
Import JS Formulas Notions ScenarioFacts.
Import SimpleApp.
#[local] Set Warnings "-clear-no-such-hyp".

(** [calculate] computes on a copy: the results are those of the adjusted
    record, and the stored object is as before. *)
Lemma calculate_eq (this : SimpleROICalculator) (h : heap) (o : obj) :
  h !! currentInputs this = Some o ->
  exists h',
    calculate this h
    = Some (SimpleFormulas.calculateROI (adjusted (currentScenario this) o), h')
    /\ h' !! currentInputs this = Some o.
Proof.
  intros Hin.
  destruct (applyScenario_eq h (currentInputs this) o (currentScenario this) Hin)
    as [E1 E2].
  destruct (spread_fresh h (currentInputs this) o Hin) as [_ Hfresh].
  eexists. unfold calculate. rewrite E2, E1. cbn [mbind option_bind].
  rewrite lookup_insert_eq. split; [reflexivity|].
  rewrite lookup_insert_ne; [done|]. intros E. rewrite E, Hin in Hfresh. done.
Qed.

(** X18. Scenarios do not compound in the simple application: [setScenario]
    computes on a copy of the stored inputs and leaves them as they were, so
    that choosing a scenario after another one gives the results of
    choosing it at once. *)
Theorem scenarios_do_not_compound
    (this : SimpleROICalculator) (h : heap) (o : obj) (first second : value) :
  h !! currentInputs this = Some o ->
  exists this1 results1 h1 this2 results2 h2 h',
    setScenario first this h = Some (this1, results1, h1)
    /\ setScenario second this1 h1 = Some (this2, results2, h2)
    /\ setScenario second this h = Some (this2, results2, h')
    /\ results2 = SimpleFormulas.calculateROI (adjusted second o)
    /\ currentInputs this2 = currentInputs this
    /\ h2 !! currentInputs this2 = Some o.
Proof.
  intros Hin.
  pose (this1 := {| currentInputs := currentInputs this; currentScenario := first |}).
  pose (this2 := {| currentInputs := currentInputs this; currentScenario := second |}).
  destruct (calculate_eq this1 h o Hin) as (h1 & E1 & Hin1).
  destruct (calculate_eq this2 h1 o Hin1) as (h2 & E2 & Hin2).
  destruct (calculate_eq this2 h o Hin) as (h' & E' & _).
  exists this1, (SimpleFormulas.calculateROI (adjusted first o)), h1,
         this2, (SimpleFormulas.calculateROI (adjusted second o)), h2, h'.
  unfold setScenario.
  change {| currentInputs := currentInputs this1; currentScenario := second |} with this2.
  fold this1 this2. rewrite E1, E2, E'. done.
Qed.

Lemma scenarios_do_not_compound_witness :
  ({[1%positive := fixture]} : heap) !! 1%positive = Some fixture
  /\ exists this1 results1 h1 this2 results2 h2 h',
    setScenario (VStr "conservative")
      {| currentInputs := 1%positive; currentScenario := VStr "base" |}
      {[1%positive := fixture]} = Some (this1, results1, h1)
    /\ setScenario (VStr "aggressive") this1 h1 = Some (this2, results2, h2)
    /\ setScenario (VStr "aggressive")
         {| currentInputs := 1%positive; currentScenario := VStr "base" |}
         {[1%positive := fixture]} = Some (this2, results2, h')
    /\ results2 = SimpleFormulas.calculateROI (adjusted (VStr "aggressive") fixture)
    /\ currentInputs this2 = 1%positive
    /\ h2 !! currentInputs this2 = Some fixture.
Proof.
  assert (({[1%positive := fixture]} : heap) !! 1%positive = Some fixture) as H
    by reflexivity.
  split; [exact H|].
  exact (scenarios_do_not_compound
           {| currentInputs := 1%positive; currentScenario := VStr "base" |}
           {[1%positive := fixture]} fixture (VStr "conservative") (VStr "aggressive") H).
Defined.

End SimpleAppFacts.
